(** * gravity_flyby: the simulation core of [script.js]

  A shallow embedding of the classes [Vector2], [Ship], [Planet], [Goal]
  and [Game].  JavaScript numbers are IEEE 754 binary64 values, so they are
  modelled by Rocq's primitive floats, whose operations ([+], [-], [*], [/],
  [sqrt], [<?], [=?]) are the very operations the script performs; every
  function below evaluates with [vm_compute].

  Objects are records and a method [m(args)] of a class [C] is a function
  [C.m args this] returning the updated object.  The canvas context is
  replaced by the list of drawing operations issued on it.  A [TypeError]
  (a property read on [null] or a call of [undefined]) is [None].  The
  numbers that only ever hold integers ([frameCount], [currentLevel]) are
  kept as the integers they hold, and [frameCount++] is the binary64
  addition on them ([JS.incr]); the length of the trail is a natural
  number. *)

From Stdlib Require Import Floats ZArith List String Bool Lia.
Import ListNotations.

Set Warnings "-inexact-float".

(** ** Control flow of JavaScript loops *)

Module JS.

(** How the body of a loop completes: normally, or through [break]. *)
Inductive completion (S : Type) : Type :=
| Normal (s : S)
| Break (s : S).
Arguments Normal {S} s.
Arguments Break {S} s.

(** [for (let a of l) body]: a [break] leaves this loop, and this loop
    only; the statement after the loop then runs on the state reached. *)
Fixpoint for_of {A S : Type} (body : A -> S -> completion S)
         (l : list A) (s : S) : S :=
  match l with
  | [] => s
  | a :: l' =>
      match body a s with
      | Normal s' => for_of body l' s'
      | Break s' => s'
      end
  end.

(** [for (let i = i0; i < i0 + n; i++) body]. *)
Fixpoint for_lt {S : Type} (body : nat -> S -> completion S)
         (i n : nat) (s : S) : S :=
  match n with
  | O => s
  | Datatypes.S n' =>
      match body i s with
      | Normal s' => for_lt body (Datatypes.S i) n' s'
      | Break s' => s'
      end
  end.

(** A number that holds an integer is kept as that integer.  [number n] is
    the binary64 value of [n] (the nearest one, ties to even, for an [n]
    that binary64 does not have) and [integer x] is the integer a finite
    [x] holds. *)
Definition number (n : Z) : float :=
  SF2Prim (SpecFloat.binary_normalize prec emax n 0 false).

Definition magnitude (m : positive) (e : Z) : Z :=
  (if 0 <=? e then Z.pos m * 2 ^ e else Z.pos m / 2 ^ (- e))%Z.

Definition integer (x : float) : option Z :=
  match Prim2SF x with
  | S754_zero _ => Some 0%Z
  | S754_finite s m e => Some (cond_Zopp s (magnitude m e))
  | S754_infinity _ | S754_nan => None
  end.

(** [n++] on such a number: the binary64 sum [n + 1], which is the integer
    [n + 1] as long as that is at most [2^53], while [2^53 + 1] is [2^53]
    again.  (Infinity and NaN hold no integer; no [n] leads to them.) *)
Definition incr (n : Z) : Z :=
  match integer (number n + 1)%float with
  | Some n' => n'
  | None => n
  end.

(** Exceptions: [None] is a thrown [TypeError]. *)
Definition bind {A B : Type} (m : option A) (k : A -> option B) : option B :=
  match m with
  | Some a => k a
  | None => None
  end.

End JS.

Notation "x <- m ;; k" := (JS.bind m (fun x => k))
(at level 61, m at next level, right associativity).

(** ** class Vector2 *)

Module Vector2.
Local Open Scope float_scope.

Record t : Set := new { x : float; y : float }.

Definition add (this v : t) : t := new (x this + x v) (y this + y v).
Definition sub (this v : t) : t := new (x this - x v) (y this - y v).
Definition mult (this : t) (n : float) : t := new (x this * n) (y this * n).
Definition div (this : t) (n : float) : t := new (x this / n) (y this / n).
Definition mag (this : t) : float :=
  PrimFloat.sqrt (x this * x this + y this * y this).
Definition normalize (this : t) : t :=
  let m := mag this in
  if m =? 0 then new 0 0 else new (x this / m) (y this / m).
Definition dist (v1 v2 : t) : float := mag (sub v1 v2).
Definition copy (this : t) : t := new (x this) (y this).

End Vector2.

(** ** GAME_STATE *)

Inductive GAME_STATE : Set :=
| IDLE     (* Creating trajectory *)
| FLYING   (* Physics active *)
| ENDED.   (* Win/Loss *)

Definition GAME_STATE_eqb (a b : GAME_STATE) : bool :=
match a, b with
| IDLE, IDLE | FLYING, FLYING | ENDED, ENDED => true
| _, _ => false
end.

(** ** class Planet *)

Module Planet.
Local Open Scope float_scope.

Record t : Set := mk {
  pos : Vector2.t;
  radius : float;
  gravity : float;
  influenceRadius : float;
  color : string
}.

Definition constructor (x y radius gravity influenceRadius : float) : t :=
  mk (Vector2.new x y) radius gravity influenceRadius "#4cc9f0".

End Planet.

(** ** class Ship *)

Module Ship.
Local Open Scope float_scope.

Record t : Set := mk {
  pos : Vector2.t;
  vel : Vector2.t;
  acc : Vector2.t;
  radius : float;
  color : string;
  trail : list Vector2.t;
  maxTrailLength : nat
}.

Definition set_pos (v : Vector2.t) (this : t) : t :=
  mk v (vel this) (acc this) (radius this) (color this) (trail this)
     (maxTrailLength this).
Definition set_vel (v : Vector2.t) (this : t) : t :=
  mk (pos this) v (acc this) (radius this) (color this) (trail this)
     (maxTrailLength this).
Definition set_acc (v : Vector2.t) (this : t) : t :=
  mk (pos this) (vel this) v (radius this) (color this) (trail this)
     (maxTrailLength this).
Definition set_trail (l : list Vector2.t) (this : t) : t :=
  mk (pos this) (vel this) (acc this) (radius this) (color this) l
     (maxTrailLength this).

Definition constructor (x y : float) : t :=
  mk (Vector2.new x y) (Vector2.new 0 0) (Vector2.new 0 0) 8 "#ffffff"
     [] 20.

Definition applyForce (force : Vector2.t) (this : t) : t :=
  set_acc (Vector2.add (acc this) force) this.

(** Lines 42-57 of [update]: the acceleration is reset, then every planet
    whose influence radius the ship is inside applies its force. *)
Definition gravity (planets : list Planet.t) (this : t) : t :=
  let this := set_acc (Vector2.new 0 0) this in
  JS.for_of
    (fun planet this =>
       let dir := Vector2.sub (Planet.pos planet) (pos this) in
       let d := Vector2.mag dir in
       let epsilon := 5.0 in
       if d <? Planet.influenceRadius planet then
         let strength := Planet.gravity planet / (d + epsilon) in
         let force := Vector2.mult (Vector2.normalize dir) strength in
         JS.Normal (applyForce force this)
       else JS.Normal this)
    planets this.

(** Lines 59-61 of [update]: symplectic Euler integration. *)
Definition integrate (dt : float) (this : t) : t :=
  let this := set_vel (Vector2.add (vel this) (Vector2.mult (acc this) dt)) this in
  set_pos (Vector2.add (pos this) (Vector2.mult (vel this) dt)) this.

(** Lines 63-67 of [update]: the trail; [frameCount] is what the method
    reads from [GlobalGame.frameCount]. *)
Definition trailEffect (frameCount : Z) (this : t) : t :=
  if (Z.rem frameCount 5 =? 0)%Z then
    let this := set_trail (trail this ++ [Vector2.copy (pos this)]) this in
    if (maxTrailLength this <? List.length (trail this))%nat
    then set_trail (tl (trail this)) this
    else this
  else this.

Definition update (dt : float) (planets : list Planet.t) (frameCount : Z)
           (this : t) : t :=
  trailEffect frameCount (integrate dt (gravity planets this)).

End Ship.

(** ** class Goal *)

Module Goal.
Local Open Scope float_scope.

Record t : Set := mk {
  pos : Vector2.t;
  radius : float;
  pulse : float
}.

Definition constructor (x y radius : float) : t :=
  mk (Vector2.new x y) radius 0.

(** [draw] changes the object: the pulse advances on every frame.  The
    arcs it strokes are not modelled. *)
Definition draw (this : t) : t :=
  mk (pos this) (radius this) (pulse this + 0.05).

End Goal.

(** ** class Game *)

Module Game.
Local Open Scope float_scope.

(** The DOM objects the game holds, with the properties it reads or writes:
    the canvas ([width], [height]), the message banner ([innerText],
    [style.color] and whether its class list has [hidden]) and the retry
    button ([innerText] and the [onclick] handler). *)
Record Canvas : Set := mkCanvas { width : float; height : float }.

Record Messages : Set := mkMessages {
  msg_innerText : string;
  msg_color : string;
  msg_hidden : bool
}.

(** The two closures assigned to [retryBtn.onclick]: the one of [initLevel]
    (line 277) and the one of [gameWin] (line 351). *)
Inductive Onclick : Set :=
| RetryLevel   (* () => { this.initLevel(this.currentLevel); } *)
| NextLevel.   (* () => { this.currentLevel++; this.initLevel(this.currentLevel); } *)

Record Button : Set := mkButton {
  btn_innerText : string;
  btn_onclick : Onclick
}.

Record DOMRect : Set := mkRect { left : float; top : float }.
Record MouseEvent : Set := mkMouse { clientX : float; clientY : float }.

(** What a level function returns.  The three functions of the constructor
    return an object with [ship], [goal: {pos, r}] and [planets], and this
    is the shape every level has here. *)
Record LevelConfig : Set := mkConfig {
  cfg_ship : Vector2.t;
  cfg_goal_pos : Vector2.t;
  cfg_goal_r : float;
  cfg_planets : list Planet.t
}.

(** Operations on the 2D context.  The shapes of the goal, the planets and
    the ship are summarised by one operation each. *)
Inductive CtxOp : Set :=
| ClearRect (x y w h : float)
| BeginPath
| MoveTo (x y : float)
| LineTo (x y : float)
| StrokeStyle (s : string)
| SetLineDash (segments : list float)
| Stroke
| DrawGoal (g : Goal.t)
| DrawPlanet (p : Planet.t)
| DrawShip (s : Ship.t).

(** The game.  [levels] is the object [this.levels], read at a key:
    [levels n] is the function stored under [n], and [None] when the key
    holds nothing.  The table of every page is [builtin_levels], which no
    method replaces; another table stands for a script with other level
    functions of the same kind (functions of the size of the canvas that
    return a whole configuration). *)
Record t : Type := mk {
  canvas : Canvas;
  uiStage : Z;
  uiMessages : Messages;
  retryBtn : Button;
  currentLevel : Z;
  isDragging : bool;
  dragStart : option Vector2.t;
  dragCurrent : option Vector2.t;
  ship : Ship.t;
  planets : list Planet.t;
  goal : Goal.t;
  state : GAME_STATE;
  levels : Z -> option (float -> float -> LevelConfig);
  lastTime : float;
  frameCount : Z
}.

Definition set_canvas (v : Canvas) (this : t) : t :=
  mk v (uiStage this) (uiMessages this) (retryBtn this)
    (currentLevel this) (isDragging this) (dragStart this)
    (dragCurrent this) (ship this) (planets this) (goal this) (state this)
    (levels this) (lastTime this) (frameCount this).
Definition set_uiStage (v : Z) (this : t) : t :=
  mk (canvas this) v (uiMessages this) (retryBtn this) (currentLevel this)
    (isDragging this) (dragStart this) (dragCurrent this) (ship this)
    (planets this) (goal this) (state this) (levels this) (lastTime this)
    (frameCount this).
Definition set_uiMessages (v : Messages) (this : t) : t :=
  mk (canvas this) (uiStage this) v (retryBtn this) (currentLevel this)
    (isDragging this) (dragStart this) (dragCurrent this) (ship this)
    (planets this) (goal this) (state this) (levels this) (lastTime this)
    (frameCount this).
Definition set_retryBtn (v : Button) (this : t) : t :=
  mk (canvas this) (uiStage this) (uiMessages this) v (currentLevel this)
    (isDragging this) (dragStart this) (dragCurrent this) (ship this)
    (planets this) (goal this) (state this) (levels this) (lastTime this)
    (frameCount this).
Definition set_currentLevel (v : Z) (this : t) : t :=
  mk (canvas this) (uiStage this) (uiMessages this) (retryBtn this) v
    (isDragging this) (dragStart this) (dragCurrent this) (ship this)
    (planets this) (goal this) (state this) (levels this) (lastTime this)
    (frameCount this).
Definition set_isDragging (v : bool) (this : t) : t :=
  mk (canvas this) (uiStage this) (uiMessages this) (retryBtn this)
    (currentLevel this) v (dragStart this) (dragCurrent this) (ship this)
    (planets this) (goal this) (state this) (levels this) (lastTime this)
    (frameCount this).
Definition set_dragStart (v : option Vector2.t) (this : t) : t :=
  mk (canvas this) (uiStage this) (uiMessages this) (retryBtn this)
    (currentLevel this) (isDragging this) v (dragCurrent this) (ship this)
    (planets this) (goal this) (state this) (levels this) (lastTime this)
    (frameCount this).
Definition set_dragCurrent (v : option Vector2.t) (this : t) : t :=
  mk (canvas this) (uiStage this) (uiMessages this) (retryBtn this)
    (currentLevel this) (isDragging this) (dragStart this) v (ship this)
    (planets this) (goal this) (state this) (levels this) (lastTime this)
    (frameCount this).
Definition set_ship (v : Ship.t) (this : t) : t :=
  mk (canvas this) (uiStage this) (uiMessages this) (retryBtn this)
    (currentLevel this) (isDragging this) (dragStart this)
    (dragCurrent this) v (planets this) (goal this) (state this)
    (levels this) (lastTime this) (frameCount this).
Definition set_planets (v : list Planet.t) (this : t) : t :=
  mk (canvas this) (uiStage this) (uiMessages this) (retryBtn this)
    (currentLevel this) (isDragging this) (dragStart this)
    (dragCurrent this) (ship this) v (goal this) (state this)
    (levels this) (lastTime this) (frameCount this).
Definition set_goal (v : Goal.t) (this : t) : t :=
  mk (canvas this) (uiStage this) (uiMessages this) (retryBtn this)
    (currentLevel this) (isDragging this) (dragStart this)
    (dragCurrent this) (ship this) (planets this) v (state this)
    (levels this) (lastTime this) (frameCount this).
Definition set_state (v : GAME_STATE) (this : t) : t :=
  mk (canvas this) (uiStage this) (uiMessages this) (retryBtn this)
    (currentLevel this) (isDragging this) (dragStart this)
    (dragCurrent this) (ship this) (planets this) (goal this) v
    (levels this) (lastTime this) (frameCount this).
Definition set_lastTime (v : float) (this : t) : t :=
  mk (canvas this) (uiStage this) (uiMessages this) (retryBtn this)
    (currentLevel this) (isDragging this) (dragStart this)
    (dragCurrent this) (ship this) (planets this) (goal this) (state this)
    (levels this) v (frameCount this).
Definition set_frameCount (v : Z) (this : t) : t :=
  mk (canvas this) (uiStage this) (uiMessages this) (retryBtn this)
    (currentLevel this) (isDragging this) (dragStart this)
    (dragCurrent this) (ship this) (planets this) (goal this) (state this)
    (levels this) (lastTime this) v.

(** The levels of the constructor (lines 215-240). *)
Definition builtin_levels (levelNum : Z)
  : option (float -> float -> LevelConfig) :=
  match levelNum with
  | 1%Z => Some (fun w h =>
      mkConfig (Vector2.new 100 (h - 100)) (Vector2.new (w - 100) 100) 30
        [ Planet.constructor (w / 2) (h / 2) 40 5000 300 ])
  | 2%Z => Some (fun w h =>
      mkConfig (Vector2.new 100 (h / 2)) (Vector2.new (w - 100) (h / 2)) 30
        [ Planet.constructor (w / 3) (h / 2 - 150) 35 4000 250;
          Planet.constructor (2 * w / 3) (h / 2 + 150) 35 4000 250 ])
  | 3%Z => Some (fun w h =>
      mkConfig (Vector2.new 100 (h / 2)) (Vector2.new (w - 100) (h / 2)) 25
        [ Planet.constructor (w / 2) (h / 2) 60 8000 400;
          Planet.constructor (w - 200) (h / 2 - 150) 20 2000 150;
          Planet.constructor (w - 200) (h / 2 + 150) 20 2000 150 ])
  | _ => None
  end.

Definition resize (innerWidth innerHeight : float) (this : t) : t :=
  set_canvas (mkCanvas innerWidth innerHeight) this.

Definition getMousePos (rect : DOMRect) (e : MouseEvent) : Vector2.t :=
  Vector2.new (clientX e - left rect) (clientY e - top rect).

Definition initLevel (levelNum : Z) (this : t) : option t :=
  let '(levelNum, this) :=
    match levels this levelNum with
    | None => (1%Z, set_currentLevel 1%Z this)
    | Some _ => (levelNum, this)
    end in
  level <- levels this levelNum ;;
  let config := level (width (canvas this)) (height (canvas this)) in
  let this := set_state IDLE this in
  let this :=
    set_uiMessages
      (mkMessages (msg_innerText (uiMessages this))
                  (msg_color (uiMessages this)) true) this in
  let this := set_uiStage levelNum this in
  let this := set_retryBtn (mkButton "RETRY" RetryLevel) this in
  let this :=
    set_ship (Ship.constructor (Vector2.x (cfg_ship config))
                               (Vector2.y (cfg_ship config))) this in
  let this := set_planets (cfg_planets config) this in
  let this :=
    set_goal (Goal.constructor (Vector2.x (cfg_goal_pos config))
                               (Vector2.y (cfg_goal_pos config))
                               (cfg_goal_r config)) this in
  Some this.

Definition onMouseDown (rect : DOMRect) (e : MouseEvent) (this : t) : t :=
  if negb (GAME_STATE_eqb (state this) IDLE) then this
  else
    let pos := getMousePos rect e in
    let this := set_isDragging true this in
    let this := set_dragStart (Some pos) this in
    set_dragCurrent (Some pos) this.

Definition onMouseMove (rect : DOMRect) (e : MouseEvent) (this : t) : t :=
  if negb (isDragging this) then this
  else set_dragCurrent (Some (getMousePos rect e)) this.

Definition onMouseUp (this : t) : option t :=
  if negb (isDragging this) then Some this
  else
    let this := set_isDragging false this in
    dragStart <- dragStart this ;;
    dragCurrent <- dragCurrent this ;;
    let dragVector := Vector2.sub dragStart dragCurrent in
    let power := 3.0 in
    let launchVel := Vector2.mult dragVector (0.1 * power) in
    let this := set_ship (Ship.set_vel launchVel (ship this)) this in
    Some (set_state FLYING this).

Definition gameWin (this : t) : t :=
  let this := set_state ENDED this in
  let this := set_uiMessages (mkMessages "COURSE CLEAR!" "#4cc9f0" false) this in
  set_retryBtn (mkButton "NEXT LEVEL" NextLevel) this.

Definition gameLoss (msg : string) (this : t) : t :=
  let this := set_state ENDED this in
  set_uiMessages (mkMessages msg "#ef233c" false) this.

Definition checkCollisions (this : t) : t :=
  (* Goal *)
  let this :=
    if Vector2.dist (Ship.pos (ship this)) (Goal.pos (goal this))
       <? Goal.radius (goal this) + Ship.radius (ship this)
    then gameWin this else this in
  (* Planets *)
  let this :=
    JS.for_of
      (fun p this =>
         if Vector2.dist (Ship.pos (ship this)) (Planet.pos p)
            <? Planet.radius p + Ship.radius (ship this)
         then JS.Normal (gameLoss "CRASHED!" this)
         else JS.Normal this)
      (planets this) this in
  (* Out of bounds *)
  let m := 0 in
  if (Vector2.x (Ship.pos (ship this)) <? - m)
     || (width (canvas this) + m <? Vector2.x (Ship.pos (ship this)))
     || (Vector2.y (Ship.pos (ship this)) <? - m)
     || (height (canvas this) + m <? Vector2.y (Ship.pos (ship this)))
  then gameLoss "LOST IN SPACE" this
  else this.

Definition update (dt : float) (this : t) : t :=
  let this := set_frameCount (JS.incr (frameCount this)) this in
  if GAME_STATE_eqb (state this) FLYING then
    (* Slow motion for better observation (20 instead of 60) *)
    let this :=
      set_ship (Ship.update (dt * 20) (planets this) (frameCount this)
                            (ship this)) this in
    (* Collision Detection *)
    checkCollisions this
  else this.

(** The local variables of [drawTrajectory] while its loop runs, with the
    operations issued on [this.ctx] so far. *)
Record Sim : Set := mkSim {
  simPos : Vector2.t;
  simVel : Vector2.t;
  simAcc : Vector2.t;
  ctx : list CtxOp
}.

(** The body of the loop of lines 397-418. *)
Definition predictBody (planets : list Planet.t) (simDt : float)
           (i : nat) (st : Sim) : JS.completion Sim :=
  let st := mkSim (simPos st) (simVel st) (Vector2.new 0 0) (ctx st) in
  let st :=
    JS.for_of
      (fun planet st =>
         let dir := Vector2.sub (Planet.pos planet) (simPos st) in
         let d := Vector2.mag dir in
         let epsilon := 5.0 in
         if d <? Planet.influenceRadius planet then
           let strength := Planet.gravity planet / (d + epsilon) in
           let force := Vector2.mult (Vector2.normalize dir) strength in
           JS.Normal (mkSim (simPos st) (simVel st)
                            (Vector2.add (simAcc st) force) (ctx st))
         else JS.Normal st)
      planets st in
  let st :=
    mkSim (simPos st)
          (Vector2.add (simVel st) (Vector2.mult (simAcc st) simDt))
          (simAcc st) (ctx st) in
  let st :=
    mkSim (Vector2.add (simPos st) (Vector2.mult (simVel st) simDt))
          (simVel st) (simAcc st) (ctx st) in
  let st :=
    mkSim (simPos st) (simVel st) (simAcc st)
          (ctx st ++ [LineTo (Vector2.x (simPos st)) (Vector2.y (simPos st))]) in
  (* Check collision in future (optional visual cue) *)
  let st :=
    JS.for_of
      (fun p st =>
         if Vector2.dist (simPos st) (Planet.pos p) <? Planet.radius p
         then JS.Break st
         else JS.Normal st)
      planets st in
  JS.Normal st.

(** [for (let i = 0; i < steps; i++)] over that body. *)
Definition predict (steps : nat) (simDt : float) (planets : list Planet.t)
           (st : Sim) : Sim :=
  JS.for_lt (predictBody planets simDt) 0 steps st.

Definition drawTrajectory (this : t) : option (list CtxOp) :=
  (* Slingshot vector *)
  dragStart <- dragStart this ;;
  dragCurrent <- dragCurrent this ;;
  let dragVector := Vector2.sub dragStart dragCurrent in
  let power := 3.0 in
  let launchVel := Vector2.mult dragVector (0.1 * power) in
  let simPos := Vector2.copy (Ship.pos (ship this)) in
  let simVel := Vector2.copy launchVel in
  let simAcc := Vector2.new 0 0 in
  let ctx :=
    [ BeginPath;
      MoveTo (Vector2.x simPos) (Vector2.y simPos);
      StrokeStyle "rgba(255, 255, 255, 0.5)";
      SetLineDash [5; 5] ] in
  let steps := 100%nat in  (* How far to predict *)
  let simDt := 1 in        (* 1 frame per step equivalent *)
  let st := predict steps simDt (planets this) (mkSim simPos simVel simAcc ctx) in
  Some (Game.ctx st ++
        [ Stroke;
          SetLineDash [];
          (* Draw Drag Line *)
          BeginPath;
          MoveTo (Vector2.x (Ship.pos (ship this)))
                 (Vector2.y (Ship.pos (ship this)));
          LineTo (Vector2.x (Ship.pos (ship this)) - Vector2.x dragVector)
                 (Vector2.y (Ship.pos (ship this)) - Vector2.y dragVector);
          StrokeStyle "#fca311";
          Stroke ]).

Definition draw (this : t) : option (list CtxOp * t) :=
  let ops :=
    [ ClearRect 0 0 (width (canvas this)) (height (canvas this)) ] in
  (* Draw Predict Line (Trajectory) if Dragging *)
  ops <- (if GAME_STATE_eqb (state this) IDLE && isDragging this
          then (traj <- drawTrajectory this ;; Some (ops ++ traj))
          else Some ops) ;;
  (* Draw Entities *)
  let this := set_goal (Goal.draw (goal this)) this in
  Some (ops ++ [DrawGoal (goal this)] ++ map DrawPlanet (planets this)
            ++ [DrawShip (ship this)],
        this).

Definition loop (timestamp : float) (this : t) : option (list CtxOp * t) :=
  let dt := (timestamp - lastTime this) / 1000 in
  let this := set_lastTime timestamp this in
  let this := update dt this in
  draw this.

(** A click on the retry button runs the listener the constructor added
    (line 192) and then the [onclick] handler the button has by then. *)
Definition retryBtn_click (this : t) : option t :=
  this <- (if negb (GAME_STATE_eqb (state this) ENDED)
              || negb (String.eqb (msg_innerText (uiMessages this))
                                  "COURSE CLEAR!")
           then initLevel (currentLevel this) this
           else Some this) ;;
  match btn_onclick (retryBtn this) with
  | RetryLevel => initLevel (currentLevel this) this
  | NextLevel =>
      let this := set_currentLevel (JS.incr (currentLevel this)) this in
      initLevel (currentLevel this) this
  end.

(** [new Game()] in a window of the given inner size, on a page whose
    message banner is [banner].  The ship and the goal are [null] until
    [initLevel] runs, which the constructor calls before anything reads
    them; the record holds a ship and a goal at the origin until then. *)
Definition constructor (innerWidth innerHeight : float) (banner : Messages)
  : option t :=
  let this :=
    mk (mkCanvas innerWidth innerHeight) 0%Z banner (mkButton "" RetryLevel)
       1%Z false None None (Ship.constructor 0 0) [] (Goal.constructor 0 0 0)
       IDLE builtin_levels 0 0%Z in
  this <- initLevel (currentLevel this) this ;;
  let this := set_lastTime 0 this in
  Some (set_frameCount 0%Z this).

(** ** The events the page delivers to a game *)

Inductive Event : Set :=
| Frame (timestamp : float)
| MouseDown (rect : DOMRect) (e : MouseEvent)
| MouseMove (rect : DOMRect) (e : MouseEvent)
| MouseUp
| RetryClick
| Resize (innerWidth innerHeight : float).

Definition handle (ev : Event) (this : t) : option t :=
  match ev with
  | Frame timestamp => r <- loop timestamp this ;; Some (snd r)
  | MouseDown rect e => Some (onMouseDown rect e this)
  | MouseMove rect e => Some (onMouseMove rect e this)
  | MouseUp => onMouseUp this
  | RetryClick => retryBtn_click this
  | Resize w h => Some (resize w h this)
  end.

Fixpoint run (evs : list Event) (this : t) : option t :=
  match evs with
  | [] => Some this
  | ev :: evs' => this <- handle ev this ;; run evs' this
  end.

(** The games a page can be in: the constructed one after any events. *)
Definition reachable (this : t) : Prop :=
  exists innerWidth innerHeight banner evs,
    (g0 <- constructor innerWidth innerHeight banner ;; run evs g0) = Some this.

End Game.

(** ** Observations on the code *)

Local Open Scope float_scope.

(** The loop of lines 45-57, which lines 399-408 repeat: the force of every
    planet in range is added, in list order, to an acceleration that starts
    at [(0, 0)]; [point] is [this.pos], respectively [simPos]. *)
Definition accumulate (point : Vector2.t) (acc : Vector2.t) (planet : Planet.t)
  : Vector2.t :=
  let dir := Vector2.sub (Planet.pos planet) point in
  let d := Vector2.mag dir in
  let epsilon := 5.0 in
  if d <? Planet.influenceRadius planet then
    let strength := Planet.gravity planet / (d + epsilon) in
    let force := Vector2.mult (Vector2.normalize dir) strength in
    Vector2.add acc force
  else acc.

Definition acceleration (point : Vector2.t) (planets : list Planet.t)
  : Vector2.t :=
  fold_left (accumulate point) planets (Vector2.new 0 0).

(** The force field as the specification words it (section 4.2), written
    out on the coordinates in the arithmetic of binary64, with none of the
    methods of [Vector2]: [dir = body.position - point] and
    [d = magnitude(dir) = sqrt(x^2 + y^2)]; a body with [d] below its
    influence radius contributes [normalize(dir) * strength], where
    [strength = gravity / (d + EPSILON)] and [normalize(dir)] is [dir / d],
    or the zero vector when [d == 0]; any other body contributes zero; and
    the contributions are summed, coordinate by coordinate, in the order of
    the list. *)
Definition EPSILON : float := 5.0.

Definition contribution (point : Vector2.t) (body : Planet.t) : Vector2.t :=
  let dx := Vector2.x (Planet.pos body) - Vector2.x point in
  let dy := Vector2.y (Planet.pos body) - Vector2.y point in
  let d := sqrt (dx * dx + dy * dy) in
  if d <? Planet.influenceRadius body then
    let strength := Planet.gravity body / (d + EPSILON) in
    if d =? 0
    then Vector2.new (0 * strength) (0 * strength)
    else Vector2.new (dx / d * strength) (dy / d * strength)
  else Vector2.new 0 0.

Definition netAcceleration (point : Vector2.t) (bodies : list Planet.t)
  : Vector2.t :=
  fold_left (fun sum c => Vector2.new (Vector2.x sum + Vector2.x c)
                                      (Vector2.y sum + Vector2.y c))
            (map (contribution point) bodies) (Vector2.new 0 0).

(** Live flight: the ship after each of [n] successive calls of
    [Ship.update], the frame counter advancing by a [frameCount++] per
    call. *)
Fixpoint live (n : nat) (dt : float) (planets : list Planet.t)
         (frameCount : Z) (s : Ship.t) : list Ship.t :=
  match n with
  | O => []
  | S n' =>
      let s' := Ship.update dt planets frameCount s in
      s' :: live n' dt planets (JS.incr frameCount) s'
  end.

(** The points a list of drawing operations draws lines to. *)
Fixpoint lineTos (ops : list Game.CtxOp) : list Vector2.t :=
  match ops with
  | [] => []
  | Game.LineTo x y :: ops' => Vector2.new x y :: lineTos ops'
  | _ :: ops' => lineTos ops'
  end.

Definition lineTo (p : Vector2.t) : Game.CtxOp :=
  Game.LineTo (Vector2.x p) (Vector2.y p).

(** The launch velocity [onMouseUp] and [drawTrajectory] compute from a
    drag. *)
Definition launchVel (dragStart dragCurrent : Vector2.t) : Vector2.t :=
  Vector2.mult (Vector2.sub dragStart dragCurrent) (0.1 * 3.0).

(** The three conditions [checkCollisions] tests. *)
Definition goalReached (g : Game.t) : bool :=
  Vector2.dist (Ship.pos (Game.ship g)) (Goal.pos (Game.goal g))
  <? Goal.radius (Game.goal g) + Ship.radius (Game.ship g).

Definition hits (g : Game.t) (p : Planet.t) : bool :=
  Vector2.dist (Ship.pos (Game.ship g)) (Planet.pos p)
  <? Planet.radius p + Ship.radius (Game.ship g).

Definition planetHit (g : Game.t) : bool := existsb (hits g) (Game.planets g).

Definition outOfBounds (g : Game.t) : bool :=
  let m := 0 in
  (Vector2.x (Ship.pos (Game.ship g)) <? - m)
  || (Game.width (Game.canvas g) + m <? Vector2.x (Ship.pos (Game.ship g)))
  || (Vector2.y (Ship.pos (Game.ship g)) <? - m)
  || (Game.height (Game.canvas g) + m <? Vector2.y (Ship.pos (Game.ship g))).

(** The outcome a tick reports, read off the game as the page shows it. *)
Inductive Outcome : Set :=
| CONTINUE
| GOAL_REACHED
| COLLISION
| OUT_OF_BOUNDS
| OTHER (msg : string).

Definition outcome (g : Game.t) : Outcome :=
  if GAME_STATE_eqb (Game.state g) ENDED then
    let msg := Game.msg_innerText (Game.uiMessages g) in
    if String.eqb msg "COURSE CLEAR!" then GOAL_REACHED
    else if String.eqb msg "CRASHED!" then COLLISION
    else if String.eqb msg "LOST IN SPACE" then OUT_OF_BOUNDS
    else OTHER msg
  else CONTINUE.

(** The invariant of the drag: while a drag is in progress the game is idle
    and both ends of the drag are set. *)
Definition drag_inv (g : Game.t) : Prop :=
  Game.isDragging g = true ->
  Game.state g = IDLE /\ Game.dragStart g <> None /\ Game.dragCurrent g <> None.

Definition moveTo (p : Vector2.t) : Game.CtxOp :=
  Game.MoveTo (Vector2.x p) (Vector2.y p).

(** ** Concrete games and inputs *)

(** A page whose banner starts empty and hidden, with the canvas at the
    origin of the viewport. *)
Definition banner0 : Game.Messages := Game.mkMessages "" "" true.
Definition rect0 : Game.DOMRect := Game.mkRect 0 0.

(** Level 1 in a window of 300 by 300: the first frame, then a drag from
    [(200, 250)] to [(125, 65)]. *)
Definition drag_events : list Game.Event :=
  [ Game.Frame 1000;
    Game.MouseDown rect0 (Game.mkMouse 200 250);
    Game.MouseMove rect0 (Game.mkMouse 125 65) ].

(** The ship is released and seven frames pass, 16 ms apart. *)
Definition flight_events : list Game.Event :=
  drag_events ++
  [ Game.MouseUp;
    Game.Frame 1016; Game.Frame 1032; Game.Frame 1048; Game.Frame 1064;
    Game.Frame 1080; Game.Frame 1096; Game.Frame 1112 ].

(** The eighth frame ends the flight. *)
Definition crash_events : list Game.Event := flight_events ++ [ Game.Frame 1128 ].

Definition play (evs : list Game.Event) : option Game.t :=
  g0 <- Game.constructor 300 300 banner0 ;; Game.run evs g0.

(** A ship of radius 8 at [p], flying in a canvas of 1000 by 700 with a goal
    of radius 30 at [(500, 100)] and the given planets. *)
Definition flying_at (p : Vector2.t) (planets : list Planet.t) : Game.t :=
  Game.mk (Game.mkCanvas 1000 700) 1%Z banner0
          (Game.mkButton "RETRY" Game.RetryLevel) 1%Z false None None
          (Ship.set_pos p (Ship.constructor 100 600)) planets
          (Goal.constructor 500 100 30) FLYING Game.builtin_levels 0 0%Z.

(** A level table whose only level has a planet of negative radius, negative
    gravity and influence radius zero. *)
Definition broken_planet : Planet.t := Planet.constructor 400 300 (-40) (-5000) 0.

Definition broken_levels (levelNum : Z)
  : option (float -> float -> Game.LevelConfig) :=
  match levelNum with
  | 1%Z => Some (fun w h =>
      Game.mkConfig (Vector2.new 100 (h - 100)) (Vector2.new (w - 100) 100)
                    (-30) [ broken_planet ])
  | _ => None
  end.

Definition broken_game : Game.t :=
  Game.mk (Game.mkCanvas 800 600) 0%Z banner0
          (Game.mkButton "" Game.RetryLevel) 1%Z false None None
          (Ship.constructor 0 0) [] (Goal.constructor 0 0 0) IDLE
          broken_levels 0 0%Z.

(** The games those events lead to, evaluated. *)
Definition dragging_game : Game.t :=
  Eval vm_compute in
    match play drag_events with Some g => g | None => broken_game end.

Definition flying_game : Game.t :=
  Eval vm_compute in
    match play flight_events with Some g => g | None => broken_game end.

Definition ended_game : Game.t :=
  Eval vm_compute in
    match play crash_events with Some g => g | None => broken_game end.

(** [flying_game] when its eighth frame has moved the ship and is about to
    call [checkCollisions]. *)
Definition moved_game : Game.t :=
  let g := Game.set_lastTime 1128 flying_game in
  let g := Game.set_frameCount (JS.incr (Game.frameCount g)) g in
  Game.set_ship
    (Ship.update ((1128 - Game.lastTime flying_game) / 1000 * 20)
                 (Game.planets g) (Game.frameCount g) (Game.ship g)) g.

Definition is_mouse (ev : Game.Event) : bool :=
  match ev with
  | Game.MouseDown _ _ | Game.MouseMove _ _ | Game.MouseUp => true
  | _ => false
  end.

(** A vector neither component of which is [-0]. *)
Definition no_neg_zero (v : Vector2.t) : Prop :=
  Vector2.x v <> (-0) /\ Vector2.y v <> (-0).

(** ** Further observations: what [initLevel] installs, and what every page keeps *)

(** The assignments of [initLevel] from line 271 on, for the level number
    and the configuration it settled on. *)
Definition installed (levelNum : Z) (config : Game.LevelConfig) (g : Game.t)
  : Game.t :=
  let g := Game.set_state IDLE g in
  let g :=
    Game.set_uiMessages
      (Game.mkMessages (Game.msg_innerText (Game.uiMessages g))
                       (Game.msg_color (Game.uiMessages g)) true) g in
  let g := Game.set_uiStage levelNum g in
  let g := Game.set_retryBtn (Game.mkButton "RETRY" Game.RetryLevel) g in
  let g :=
    Game.set_ship (Ship.constructor (Vector2.x (Game.cfg_ship config))
                                    (Vector2.y (Game.cfg_ship config))) g in
  let g := Game.set_planets (Game.cfg_planets config) g in
  Game.set_goal (Goal.constructor (Vector2.x (Game.cfg_goal_pos config))
                                  (Vector2.y (Game.cfg_goal_pos config))
                                  (Game.cfg_goal_r config)) g.

(** The configuration of a level of the constructor's table in the canvas
    of [g]; level 1 for a number the table does not have. *)
Definition builtin_config (levelNum : Z) (g : Game.t) : Game.LevelConfig :=
  match Game.builtin_levels levelNum with
  | Some level => level (Game.width (Game.canvas g)) (Game.height (Game.canvas g))
  | None =>
      Game.mkConfig (Vector2.new 100 (Game.height (Game.canvas g) - 100))
                    (Vector2.new (Game.width (Game.canvas g) - 100) 100) 30
                    [ Planet.constructor (Game.width (Game.canvas g) / 2)
                                         (Game.height (Game.canvas g) / 2)
                                         40 5000 300 ]
  end.

(** A game that ended with the banner of [gameWin] still on. *)
Definition won (g : Game.t) : bool :=
  GAME_STATE_eqb (Game.state g) ENDED
  && String.eqb (Game.msg_innerText (Game.uiMessages g)) "COURSE CLEAR!".

(** The level after [n] in the table of the constructor. *)
Definition next_level (n : Z) : Z :=
  match Game.builtin_levels (n + 1)%Z with
  | Some _ => (n + 1)%Z
  | None => 1%Z
  end.

(** What the page shows agrees with the state of the game. *)
Definition page_inv (g : Game.t) : Prop :=
  Game.levels g = Game.builtin_levels
  /\ (1 <= Game.currentLevel g <= 3)%Z
  /\ Game.uiStage g = Game.currentLevel g
  /\ Game.msg_hidden (Game.uiMessages g)
     = negb (GAME_STATE_eqb (Game.state g) ENDED)
  /\ (Game.state g <> ENDED ->
      Game.retryBtn g = Game.mkButton "RETRY" Game.RetryLevel)
  /\ (Game.state g = ENDED ->
      (Game.uiMessages g = Game.mkMessages "COURSE CLEAR!" "#4cc9f0" false
       /\ Game.retryBtn g = Game.mkButton "NEXT LEVEL" Game.NextLevel)
      \/ ((Game.uiMessages g = Game.mkMessages "CRASHED!" "#ef233c" false
           \/ Game.uiMessages g = Game.mkMessages "LOST IN SPACE" "#ef233c" false)
          /\ (Game.retryBtn g = Game.mkButton "RETRY" Game.RetryLevel
              \/ Game.retryBtn g = Game.mkButton "NEXT LEVEL" Game.NextLevel))).

(** What every ship of a page keeps. *)
Definition ship_inv (g : Game.t) : Prop :=
  Ship.radius (Game.ship g) = 8
  /\ Ship.color (Game.ship g) = "#ffffff"%string
  /\ Ship.maxTrailLength (Game.ship g) = 20%nat
  /\ (List.length (Ship.trail (Game.ship g)) <= 20)%nat
  /\ (Game.state g = IDLE ->
      Ship.vel (Game.ship g) = Vector2.new 0 0
      /\ Ship.acc (Game.ship g) = Vector2.new 0 0
      /\ Ship.trail (Game.ship g) = []).

(** Events other than a click on the retry button. *)
Definition not_retry (ev : Game.Event) : bool :=
  match ev with
  | Game.RetryClick => false
  | _ => true
  end.

(** Events that can come between the press and the release of a drag
    without ending it: moves, frames, resizes. *)
Definition during_drag (ev : Game.Event) : bool :=
  match ev with
  | Game.MouseMove _ _ | Game.Frame _ | Game.Resize _ _ => true
  | _ => false
  end.

(** The last position the mouse moved to, from [p] on. *)
Fixpoint last_move (evs : list Game.Event) (p : Vector2.t) : Vector2.t :=
  match evs with
  | [] => p
  | Game.MouseMove rect e :: evs' => last_move evs' (Game.getMousePos rect e)
  | _ :: evs' => last_move evs' p
  end.

(** [dragging_game] after the release. *)
Definition launched_game : Game.t :=
  Eval vm_compute in
    match Game.handle Game.MouseUp dragging_game with
    | Some g => g
    | None => broken_game
    end.

(** Level 1 in a window of 800 by 600, won: a drag from [(500, 100)] to
    [(100, 500)], release, and twelve frames 16 ms apart. *)
Definition win_events : list Game.Event :=
  [ Game.Frame 1000;
    Game.MouseDown rect0 (Game.mkMouse 500 100);
    Game.MouseMove rect0 (Game.mkMouse 100 500);
    Game.MouseUp;
    Game.Frame 1016; Game.Frame 1032; Game.Frame 1048; Game.Frame 1064;
    Game.Frame 1080; Game.Frame 1096; Game.Frame 1112; Game.Frame 1128;
    Game.Frame 1144; Game.Frame 1160; Game.Frame 1176; Game.Frame 1192 ].

Definition won_game : Game.t :=
  Eval vm_compute in
    match (g0 <- Game.constructor 800 600 banner0 ;; Game.run win_events g0) with
    | Some g => g
    | None => broken_game
    end.

(** Frames at which the scaled delta of [update] is exactly 1, from a
    last frame at [lastTime] on. *)
Fixpoint unit_frames (lastTime : float) (timestamps : list float) : Prop :=
  match timestamps with
  | [] => True
  | ts :: rest => (ts - lastTime) / 1000 * 20 = 1 /\ unit_frames ts rest
  end.

(** ** Facts of binary64 arithmetic

    Read off the specification of the primitive operations
    ([add_spec], [ltb_spec], ...).  The sign of zero is the one place where
    adding [0] is not the identity: [-0 + 0] is [+0]. *)
Module FloatFacts.
Local Open Scope Z_scope.

Lemma digits2_pos_size (p : positive) : digits2_pos p = Pos.size p.
Proof. induction p; simpl; congruence. Qed.

Lemma digits2_pos_lower (p : positive) :
  2 ^ (Zpos (digits2_pos p) - 1) <= Zpos p.
Proof.
  rewrite digits2_pos_size.
  pose proof (Pos.size_le p) as H.
  assert (H' : 2 ^ Zpos (Pos.size p) <= 2 * Zpos p).
  { change (2 * Zpos p) with (Zpos (p~0)). rewrite <- Pos2Z.inj_pow. exact H. }
  replace (Zpos (Pos.size p)) with (Zpos (Pos.size p) - 1 + 1) in H' by lia.
  rewrite Z.pow_add_r in H' by lia. lia.
Qed.

Lemma shr_1_m (mrs : shr_record) :
  0 <= shr_m mrs -> shr_m (shr_1 mrs) = Z.div2 (shr_m mrs).
Proof.
  destruct mrs as [m r s]; simpl.
  destruct m as [|[p|p|]|p]; simpl; try reflexivity; lia.
Qed.

Lemma iter_shr_1_m (p : positive) : forall mrs,
  0 <= shr_m mrs ->
  shr_m (SpecFloat.iter_pos shr_1 p mrs) = Z.shiftr (shr_m mrs) (Zpos p).
Proof.
  induction p as [p IH|p IH|]; intros mrs Hm; simpl.
  - assert (H1 : 0 <= shr_m (shr_1 mrs)).
    { rewrite shr_1_m by assumption. apply Z.div2_nonneg. assumption. }
    assert (H2 : 0 <= shr_m (SpecFloat.iter_pos shr_1 p (shr_1 mrs))).
    { rewrite IH by assumption. apply Z.shiftr_nonneg. assumption. }
    rewrite IH, IH, shr_1_m by assumption.
    rewrite Z.div2_spec, !Z.shiftr_shiftr by lia.
    f_equal. lia.
  - assert (H2 : 0 <= shr_m (SpecFloat.iter_pos shr_1 p mrs)).
    { rewrite IH by assumption. apply Z.shiftr_nonneg. assumption. }
    rewrite IH, IH by assumption.
    rewrite Z.shiftr_shiftr by lia. f_equal. lia.
  - rewrite shr_1_m by assumption. apply Z.div2_spec.
Qed.

Section Round.
Variables prec emax : Z.
Hypothesis prec_pos : 0 < prec.

(** Shifting a positive mantissa to its canonical exponent keeps it positive,
    as long as the exponent is not below [emin]. *)
Lemma shr_fexp_pos (m : positive) (e : Z) (l : location) :
  SpecFloat.emin prec emax <= e ->
  0 < shr_m (fst (shr_fexp prec emax (Zpos m) e l)) /\
  SpecFloat.emin prec emax <= snd (shr_fexp prec emax (Zpos m) e l).
Proof.
  intros He. unfold shr_fexp, shr, Zdigits2.
  set (d := Zpos (digits2_pos m)).
  assert (Hn : fexp prec emax (d + e) - e <= d - prec \/ fexp prec emax (d + e) - e <= 0).
  { unfold fexp. lia. }
  destruct (fexp prec emax (d + e) - e) as [|n|n] eqn:En; simpl.
  - split; [destruct l as [|[]]; simpl; lia | assumption].
  - split; [|lia].
    rewrite iter_shr_1_m by (destruct l as [|[]]; simpl; lia).
    replace (shr_m (shr_record_of_loc (Zpos m) l)) with (Zpos m)
      by (destruct l as [|[]]; reflexivity).
    rewrite Z.shiftr_div_pow2 by lia.
    assert (Hlow := digits2_pos_lower m). fold d in Hlow.
    assert (Hle : 2 ^ Zpos n <= 2 ^ (d - 1)) by (apply Z.pow_le_mono_r; lia).
    assert (Hp : 0 < 2 ^ Zpos n) by (apply Z.pow_pos_nonneg; lia).
    apply Z.div_str_pos. lia.
  - split; [destruct l as [|[]]; simpl; lia | assumption].
Qed.

Lemma binary_round_aux_nonzero (sx s : bool) (m : positive) (e : Z) (l : location) :
  SpecFloat.emin prec emax <= e ->
  binary_round_aux prec emax sx (Zpos m) e l <> S754_zero s.
Proof.
  intros He. unfold binary_round_aux.
  destruct (shr_fexp_pos m e l He) as [Hm1 He1].
  destruct (shr_fexp prec emax (Zpos m) e l) as [mrs' e'] eqn:E1.
  simpl in Hm1, He1.
  assert (Hr : 0 < round_nearest_even (shr_m mrs') (loc_of_shr_record mrs')).
  { unfold round_nearest_even.
    destruct (loc_of_shr_record mrs') as [|[]]; try destruct (Z.even _); lia. }
  destruct (round_nearest_even (shr_m mrs') (loc_of_shr_record mrs')) as [|m1|m1];
    try lia.
  destruct (shr_fexp_pos m1 e' loc_Exact He1) as [Hm2 _].
  destruct (shr_fexp prec emax (Zpos m1) e' loc_Exact) as [mrs'' e''].
  simpl in Hm2.
  destruct (shr_m mrs''); try lia.
  destruct (e'' <=? emax - prec); discriminate.
Qed.

Lemma binary_round_aux_zero_sign (sx s : bool) (m e : Z) (l : location) :
  binary_round_aux prec emax sx m e l = S754_zero s -> s = sx.
Proof.
  unfold binary_round_aux.
  destruct (shr_fexp prec emax m e l) as [mrs' e'].
  destruct (shr_fexp prec emax _ e' loc_Exact) as [mrs'' e''].
  destruct (shr_m mrs''); try discriminate.
  - congruence.
  - destruct (e'' <=? emax - prec); discriminate.
Qed.

Lemma binary_normalize_not_neg_zero (m e : Z) :
  SpecFloat.emin prec emax <= e ->
  binary_normalize prec emax m e false <> S754_zero true.
Proof.
  intros He. unfold binary_normalize, binary_round.
  destruct m as [|m|m].
  - discriminate.
  - destruct (shl_align m e _) as [mz ez].
    intro H. apply binary_round_aux_zero_sign in H. discriminate.
  - destruct (shl_align m e (fexp prec emax (Zpos (digits2_pos m) + e))) as [mz ez] eqn:Es.
    apply binary_round_aux_nonzero.
    unfold shl_align in Es.
    destruct (fexp prec emax (Zpos (digits2_pos m) + e) - e) eqn:Ed;
      injection Es as <- <-; try assumption.
    unfold fexp. lia.
Qed.

Lemma valid_finite_emin (s : bool) (m : positive) (e : Z) :
  SpecFloat.valid_binary prec emax (S754_finite s m e) = true -> SpecFloat.emin prec emax <= e.
Proof.
  simpl. unfold bounded, canonical_mantissa, fexp.
  intros H. apply andb_prop in H. destruct H as [H _].
  apply Z.eqb_eq in H. lia.
Qed.

Lemma SFadd_not_neg_zero (x y : spec_float) :
  SpecFloat.valid_binary prec emax x = true -> SpecFloat.valid_binary prec emax y = true ->
  x <> S754_zero true -> SFadd prec emax x y <> S754_zero true.
Proof.
  intros Vx Vy Hx.
  destruct x as [[]| sx | |sx mx ex]; destruct y as [[]| sy | |sy my ey];
    simpl; try discriminate; try congruence;
    try (destruct sx; discriminate); try (destruct sy; discriminate);
    try (destruct sx, sy; discriminate).
  apply binary_normalize_not_neg_zero.
  apply valid_finite_emin in Vx, Vy. lia.
Qed.

End Round.
End FloatFacts.

Module Float64.
Local Open Scope float_scope.

Lemma Prim2SF_neg_zero (x : float) : Prim2SF x = S754_zero true -> x = (-0).
Proof.
  intros H. apply Prim2SF_inj. rewrite H. reflexivity.
Qed.

Lemma Prim2SF_pos_zero (x : float) : Prim2SF x = S754_zero false -> x = 0.
Proof.
  intros H. apply Prim2SF_inj. rewrite H. reflexivity.
Qed.

(** Adding [0] changes nothing but the sign of [-0]. *)
Lemma add_0_r (x : float) : x <> (-0) -> x + 0 = x.
Proof.
  intros Hx. apply Prim2SF_inj. rewrite add_spec.
  change (Prim2SF 0) with (S754_zero false).
  unfold SF64add, SFadd.
  destruct (Prim2SF x) as [[]|s| |s m e] eqn:E; try reflexivity.
  elim Hx. apply Prim2SF_neg_zero. exact E.
Qed.

(** A sum is [-0] only if its first term is. *)
Lemma add_not_neg_zero (x y : float) : x <> (-0) -> x + y <> (-0).
Proof.
  intros Hx H.
  apply (f_equal Prim2SF) in H. rewrite add_spec in H.
  change (Prim2SF (-0)) with (S754_zero true) in H.
  revert H. apply FloatFacts.SFadd_not_neg_zero.
  - reflexivity.
  - apply Prim2SF_valid.
  - apply Prim2SF_valid.
  - intro E. apply Hx. apply Prim2SF_neg_zero. exact E.
Qed.

(** Comparisons do not see the sign of zero, and no number is below
    itself. *)
Lemma ltb_neg_zero_r (x : float) : (x <? - 0) = (x <? 0).
Proof.
  rewrite !ltb_spec.
  change (Prim2SF (- 0)) with (S754_zero true).
  change (Prim2SF 0) with (S754_zero false).
  destruct (Prim2SF x) as [s|s| |s m e]; reflexivity.
Qed.

Lemma ltb_add_0_l (w x : float) : (w + 0 <? x) = (w <? x).
Proof.
  rewrite !ltb_spec, add_spec.
  change (Prim2SF 0) with (S754_zero false).
  unfold SF64add, SFadd.
  destruct (Prim2SF w) as [[]|[]| |s m e]; try reflexivity;
    destruct (Prim2SF x) as [s'|s'| |s' m' e']; reflexivity.
Qed.

Lemma SFcompare_refl (x : spec_float) : SFcompare x x <> Some Lt.
Proof.
  destruct x as [s|[]| |[] m e]; simpl; try discriminate;
    rewrite Z.compare_refl, Pos.compare_cont_refl; discriminate.
Qed.

Lemma ltb_irrefl (x : float) : (x <? x) = false.
Proof.
  rewrite ltb_spec. unfold SFltb.
  pose proof (SFcompare_refl (Prim2SF x)) as H.
  destruct (SFcompare (Prim2SF x) (Prim2SF x)) as [[]|]; congruence.
Qed.

Lemma SFcompare_antisym (x y : spec_float) :
  SFcompare y x = option_map CompOpp (SFcompare x y).
Proof.
  destruct x as [sx|sx| |sx mx ex]; destruct y as [sy|sy| |sy my ey];
    simpl; try reflexivity;
    try (destruct sx; reflexivity); try (destruct sy; reflexivity);
    try (destruct sx, sy; reflexivity).
  f_equal.
  destruct sx, sy; try reflexivity;
    rewrite (Z.compare_antisym ex ey);
    destruct (ex ?= ey)%Z; simpl; try reflexivity;
    rewrite (Pos.compare_cont_antisym mx my Eq); reflexivity.
Qed.

(** [y <= x] excludes [x < y]. *)
Lemma leb_not_ltb (x y : float) : (y <=? x) = true -> (x <? y) = false.
Proof.
  rewrite leb_spec, ltb_spec. unfold SFleb, SFltb.
  rewrite (SFcompare_antisym (Prim2SF x) (Prim2SF y)).
  destruct (SFcompare (Prim2SF x) (Prim2SF y)) as [[]|]; simpl;
    congruence.
Qed.

(** The two zeros are the only numbers [===] to [0]. *)
Lemma eqb_zero_inv (x : float) : (x =? 0) = true -> x = 0 \/ x = (-0).
Proof.
  rewrite FloatAxioms.eqb_spec. unfold SFeqb.
  change (Prim2SF 0) with (S754_zero false).
  destruct (Prim2SF x) as [[]|[]| |[] m e] eqn:E; simpl; try discriminate;
    intros _.
  - right. apply Prim2SF_neg_zero. exact E.
  - left. apply Prim2SF_pos_zero. exact E.
Qed.

End Float64.

(** ** The loops *)

Lemma vector_copy (v : Vector2.t) : Vector2.copy v = v.
Proof. destruct v; reflexivity. Qed.

(** The gravity loop of [Ship.update] leaves [acceleration] in [this.acc]
    and touches nothing else. *)
Lemma gravity_loop (planets : list Planet.t) : forall (s : Ship.t) (a : Vector2.t),
  JS.for_of
    (fun planet this =>
       let dir := Vector2.sub (Planet.pos planet) (Ship.pos this) in
       let d := Vector2.mag dir in
       let epsilon := 5.0 in
       if d <? Planet.influenceRadius planet then
         let strength := Planet.gravity planet / (d + epsilon) in
         let force := Vector2.mult (Vector2.normalize dir) strength in
         JS.Normal (Ship.applyForce force this)
       else JS.Normal this)
    planets (Ship.set_acc a s)
  = Ship.set_acc (fold_left (accumulate (Ship.pos s)) planets a) s.
Proof.
  induction planets as [|p planets IH]; intros s a; simpl.
  - reflexivity.
  - unfold accumulate at 2.
    destruct (Vector2.mag (Vector2.sub (Planet.pos p) (Ship.pos s))
              <? Planet.influenceRadius p).
    + apply (IH s).
    + apply IH.
Qed.

Lemma gravity_acceleration (planets : list Planet.t) (s : Ship.t) :
  Ship.gravity planets s
  = Ship.set_acc (acceleration (Ship.pos s) planets) s.
Proof. unfold Ship.gravity. apply gravity_loop. Qed.

(** The same loop inside [drawTrajectory]. *)
Lemma predict_gravity_loop (planets : list Planet.t) :
  forall (pos vel a : Vector2.t) (ops : list Game.CtxOp),
  JS.for_of
    (fun planet st =>
       let dir := Vector2.sub (Planet.pos planet) (Game.simPos st) in
       let d := Vector2.mag dir in
       let epsilon := 5.0 in
       if d <? Planet.influenceRadius planet then
         let strength := Planet.gravity planet / (d + epsilon) in
         let force := Vector2.mult (Vector2.normalize dir) strength in
         JS.Normal (Game.mkSim (Game.simPos st) (Game.simVel st)
                               (Vector2.add (Game.simAcc st) force)
                               (Game.ctx st))
       else JS.Normal st)
    planets (Game.mkSim pos vel a ops)
  = Game.mkSim pos vel (fold_left (accumulate pos) planets a) ops.
Proof.
  induction planets as [|p planets IH]; intros pos vel a ops; simpl.
  - reflexivity.
  - unfold accumulate at 2.
    destruct (Vector2.mag (Vector2.sub (Planet.pos p) pos)
              <? Planet.influenceRadius p); apply IH.
Qed.

(** The scan for a future collision: its [break] ends the scan, and the
    state it leaves is the state it found. *)
Lemma collision_scan (planets : list Planet.t) (st : Game.Sim) :
  JS.for_of
    (fun p st =>
       if Vector2.dist (Game.simPos st) (Planet.pos p) <? Planet.radius p
       then JS.Break st
       else JS.Normal st)
    planets st
  = st.
Proof.
  induction planets as [|p planets IH]; simpl.
  - reflexivity.
  - destruct (Vector2.dist (Game.simPos st) (Planet.pos p) <? Planet.radius p).
    + reflexivity.
    + exact IH.
Qed.

(** One iteration of the prediction loop, in closed form. *)
Lemma predictBody_eq (planets : list Planet.t) (simDt : float) (i : nat)
      (st : Game.Sim) :
  let acc := acceleration (Game.simPos st) planets in
  let vel := Vector2.add (Game.simVel st) (Vector2.mult acc simDt) in
  let pos := Vector2.add (Game.simPos st) (Vector2.mult vel simDt) in
  Game.predictBody planets simDt i st
  = JS.Normal (Game.mkSim pos vel acc (Game.ctx st ++ [lineTo pos])).
Proof.
  unfold Game.predictBody. cbv zeta.
  rewrite predict_gravity_loop. cbn [Game.simPos Game.simVel Game.simAcc Game.ctx].
  rewrite collision_scan. reflexivity.
Qed.

(** One call of [Ship.update], in closed form. *)
Lemma update_pos_vel (dt : float) (planets : list Planet.t) (frameCount : Z)
      (s : Ship.t) :
  let acc := acceleration (Ship.pos s) planets in
  let vel := Vector2.add (Ship.vel s) (Vector2.mult acc dt) in
  let pos := Vector2.add (Ship.pos s) (Vector2.mult vel dt) in
  Ship.pos (Ship.update dt planets frameCount s) = pos
  /\ Ship.vel (Ship.update dt planets frameCount s) = vel
  /\ Ship.acc (Ship.update dt planets frameCount s) = acc.
Proof.
  unfold Ship.update. rewrite gravity_acceleration.
  unfold Ship.trailEffect.
  destruct (Z.rem frameCount 5 =? 0)%Z; [|repeat split].
  cbv zeta.
  match goal with |- context [if ?c then _ else _] => destruct c end;
    repeat split.
Qed.

Lemma lineTos_app (l1 l2 : list Game.CtxOp) :
  lineTos (l1 ++ l2) = lineTos l1 ++ lineTos l2.
Proof.
  induction l1 as [|op l1 IH]; simpl.
  - reflexivity.
  - destruct op; simpl; rewrite IH; reflexivity.
Qed.

Lemma lineTos_map (ps : list Vector2.t) : lineTos (map lineTo ps) = ps.
Proof.
  induction ps as [|[x y] ps IH]; simpl; [|rewrite IH]; reflexivity.
Qed.

Lemma last_cons {A : Type} (l : list A) : forall a d : A,
  last (a :: l) d = last l a.
Proof.
  induction l as [|b l IH]; intros a d.
  - reflexivity.
  - change (last (b :: l) d = last (b :: l) a). rewrite !IH. reflexivity.
Qed.

(** The prediction loop against live flight: from the same position and
    velocity, [n] iterations append the positions of [n] live steps to the
    path and end in the position and velocity live flight ends in. *)
Lemma predict_live (planets : list Planet.t) (dt : float) (n : nat) :
  forall (i : nat) (frameCount : Z) (s : Ship.t) (a : Vector2.t)
         (ops : list Game.CtxOp),
  let st := JS.for_lt (Game.predictBody planets dt) i n
                      (Game.mkSim (Ship.pos s) (Ship.vel s) a ops) in
  let flight := live n dt planets frameCount s in
  Game.ctx st = ops ++ map lineTo (map Ship.pos flight)
  /\ Game.simPos st = Ship.pos (last flight s)
  /\ Game.simVel st = Ship.vel (last flight s).
Proof.
  induction n as [|n IH]; intros i frameCount s a ops; cbv zeta.
  - simpl. rewrite app_nil_r. repeat split.
  - cbn [JS.for_lt live]. rewrite predictBody_eq. cbv zeta.
    cbn [Game.simPos Game.simVel Game.ctx].
    destruct (update_pos_vel dt planets frameCount s) as (Hp & Hv & _).
    cbv zeta in Hp, Hv. rewrite <- Hp, <- Hv.
    destruct (IH (S i) (JS.incr frameCount) (Ship.update dt planets frameCount s)
                 (acceleration (Ship.pos s) planets)
                 (ops ++ [lineTo (Ship.pos (Ship.update dt planets frameCount s))]))
      as (Hc & Hq & Hw).
    cbv zeta in Hc, Hq, Hw. rewrite Hc, Hq, Hw.
    rewrite last_cons, <- app_assoc. repeat split.
Qed.

Lemma live_length (n : nat) : forall dt planets frameCount s,
  List.length (live n dt planets frameCount s) = n.
Proof.
  induction n as [|n IH]; intros; simpl; [|rewrite IH]; reflexivity.
Qed.

(** The positions of live flight depend on the position and velocity it
    starts from only: not on the frame counter, the trail or the rest of the
    ship. *)
Lemma live_positions (n : nat) (dt : float) (planets : list Planet.t) :
  forall (f1 f2 : Z) (s1 s2 : Ship.t),
    Ship.pos s1 = Ship.pos s2 -> Ship.vel s1 = Ship.vel s2 ->
    map Ship.pos (live n dt planets f1 s1)
    = map Ship.pos (live n dt planets f2 s2).
Proof.
  induction n as [|n IH]; intros f1 f2 s1 s2 Hp Hv.
  - reflexivity.
  - cbn [live map].
    destruct (update_pos_vel dt planets f1 s1) as (Hp1 & Hv1 & _).
    destruct (update_pos_vel dt planets f2 s2) as (Hp2 & Hv2 & _).
    cbv zeta in Hp1, Hv1, Hp2, Hv2.
    rewrite Hp, Hv in Hp1. rewrite Hp, Hv in Hv1.
    f_equal.
    + congruence.
    + apply IH; congruence.
Qed.

(** ** [checkCollisions] and the state machine *)

(** The planets loop calls [gameLoss("CRASHED!")] once for every planet hit,
    which comes to one call when any is hit. *)
Lemma planets_loop (ps : list Planet.t) : forall g : Game.t,
  JS.for_of
    (fun p this =>
       if Vector2.dist (Ship.pos (Game.ship this)) (Planet.pos p)
          <? Planet.radius p + Ship.radius (Game.ship this)
       then JS.Normal (Game.gameLoss "CRASHED!" this)
       else JS.Normal this)
    ps g
  = if existsb (hits g) ps then Game.gameLoss "CRASHED!" g else g.
Proof.
  induction ps as [|p ps IH]; intros g.
  - reflexivity.
  - cbn [JS.for_of existsb]. fold (hits g p).
    destruct (hits g p).
    + rewrite IH.
      change (existsb (hits (Game.gameLoss "CRASHED!" g)) ps)
        with (existsb (hits g) ps).
      destruct (existsb (hits g) ps); reflexivity.
    + apply IH.
Qed.

(** [checkCollisions] runs its three tests one after the other, each on the
    same ship, and none stops the next. *)
Lemma checkCollisions_eq (g : Game.t) :
  Game.checkCollisions g
  = let g1 := if goalReached g then Game.gameWin g else g in
    let g2 := if planetHit g then Game.gameLoss "CRASHED!" g1 else g1 in
    if outOfBounds g then Game.gameLoss "LOST IN SPACE" g2 else g2.
Proof.
  unfold Game.checkCollisions. cbv zeta. fold (goalReached g).
  rewrite planets_loop.
  destruct (goalReached g).
  - change (existsb (hits (Game.gameWin g)) (Game.planets (Game.gameWin g)))
      with (planetHit g).
    destruct (planetHit g); reflexivity.
  - fold (planetHit g). destruct (planetHit g); reflexivity.
Qed.

(** With margin [0] the bounds test is four strict comparisons with the
    sides of the canvas. *)
Lemma outOfBounds_eq (g : Game.t) :
  outOfBounds g
  = (Vector2.x (Ship.pos (Game.ship g)) <? 0)
    || (Game.width (Game.canvas g) <? Vector2.x (Ship.pos (Game.ship g)))
    || (Vector2.y (Ship.pos (Game.ship g)) <? 0)
    || (Game.height (Game.canvas g) <? Vector2.y (Ship.pos (Game.ship g))).
Proof.
  unfold outOfBounds. cbv zeta.
  rewrite !Float64.ltb_neg_zero_r, !Float64.ltb_add_0_l. reflexivity.
Qed.

(** What [checkCollisions] and [update] leave alone. *)
Lemma checkCollisions_frame (g : Game.t) :
  Game.ship (Game.checkCollisions g) = Game.ship g
  /\ Game.isDragging (Game.checkCollisions g) = Game.isDragging g
  /\ Game.dragStart (Game.checkCollisions g) = Game.dragStart g
  /\ Game.dragCurrent (Game.checkCollisions g) = Game.dragCurrent g
  /\ (Game.state (Game.checkCollisions g) = Game.state g
      \/ Game.state (Game.checkCollisions g) = ENDED).
Proof.
  rewrite checkCollisions_eq. cbv zeta.
  destruct (goalReached g), (planetHit g), (outOfBounds g);
    repeat split; auto.
Qed.

Lemma update_not_flying (dt : float) (g : Game.t) :
  Game.state g <> FLYING ->
  Game.update dt g = Game.set_frameCount (JS.incr (Game.frameCount g)) g.
Proof.
  intros H. unfold Game.update. cbv zeta.
  change (Game.state (Game.set_frameCount (JS.incr (Game.frameCount g)) g))
    with (Game.state g).
  destruct (Game.state g); try reflexivity. congruence.
Qed.

Lemma update_frame (dt : float) (g : Game.t) :
  Game.isDragging (Game.update dt g) = Game.isDragging g
  /\ Game.dragStart (Game.update dt g) = Game.dragStart g
  /\ Game.dragCurrent (Game.update dt g) = Game.dragCurrent g
  /\ (Game.state (Game.update dt g) = Game.state g
      \/ Game.state g = FLYING).
Proof.
  unfold Game.update. cbv zeta.
  change (Game.state (Game.set_frameCount (JS.incr (Game.frameCount g)) g))
    with (Game.state g).
  destruct (Game.state g) eqn:E; cbn [GAME_STATE_eqb];
    try (repeat split; auto; fail).
  match goal with |- context [Game.checkCollisions ?h] =>
    destruct (checkCollisions_frame h) as (_ & H1 & H2 & H3 & _) end.
  rewrite H1, H2, H3. repeat split; auto.
Qed.

Lemma initLevel_frame (levelNum : Z) (g g' : Game.t) :
  Game.initLevel levelNum g = Some g' ->
  Game.state g' = IDLE
  /\ Game.isDragging g' = Game.isDragging g
  /\ Game.dragStart g' = Game.dragStart g
  /\ Game.dragCurrent g' = Game.dragCurrent g.
Proof.
  unfold Game.initLevel.
  destruct (Game.levels g levelNum) as [level|] eqn:E.
  - rewrite E. cbn [JS.bind]. intros H. injection H as <-. repeat split.
  - change (Game.levels (Game.set_currentLevel 1%Z g) 1%Z)
      with (Game.levels g 1%Z).
    destruct (Game.levels g 1%Z) as [level|]; cbn [JS.bind].
    + intros H. injection H as <-. repeat split.
    + discriminate.
Qed.

(** While a drag is in progress the preview can be drawn. *)
Lemma drawTrajectory_some (g : Game.t) :
  Game.dragStart g <> None -> Game.dragCurrent g <> None ->
  exists ops, Game.drawTrajectory g = Some ops.
Proof.
  intros Ha Hb. unfold Game.drawTrajectory.
  destruct (Game.dragStart g) as [a|]; [|congruence].
  destruct (Game.dragCurrent g) as [b|]; [|congruence].
  cbn [JS.bind]. eexists. reflexivity.
Qed.

Lemma draw_some (g : Game.t) :
  drag_inv g ->
  exists ops, Game.draw g = Some (ops, Game.set_goal (Goal.draw (Game.goal g)) g).
Proof.
  intros Hinv. unfold Game.draw. cbv zeta.
  destruct (GAME_STATE_eqb (Game.state g) IDLE && Game.isDragging g) eqn:E.
  - apply andb_prop in E. destruct E as [_ E].
    destruct (Hinv E) as (_ & Ha & Hb).
    destruct (drawTrajectory_some g Ha Hb) as [ops ->].
    cbn [JS.bind]. eexists. reflexivity.
  - cbn [JS.bind]. eexists. reflexivity.
Qed.

Lemma loop_some (timestamp : float) (g : Game.t) :
  drag_inv g ->
  exists ops,
    Game.loop timestamp g
    = Some (ops,
            let g1 := Game.update ((timestamp - Game.lastTime g) / 1000)
                                  (Game.set_lastTime timestamp g) in
            Game.set_goal (Goal.draw (Game.goal g1)) g1).
Proof.
  intros Hinv. unfold Game.loop. cbv zeta.
  apply draw_some.
  intros Hd.
  match goal with |- context [Game.update ?dt ?h] =>
    destruct (update_frame dt h) as (H1 & H2 & H3 & H4) end.
  rewrite H1 in Hd. cbn in Hd. destruct (Hinv Hd) as (Hs & Ha & Hb).
  rewrite H2, H3. cbn [Game.dragStart Game.dragCurrent Game.set_lastTime].
  repeat split; try assumption.
  destruct H4 as [H4|H4].
  - rewrite H4. exact Hs.
  - cbn in H4. congruence.
Qed.

(** The invariant of the drag holds of every game a page can be in. *)
Lemma handle_drag_inv (ev : Game.Event) (g g' : Game.t) :
  drag_inv g -> Game.handle ev g = Some g' -> drag_inv g'.
Proof.
  intros Hinv. destruct ev as [ts|rect e|rect e| | |w h]; cbn [Game.handle].
  - destruct (loop_some ts g Hinv) as [ops ->]. cbn [JS.bind snd]. cbv zeta.
    intros H. injection H as <-. intros Hd.
    match goal with |- context [Game.update ?dt ?h] =>
      destruct (update_frame dt h) as (H1 & H2 & H3 & H4) end.
    cbn in Hd. rewrite H1 in Hd. cbn in Hd. destruct (Hinv Hd) as (Hs & Ha & Hb).
    cbn. rewrite H2, H3. cbn. repeat split; try assumption.
    destruct H4 as [H4|H4]; [rewrite H4; exact Hs | cbn in H4; congruence].
  - intros H. injection H as <-. unfold Game.onMouseDown.
    destruct (Game.state g) eqn:E; cbn [GAME_STATE_eqb negb];
      try exact Hinv.
    intros _. cbn. rewrite E. repeat split; discriminate.
  - intros H. injection H as <-. unfold Game.onMouseMove.
    destruct (Game.isDragging g) eqn:E; cbn [negb]; [|exact Hinv].
    intros _. destruct (Hinv E) as (Hs & Ha & _).
    cbn. repeat split; try assumption. discriminate.
  - unfold Game.onMouseUp.
    destruct (Game.isDragging g) eqn:E; cbn [negb].
    + cbn [Game.dragStart Game.dragCurrent Game.set_isDragging].
      destruct (Game.dragStart g); [|discriminate].
      destruct (Game.dragCurrent g); [|discriminate].
      cbn [JS.bind]. intros H. injection H as <-. intros Hd. discriminate Hd.
    + intros H. injection H as <-. exact Hinv.
  - unfold Game.retryBtn_click.
    assert (Hinit : forall n h h', drag_inv h -> Game.initLevel n h = Some h' -> drag_inv h').
    { intros n h h' Hh Hi Hd.
      destruct (initLevel_frame n h h' Hi) as (Hs & H1 & H2 & H3).
      rewrite H1 in Hd. destruct (Hh Hd) as (_ & Ha & Hb).
      rewrite H2, H3. repeat split; assumption. }
    match goal with |- context [if ?c then _ else _] => destruct c end.
    + destruct (Game.initLevel (Game.currentLevel g) g) as [g1|] eqn:E1;
        cbn [JS.bind]; [|discriminate].
      pose proof (Hinit _ _ _ Hinv E1) as Hinv1.
      destruct (Game.btn_onclick (Game.retryBtn g1)); intros H.
      * exact (Hinit _ _ _ Hinv1 H).
      * refine (Hinit _ _ _ _ H). exact Hinv1.
    + cbn [JS.bind].
      destruct (Game.btn_onclick (Game.retryBtn g)); intros H.
      * exact (Hinit _ _ _ Hinv H).
      * refine (Hinit _ _ _ _ H). exact Hinv.
  - intros H. injection H as <-. exact Hinv.
Qed.

Lemma run_drag_inv (evs : list Game.Event) : forall g g' : Game.t,
  drag_inv g -> Game.run evs g = Some g' -> drag_inv g'.
Proof.
  induction evs as [|ev evs IH]; intros g g' Hinv; cbn [Game.run].
  - intros H. injection H as <-. exact Hinv.
  - destruct (Game.handle ev g) as [g1|] eqn:E; cbn [JS.bind]; [|discriminate].
    apply IH. exact (handle_drag_inv ev g g1 Hinv E).
Qed.

Lemma reachable_drag_inv (g : Game.t) : Game.reachable g -> drag_inv g.
Proof.
  intros (w & h & banner & evs & H).
  destruct (Game.constructor w h banner) as [g0|] eqn:E; cbn [JS.bind] in H;
    [|discriminate].
  refine (run_drag_inv evs g0 g _ H).
  unfold Game.constructor in E. cbv zeta in E.
  match type of E with context [Game.initLevel ?n ?h] =>
    destruct (Game.initLevel n h) as [g1|] eqn:E1 end;
    cbn [JS.bind] in E; [|discriminate].
  injection E as <-.
  destruct (initLevel_frame _ _ _ E1) as (_ & Hd & _).
  intros H'. cbn in H'. rewrite Hd in H'. discriminate H'.
Qed.

(** ** The force field as a sum; two facts of [checkCollisions] and the mouse *)

Lemma vector_add_zero (v : Vector2.t) :
  no_neg_zero v -> Vector2.add v (Vector2.new 0 0) = v.
Proof.
  intros [Hx Hy]. destruct v as [x y]. unfold Vector2.add. simpl in *.
  rewrite !Float64.add_0_r by assumption. reflexivity.
Qed.

Lemma vector_add_no_neg_zero (v w : Vector2.t) :
  no_neg_zero v -> no_neg_zero (Vector2.add v w).
Proof.
  intros [Hx Hy]. split; simpl; apply Float64.add_not_neg_zero; assumption.
Qed.

(** The force of lines 53-54, computed with the methods of [Vector2], is
    the contribution of the body. *)
Lemma contribution_force (point : Vector2.t) (body : Planet.t) :
  let dir := Vector2.sub (Planet.pos body) point in
  let d := Vector2.mag dir in
  contribution point body
  = (if d <? Planet.influenceRadius body
     then Vector2.mult (Vector2.normalize dir) (Planet.gravity body / (d + 5.0))
     else Vector2.new 0 0).
Proof.
  unfold contribution, EPSILON, Vector2.normalize, Vector2.mag, Vector2.sub,
    Vector2.mult.
  cbn [Vector2.x Vector2.y]. cbv zeta.
  destruct (_ <? Planet.influenceRadius body); [|reflexivity].
  destruct (_ =? 0); reflexivity.
Qed.

(** Skipping a body out of range and adding its zero contribution come to
    the same, because the running sum never holds a [-0]. *)
Lemma accumulate_contribution (point : Vector2.t) (bodies : list Planet.t) :
  forall acc : Vector2.t,
    no_neg_zero acc ->
    fold_left (accumulate point) bodies acc
    = fold_left (fun sum c => Vector2.new (Vector2.x sum + Vector2.x c)
                                          (Vector2.y sum + Vector2.y c))
                (map (contribution point) bodies) acc.
Proof.
  induction bodies as [|b bodies IH]; intros acc Hacc; cbn [map fold_left].
  - reflexivity.
  - pose proof (contribution_force point b) as Hc. cbv zeta in Hc.
    rewrite Hc. unfold accumulate at 2. cbv zeta.
    destruct (Vector2.mag (Vector2.sub (Planet.pos b) point)
              <? Planet.influenceRadius b).
    + apply (IH (Vector2.add acc _)). apply vector_add_no_neg_zero. exact Hacc.
    + change (Vector2.new (Vector2.x acc + Vector2.x (Vector2.new 0 0))
                          (Vector2.y acc + Vector2.y (Vector2.new 0 0)))
        with (Vector2.add acc (Vector2.new 0 0)).
      rewrite vector_add_zero by exact Hacc. apply IH. exact Hacc.
Qed.

Lemma acceleration_netAcceleration (point : Vector2.t) (bodies : list Planet.t) :
  acceleration point bodies = netAcceleration point bodies.
Proof.
  apply accumulate_contribution. split; simpl; discriminate.
Qed.

(** A ship inside both thresholds and inside the canvas: the goal test calls
    [gameWin], and the planets loop then calls [gameLoss]. *)
Lemma both_goal_and_planet (g : Game.t) :
  goalReached g = true -> planetHit g = true -> outOfBounds g = false ->
  Game.checkCollisions g = Game.gameLoss "CRASHED!" (Game.gameWin g).
Proof.
  intros H1 H2 H3. rewrite checkCollisions_eq. cbv zeta.
  rewrite H1, H2, H3. reflexivity.
Qed.

(** Outside IDLE no drag is in progress, so every mouse handler returns at
    its guard. *)
Lemma mouse_ignored (g : Game.t) :
  drag_inv g -> Game.state g <> IDLE ->
  forall ev, is_mouse ev = true -> Game.handle ev g = Some g.
Proof.
  intros Hinv Hs ev Hev.
  assert (Hd : Game.isDragging g = false).
  { destruct (Game.isDragging g) eqn:E; [|reflexivity].
    destruct (Hinv E) as [H _]. congruence. }
  destruct ev; try discriminate; cbn [Game.handle].
  - unfold Game.onMouseDown.
    destruct (Game.state g); try reflexivity. congruence.
  - unfold Game.onMouseMove. rewrite Hd. reflexivity.
  - unfold Game.onMouseUp. rewrite Hd. reflexivity.
Qed.

(** ** C1: prediction and live flight *)

(** C1.  For every ship [s] (the launch state), planets, step count [n] and
    step [dt], the prediction loop run for [n] steps from the position and
    velocity of [s] draws the line through exactly the positions the ship
    takes in [n] successive calls of [Ship.update] with the same [dt], and
    ends in the same position and velocity.  The trail and the frame counter
    play no part. *)
Theorem C1_prediction_matches_live :
  forall (s : Ship.t) (planets : list Planet.t) (n : nat) (dt : float)
         (frameCount : Z) (simAcc : Vector2.t),
    let st :=
      Game.predict n dt planets
        (Game.mkSim (Vector2.copy (Ship.pos s)) (Vector2.copy (Ship.vel s))
                    simAcc []) in
    let flight := live n dt planets frameCount s in
    Game.ctx st = map lineTo (map Ship.pos flight)
    /\ lineTos (Game.ctx st) = map Ship.pos flight
    /\ Game.simPos st = Ship.pos (last flight s)
    /\ Game.simVel st = Ship.vel (last flight s).
Proof.
  intros s planets n dt frameCount simAcc. cbv zeta.
  unfold Game.predict. rewrite !vector_copy.
  destruct (predict_live planets dt n 0 frameCount s simAcc []) as (Hc & Hp & Hv).
  cbv zeta in Hc, Hp, Hv. rewrite Hc, Hp, Hv. simpl.
  rewrite lineTos_map. repeat split.
Qed.

(** ** C2: more than one outcome in one call *)

(** C2 fails on the code.  Level 1 in a window of 300 by 300, a drag from
    [(200, 250)] to [(125, 65)], release, and frames 16 ms apart: the eighth
    frame moves the ship to a point inside both the goal threshold and the
    planet threshold, and within bounds.  [checkCollisions] then calls
    [gameWin] and [gameLoss("CRASHED!")] in the same call: the banner reads
    CRASHED!, while the button still reads NEXT LEVEL. *)
Theorem C2_goal_and_crash_in_one_call :
  play flight_events = Some flying_game
  /\ Game.state flying_game = FLYING
  /\ Game.handle (Game.Frame 1128) flying_game
     = Some (Game.set_goal (Goal.draw (Game.goal moved_game))
                           (Game.checkCollisions moved_game))
  /\ goalReached moved_game = true
  /\ planetHit moved_game = true
  /\ outOfBounds moved_game = false
  /\ Game.checkCollisions moved_game
     = Game.gameLoss "CRASHED!" (Game.gameWin moved_game)
  /\ outcome (Game.checkCollisions moved_game) = COLLISION
  /\ Game.uiMessages (Game.checkCollisions moved_game)
     = Game.mkMessages "CRASHED!" "#ef233c" false
  /\ Game.retryBtn (Game.checkCollisions moved_game)
     = Game.mkButton "NEXT LEVEL" Game.NextLevel.
Proof.
  assert (H1 : goalReached moved_game = true) by (vm_compute; reflexivity).
  assert (H2 : planetHit moved_game = true) by (vm_compute; reflexivity).
  assert (H3 : outOfBounds moved_game = false) by (vm_compute; reflexivity).
  split; [vm_compute; reflexivity|].
  split; [reflexivity|].
  split; [vm_compute; reflexivity|].
  rewrite (both_goal_and_planet moved_game H1 H2 H3).
  repeat split; assumption.
Qed.

(** ** C3: the force field *)

(** C3.  The acceleration [Ship.update] leaves in [this.acc], and the one an
    iteration of the prediction loop leaves in [simAcc], are both the net
    acceleration at the position the step starts from: the sum over the
    bodies, coordinate by coordinate and in list order from [(0, 0)], of
    their contributions.  The contribution of a body with [d] below its
    influence radius is [dir / d * (gravity / (d + 5.0))], with
    [dir = body.pos - point] and [d = sqrt(dx^2 + dy^2)], and for [d] zero
    the zero vector times that strength; a body with [d >= influenceRadius]
    contributes [(0, 0)] and can be taken out of the list without changing
    the acceleration. *)
Theorem C3_net_acceleration_is_sum_of_contributions :
  forall (point : Vector2.t) (bodies : list Planet.t),
    (forall (s : Ship.t) (dt : float) (frameCount : Z),
        Ship.acc (Ship.update dt bodies frameCount (Ship.set_pos point s))
        = netAcceleration point bodies)
    /\ (forall (vel acc : Vector2.t) (ops : list Game.CtxOp) (simDt : float) (i : nat),
           exists st',
             Game.predictBody bodies simDt i (Game.mkSim point vel acc ops)
             = JS.Normal st'
             /\ Game.simAcc st' = netAcceleration point bodies)
    /\ netAcceleration point [] = Vector2.new 0 0
    /\ (forall body : Planet.t,
           netAcceleration point (bodies ++ [body])
           = Vector2.new (Vector2.x (netAcceleration point bodies)
                          + Vector2.x (contribution point body))
                         (Vector2.y (netAcceleration point bodies)
                          + Vector2.y (contribution point body)))
    /\ (forall body : Planet.t,
           let dx := Vector2.x (Planet.pos body) - Vector2.x point in
           let dy := Vector2.y (Planet.pos body) - Vector2.y point in
           let d := sqrt (dx * dx + dy * dy) in
           ((d <? Planet.influenceRadius body) = true -> (d =? 0) = false ->
            contribution point body
            = Vector2.new (dx / d * (Planet.gravity body / (d + 5.0)))
                          (dy / d * (Planet.gravity body / (d + 5.0))))
           /\ ((d <? Planet.influenceRadius body) = true -> (d =? 0) = true ->
               contribution point body
               = Vector2.new (0 * (Planet.gravity body / (d + 5.0)))
                             (0 * (Planet.gravity body / (d + 5.0))))
           /\ ((Planet.influenceRadius body <=? d) = true ->
               contribution point body = Vector2.new 0 0
               /\ forall before after : list Planet.t,
                   netAcceleration point (before ++ body :: after)
                   = netAcceleration point (before ++ after))).
Proof.
  intros point bodies. split; [|split; [|split; [|split]]].
  - intros s dt frameCount.
    destruct (update_pos_vel dt bodies frameCount (Ship.set_pos point s))
      as (_ & _ & Ha).
    cbv zeta in Ha. rewrite Ha. apply acceleration_netAcceleration.
  - intros vel acc ops simDt i. eexists. split.
    + apply predictBody_eq.
    + apply acceleration_netAcceleration.
  - reflexivity.
  - intros body. unfold netAcceleration.
    rewrite map_app, fold_left_app. reflexivity.
  - intros body dx dy d. split; [|split].
    + intros Hnear Hnz. unfold contribution. fold dx dy d.
      rewrite Hnear, Hnz. reflexivity.
    + intros Hnear Hz. unfold contribution. fold dx dy d.
      rewrite Hnear, Hz. reflexivity.
    + intros Hfar. apply Float64.leb_not_ltb in Hfar. split.
      * unfold contribution. fold dx dy d. rewrite Hfar. reflexivity.
      * intros before after.
        rewrite <- !acceleration_netAcceleration. unfold acceleration.
        rewrite !fold_left_app. cbn [fold_left].
        unfold accumulate at 2. cbv zeta.
        unfold Vector2.mag, Vector2.sub. cbn [Vector2.x Vector2.y].
        fold dx dy d. rewrite Hfar. reflexivity.
Qed.

(** A ship at [(100, 195)] between three bodies of influence radius 300:
    one 95 above it pulls with [(0, -10)], one 95 to its right with
    [(20, 0)], and one 300 to its right, on the edge of its range, with
    nothing; [Ship.update] leaves the acceleration [(20, -10)], the sum of
    the two pulls.  From 299 away the third body pulls. *)
Lemma C3_cutoff_witness :
  let point := Vector2.new 100 195 in
  let above := Planet.constructor 100 100 40 1000 300 in
  let right := Planet.constructor 195 195 40 2000 300 in
  let far := Planet.constructor 400 195 40 5000 300 in
  contribution point above = Vector2.new 0 (-10)
  /\ contribution point right = Vector2.new 20 0
  /\ contribution point far = Vector2.new 0 0
  /\ Ship.acc (Ship.update 1 [above; far; right] 0
                           (Ship.set_pos point (Ship.constructor 0 0)))
     = Vector2.new 20 (-10)
  /\ netAcceleration point [above; far; right] = netAcceleration point [above; right]
  /\ contribution (Vector2.new 101 195) far = Vector2.new (5000 / (299 + 5)) 0.
Proof.
  cbv zeta.
  destruct (C3_net_acceleration_is_sum_of_contributions
              (Vector2.new 100 195)
              [ Planet.constructor 100 100 40 1000 300;
                Planet.constructor 400 195 40 5000 300;
                Planet.constructor 195 195 40 2000 300 ])
    as (Hlive & _ & _ & _ & H).
  destruct (H (Planet.constructor 100 100 40 1000 300)) as (Hnear1 & _).
  destruct (H (Planet.constructor 195 195 40 2000 300)) as (Hnear2 & _).
  destruct (H (Planet.constructor 400 195 40 5000 300)) as (_ & _ & Hfar).
  cbv zeta in Hnear1, Hnear2, Hfar.
  destruct Hfar as (Hz & Hrm); [vm_compute; reflexivity|].
  split; [rewrite Hnear1 by (vm_compute; reflexivity); vm_compute; reflexivity|].
  split; [rewrite Hnear2 by (vm_compute; reflexivity); vm_compute; reflexivity|].
  split; [exact Hz|]. split; [|split].
  - rewrite Hlive. vm_compute. reflexivity.
  - exact (Hrm [Planet.constructor 100 100 40 1000 300]
               [Planet.constructor 195 195 40 2000 300]).
  - vm_compute. reflexivity.
Defined.

(** ** C4: the integration step *)

(** C4.  [integrate] (lines 59-61) first sets the velocity to
    [vel + acc * dt] and then moves the position by that new velocity times
    [dt]; so does a whole [Ship.update], with the acceleration it computed.
    With acceleration [(0, -10)], [dt = 1] and velocity [(0, 0)] the new
    velocity is [(0, -10)] and the position moves by [(0, -10)]: from
    [(100, 195)] to [(100, 185)], not staying at [(100, 195)]; a planet of
    gravity 1000 that is 95 above the ship gives that acceleration. *)
Theorem C4_symplectic_euler_step :
  forall (s : Ship.t) (dt : float),
    Ship.vel (Ship.integrate dt s)
    = Vector2.add (Ship.vel s) (Vector2.mult (Ship.acc s) dt)
    /\ Ship.pos (Ship.integrate dt s)
       = Vector2.add (Ship.pos s)
                     (Vector2.mult (Ship.vel (Ship.integrate dt s)) dt)
    /\ (forall (planets : list Planet.t) (frameCount : Z),
           let s' := Ship.update dt planets frameCount s in
           Ship.vel s' = Vector2.add (Ship.vel s) (Vector2.mult (Ship.acc s') dt)
           /\ Ship.pos s' = Vector2.add (Ship.pos s) (Vector2.mult (Ship.vel s') dt))
    /\ (let s0 := Ship.set_acc (Vector2.new 0 (-10))
                    (Ship.set_vel (Vector2.new 0 0) s) in
        Ship.vel (Ship.integrate 1 s0) = Vector2.new 0 (-10)
        /\ Ship.pos (Ship.integrate 1 s0)
           = Vector2.add (Ship.pos s) (Vector2.new 0 (-10)))
    /\ (let s0 := Ship.set_acc (Vector2.new 0 (-10)) (Ship.constructor 100 195) in
        Ship.vel (Ship.integrate 1 s0) = Vector2.new 0 (-10)
        /\ Ship.pos (Ship.integrate 1 s0) = Vector2.new 100 185
        /\ Ship.pos (Ship.integrate 1 s0) <> Ship.pos s0)
    /\ (let s' := Ship.update 1 [Planet.constructor 100 100 40 1000 300] 1%Z
                              (Ship.constructor 100 195) in
        Ship.acc s' = Vector2.new 0 (-10)
        /\ Ship.vel s' = Vector2.new 0 (-10)
        /\ Ship.pos s' = Vector2.new 100 185).
Proof.
  intros s dt. split; [reflexivity|]. split; [reflexivity|].
  split; [|split; [|split]].
  - intros planets frameCount. cbv zeta.
    destruct (update_pos_vel dt planets frameCount s) as (Hp & Hv & Ha).
    cbv zeta in Hp, Hv, Ha. rewrite Hp, Hv, Ha. split; reflexivity.
  - cbv zeta. split.
    + vm_compute. reflexivity.
    + destruct s as [[px py] v a r c t m]. vm_compute. reflexivity.
  - cbv zeta. split; [|split]; try (vm_compute; reflexivity).
    vm_compute. discriminate.
  - cbv zeta. repeat split; vm_compute; reflexivity.
Qed.

(** ** C5: the goal threshold *)




(** ** C6: [initLevel] validates nothing *)

(** C6 fails on the code: [initLevel] accepts a level whose planet has a
    negative radius, a negative gravity and influence radius zero, and whose
    goal has a negative radius, and installs them as they are. *)
Lemma C6_malformed_level_is_accepted :
  exists g' : Game.t,
    Game.initLevel 1 broken_game = Some g'
    /\ Game.state g' = IDLE
    /\ Game.planets g' = [ broken_planet ]
    /\ (Planet.radius broken_planet <? 0) = true
    /\ (Planet.gravity broken_planet <? 0) = true
    /\ (Planet.influenceRadius broken_planet <=? 0) = true
    /\ (Goal.radius (Game.goal g') <? 0) = true.
Proof.
  eexists. split; [reflexivity|]. repeat split.
Qed.

(** C6, amended.  [initLevel] checks none of the values of the
    configuration it is given.  A level of the table is here a function
    from the size of the canvas to a configuration with a ship position, a
    goal position and radius, and a list of planets; an entry that is not a
    function, a function that throws and a configuration without one of
    these fields are outside the model, and nothing is said of them.  For
    such a level under the level number, or under level 1 when the number
    has no entry, and whatever the numbers in its configuration are:
    the planets are installed unchanged, the ship is a fresh one at the
    configured position, the goal has the configured position and radius,
    and the state is IDLE. *)
Theorem C6_initLevel_installs_config_unchecked :
  forall (g : Game.t) (levelNum : Z),
    let w := Game.width (Game.canvas g) in
    let h := Game.height (Game.canvas g) in
    let installs (level : float -> float -> Game.LevelConfig) (n : Z) :=
      exists g' : Game.t,
        Game.initLevel levelNum g = Some g'
        /\ Game.state g' = IDLE
        /\ Game.uiStage g' = n
        /\ Game.planets g' = Game.cfg_planets (level w h)
        /\ Game.ship g'
           = Ship.constructor (Vector2.x (Game.cfg_ship (level w h)))
                              (Vector2.y (Game.cfg_ship (level w h)))
        /\ Game.goal g'
           = Goal.constructor (Vector2.x (Game.cfg_goal_pos (level w h)))
                              (Vector2.y (Game.cfg_goal_pos (level w h)))
                              (Game.cfg_goal_r (level w h)) in
    (forall level, Game.levels g levelNum = Some level -> installs level levelNum)
    /\ (forall level,
           Game.levels g levelNum = None -> Game.levels g 1%Z = Some level ->
           installs level 1%Z).
Proof.
  intros g levelNum w h installs. subst installs. cbv beta.
  unfold Game.initLevel. split.
  - intros level E. rewrite E. rewrite E. cbn [JS.bind].
    eexists. split; [reflexivity|]. repeat split.
  - intros level E E1. rewrite E.
    change (Game.levels (Game.set_currentLevel 1%Z g) 1%Z)
      with (Game.levels g 1%Z).
    rewrite E1. cbn [JS.bind]. eexists. split; [reflexivity|]. repeat split.
Qed.

(** Level 2 of the constructor in a canvas of 1000 by 700; a level number
    the table does not have; and the malformed level 1 of [broken_game]. *)
Lemma C6_initLevel_witness :
  (exists g',
      Game.initLevel 2 (flying_at (Vector2.new 0 0) []) = Some g'
      /\ Game.state g' = IDLE
      /\ Game.planets g'
         = [ Planet.constructor (1000 / 3) (700 / 2 - 150) 35 4000 250;
             Planet.constructor (2 * 1000 / 3) (700 / 2 + 150) 35 4000 250 ])
  /\ (exists g',
         Game.initLevel 7 (flying_at (Vector2.new 0 0) []) = Some g'
         /\ Game.uiStage g' = 1%Z
         /\ Game.planets g' = [ Planet.constructor (1000 / 2) (700 / 2) 40 5000 300 ])
  /\ (exists g',
         Game.initLevel 1 broken_game = Some g'
         /\ Game.planets g' = [ broken_planet ]).
Proof.
  split; [|split].
  - destruct (C6_initLevel_installs_config_unchecked
                (flying_at (Vector2.new 0 0) []) 2%Z) as (H & _).
    destruct (H _ eq_refl) as (g' & E & Hs & _ & Hp & _).
    exists g'. repeat split; assumption.
  - destruct (C6_initLevel_installs_config_unchecked
                (flying_at (Vector2.new 0 0) []) 7%Z) as (_ & H).
    destruct (H _ eq_refl eq_refl) as (g' & E & _ & Hn & Hp & _).
    exists g'. repeat split; assumption.
  - destruct (C6_initLevel_installs_config_unchecked broken_game 1%Z)
      as (H & _).
    destruct (H _ eq_refl) as (g' & E & _ & _ & Hp & _).
    exists g'. repeat split; assumption.
Defined.

(** ** C7: the bounds test *)

(** C7.  The bounds test is strict, with margin 0.  A ship outside the
    canvas by any of the four strict comparisons ends the call in state
    ENDED with the banner LOST IN SPACE, whatever the earlier tests did.  A
    ship for which none of them holds, so in particular one exactly on a
    side ([x = 0], [x = width], [y = 0] or [y = height]) with the other
    coordinate inside, is not out of bounds, and when it neither reaches the
    goal nor hits a planet the call changes nothing. *)
Theorem C7_bounds_are_strict :
  forall g : Game.t,
    let x := Vector2.x (Ship.pos (Game.ship g)) in
    let y := Vector2.y (Ship.pos (Game.ship g)) in
    let w := Game.width (Game.canvas g) in
    let h := Game.height (Game.canvas g) in
    outOfBounds g = ((x <? 0) || (w <? x) || (y <? 0) || (h <? y))
    /\ ((x <? 0) = true \/ (w <? x) = true \/ (y <? 0) = true \/ (h <? y) = true ->
        Game.state (Game.checkCollisions g) = ENDED
        /\ Game.uiMessages (Game.checkCollisions g)
           = Game.mkMessages "LOST IN SPACE" "#ef233c" false
        /\ outcome (Game.checkCollisions g) = OUT_OF_BOUNDS)
    /\ ((x <? 0) = false -> (w <? x) = false ->
        (y <? 0) = false -> (h <? y) = false ->
        outOfBounds g = false
        /\ (goalReached g = false -> planetHit g = false ->
            Game.checkCollisions g = g))
    /\ (x = 0 -> (x <? 0) = false)
    /\ (x = w -> (w <? x) = false)
    /\ (y = 0 -> (y <? 0) = false)
    /\ (y = h -> (h <? y) = false).
Proof.
  intros g x y w h.
  assert (Ho : outOfBounds g = ((x <? 0) || (w <? x) || (y <? 0) || (h <? y)))
    by apply outOfBounds_eq.
  split; [exact Ho|]. split; [|split].
  - intros H.
    assert (Ht : outOfBounds g = true).
    { rewrite Ho. destruct H as [-> | [-> | [-> | ->]]];
        rewrite ?orb_true_r; reflexivity. }
    rewrite checkCollisions_eq. cbv zeta. rewrite Ht. repeat split.
  - intros H1 H2 H3 H4.
    assert (Hf : outOfBounds g = false).
    { rewrite Ho, H1, H2, H3, H4. reflexivity. }
    split; [exact Hf|]. intros Hg Hp.
    rewrite checkCollisions_eq. cbv zeta. rewrite Hg, Hp, Hf. reflexivity.
  - repeat split; intros ->; apply Float64.ltb_irrefl.
Qed.

(** In a canvas 1000 wide: a ship at [x = 1000] flies on; at
    [x = 1000.001] it is lost; at the corner [(0, 0)] it flies on. *)
Lemma C7_bounds_witness :
  Game.checkCollisions (flying_at (Vector2.new 1000 350) [])
  = flying_at (Vector2.new 1000 350) []
  /\ outcome (Game.checkCollisions (flying_at (Vector2.new 1000 350) []))
     = CONTINUE
  /\ outcome (Game.checkCollisions (flying_at (Vector2.new (1000 + 0.001) 350) []))
     = OUT_OF_BOUNDS
  /\ Game.checkCollisions (flying_at (Vector2.new 0 0) [])
     = flying_at (Vector2.new 0 0) [].
Proof.
  assert (H1000 : Game.checkCollisions (flying_at (Vector2.new 1000 350) [])
                  = flying_at (Vector2.new 1000 350) []).
  { destruct (C7_bounds_are_strict (flying_at (Vector2.new 1000 350) []))
      as (_ & _ & H & _ & Hw & _).
    cbv zeta in H, Hw.
    destruct (H eq_refl (Hw eq_refl) eq_refl eq_refl) as (_ & Hc).
    apply Hc; vm_compute; reflexivity. }
  split; [exact H1000|]. split; [|split].
  - rewrite H1000. reflexivity.
  - destruct (C7_bounds_are_strict (flying_at (Vector2.new (1000 + 0.001) 350) []))
      as (_ & H & _).
    cbv zeta in H. apply H. right. left. vm_compute. reflexivity.
  - destruct (C7_bounds_are_strict (flying_at (Vector2.new 0 0) []))
      as (_ & _ & H & Hx & _ & Hy & _).
    cbv zeta in H, Hx, Hy.
    destruct (H (Hx eq_refl) eq_refl (Hy eq_refl) eq_refl) as (_ & Hc).
    apply Hc; vm_compute; reflexivity.
Defined.

(** ** C8: the state machine *)

(** C8.  In every game a page can be in: a tick in state IDLE or ENDED
    leaves the ship, so its position and velocity, and the state as they
    are, for [update] alone and for the whole frame; and in state ENDED or
    FLYING each mouse handler returns the game unchanged, as does any
    sequence of mouse events: no transition, no change of velocity. *)
Theorem C8_physics_only_flying_launch_only_idle :
  forall g : Game.t,
    Game.reachable g ->
    (Game.state g <> FLYING ->
     (forall dt,
         Game.ship (Game.update dt g) = Game.ship g
         /\ Game.state (Game.update dt g) = Game.state g)
     /\ (forall timestamp, exists g',
            Game.handle (Game.Frame timestamp) g = Some g'
            /\ Game.ship g' = Game.ship g
            /\ Game.state g' = Game.state g))
    /\ (Game.state g <> IDLE ->
        (forall rect e,
            Game.onMouseDown rect e g = g
            /\ Game.onMouseMove rect e g = g)
        /\ Game.onMouseUp g = Some g
        /\ (forall evs, forallb is_mouse evs = true -> Game.run evs g = Some g)).
Proof.
  intros g Hr. pose proof (reachable_drag_inv g Hr) as Hinv. split.
  - intros Hs. split.
    + intros dt. rewrite update_not_flying by exact Hs. split; reflexivity.
    + intros ts. cbn [Game.handle].
      destruct (loop_some ts g Hinv) as [ops ->]. cbn [JS.bind snd]. cbv zeta.
      eexists. split; [reflexivity|].
      rewrite update_not_flying by exact Hs. split; reflexivity.
  - intros Hs. split; [|split].
    + intros rect e.
      pose proof (mouse_ignored g Hinv Hs (Game.MouseDown rect e) eq_refl) as H1.
      pose proof (mouse_ignored g Hinv Hs (Game.MouseMove rect e) eq_refl) as H2.
      cbn [Game.handle] in H1, H2. split; congruence.
    + exact (mouse_ignored g Hinv Hs Game.MouseUp eq_refl).
    + induction evs as [|ev evs IH]; intros Hall.
      * reflexivity.
      * cbn [forallb] in Hall. apply andb_prop in Hall. destruct Hall as [H1 H2].
        cbn [Game.run]. rewrite (mouse_ignored g Hinv Hs ev H1).
        cbn [JS.bind]. exact (IH H2).
Qed.

(** [ended_game] is reached by the events of [crash_events]; a click, a
    drag and a release on it change nothing, and neither does a frame move
    its ship. *)
Lemma C8_state_machine_witness :
  Game.reachable ended_game
  /\ Game.state ended_game = ENDED
  /\ Game.run [ Game.MouseDown rect0 (Game.mkMouse 200 250);
                Game.MouseMove rect0 (Game.mkMouse 125 65);
                Game.MouseUp ] ended_game
     = Some ended_game
  /\ Game.ship (Game.update (16 / 1000) ended_game) = Game.ship ended_game.
Proof.
  assert (Hr : Game.reachable ended_game).
  { exists 300, 300, banner0, crash_events. vm_compute. reflexivity. }
  split; [exact Hr|]. split; [reflexivity|].
  destruct (C8_physics_only_flying_launch_only_idle ended_game Hr)
    as (Htick & Hmouse).
  split.
  - destruct Hmouse as (_ & _ & Hevs).
    + discriminate.
    + apply Hevs. reflexivity.
  - destruct Htick as (Hu & _).
    + discriminate.
    + apply Hu.
Defined.

(** ** C9: [normalize] *)

(** C9.  [normalize] of the zero vector is the zero vector, by the
    special case (the division would have given [NaN]); so it is for either
    sign of the zeros.  For every vector whose magnitude [m] is not [=== 0],
    [normalize] divides each component by [m]. *)
Theorem C9_normalize :
  Vector2.normalize (Vector2.new 0 0) = Vector2.new 0 0
  /\ Vector2.div (Vector2.new 0 0) (Vector2.mag (Vector2.new 0 0))
     = Vector2.new nan nan
  /\ (forall v : Vector2.t,
         (Vector2.x v =? 0) = true -> (Vector2.y v =? 0) = true ->
         Vector2.normalize v = Vector2.new 0 0)
  /\ (forall v : Vector2.t,
         (Vector2.mag v =? 0) = false ->
         Vector2.normalize v
         = Vector2.new (Vector2.x v / Vector2.mag v) (Vector2.y v / Vector2.mag v)
         /\ Vector2.normalize v = Vector2.div v (Vector2.mag v)).
Proof.
  split; [vm_compute; reflexivity|]. split; [vm_compute; reflexivity|]. split.
  - intros [x y] Hx Hy. simpl in Hx, Hy.
    destruct (Float64.eqb_zero_inv x Hx) as [-> | ->];
      destruct (Float64.eqb_zero_inv y Hy) as [-> | ->];
      vm_compute; reflexivity.
  - intros v Hm. unfold Vector2.normalize, Vector2.div. cbv zeta.
    rewrite Hm. split; reflexivity.
Qed.

(** The vector [(3, 4)] has magnitude 5; [(-0, 0)] is a zero vector. *)
Lemma C9_normalize_witness :
  Vector2.normalize (Vector2.new 3 4) = Vector2.new 0.6 0.8
  /\ Vector2.normalize (Vector2.new (-0) 0) = Vector2.new 0 0.
Proof.
  destruct C9_normalize as (_ & _ & Hz & Hn). split.
  - destruct (Hn (Vector2.new 3 4)) as (H & _).
    + vm_compute. reflexivity.
    + rewrite H. vm_compute. reflexivity.
  - apply Hz; vm_compute; reflexivity.
Defined.

(** ** C10: the preview always has its hundred points *)

(** C10.  Whatever the drag and the planets, [drawTrajectory] issues the
    four opening operations, one [lineTo] for each of 100 positions, and the
    closing operations; the positions are those of 100 live steps of size 1
    from the launch velocity, so the scan for a future collision neither
    shortens nor changes the path.  No iteration of the prediction loop
    completes with [break], and the scan returns the state it was given. *)
Theorem C10_preview_always_100_steps :
  forall (this : Game.t) (a b : Vector2.t),
    Game.dragStart this = Some a ->
    Game.dragCurrent this = Some b ->
    (exists ps : list Vector2.t,
        List.length ps = 100%nat
        /\ (forall frameCount,
               ps = map Ship.pos
                      (live 100 1 (Game.planets this) frameCount
                            (Ship.set_vel (launchVel a b) (Game.ship this))))
        /\ Game.drawTrajectory this
           = Some ([ Game.BeginPath;
                     moveTo (Ship.pos (Game.ship this));
                     Game.StrokeStyle "rgba(255, 255, 255, 0.5)";
                     Game.SetLineDash [5; 5] ]
                   ++ map lineTo ps
                   ++ [ Game.Stroke;
                        Game.SetLineDash [];
                        Game.BeginPath;
                        moveTo (Ship.pos (Game.ship this));
                        lineTo (Vector2.sub (Ship.pos (Game.ship this))
                                            (Vector2.sub a b));
                        Game.StrokeStyle "#fca311";
                        Game.Stroke ]))
    /\ (forall planets simDt i st,
           exists st', Game.predictBody planets simDt i st = JS.Normal st')
    /\ (forall planets st,
           JS.for_of
             (fun p st =>
                if Vector2.dist (Game.simPos st) (Planet.pos p) <? Planet.radius p
                then JS.Break st else JS.Normal st)
             planets st = st).
Proof.
  intros this a b Ha Hb. split; [|split].
  - exists (map Ship.pos
              (live 100 1 (Game.planets this) 0
                    (Ship.set_vel (launchVel a b) (Game.ship this)))).
    split; [|split].
    + rewrite length_map. apply live_length.
    + intros frameCount.
      apply live_positions; reflexivity.
    + unfold Game.drawTrajectory. rewrite Ha, Hb. cbn [JS.bind]. cbv zeta.
      unfold Game.predict. rewrite !vector_copy.
      pose proof (predict_live (Game.planets this) 1 100 0 0
                    (Ship.set_vel (launchVel a b) (Game.ship this))
                    (Vector2.new 0 0)
                    [ Game.BeginPath;
                      moveTo (Ship.pos (Game.ship this));
                      Game.StrokeStyle "rgba(255, 255, 255, 0.5)";
                      Game.SetLineDash [5; 5] ]) as H.
      cbv zeta in H. destruct H as (Hc & _).
      unfold moveTo, launchVel in *.
      cbn [Ship.pos Ship.vel Ship.set_vel] in Hc.
      rewrite Hc. rewrite <- app_assoc. reflexivity.
  - intros planets simDt i st. eexists. apply predictBody_eq.
  - intros planets st. apply collision_scan.
Qed.

(** C10 at the drag of [dragging_game], from [(200, 250)] to [(125, 65)]. *)
Lemma C10_preview_witness :
  Game.dragStart dragging_game = Some (Vector2.new 200 250)
  /\ Game.dragCurrent dragging_game = Some (Vector2.new 125 65)
  /\ exists ps : list Vector2.t,
      List.length ps = 100%nat
      /\ option_map lineTos (Game.drawTrajectory dragging_game)
         = Some (ps ++ [Vector2.sub (Ship.pos (Game.ship dragging_game))
                                    (Vector2.new 75 185)]).
Proof.
  split; [reflexivity|]. split; [reflexivity|].
  destruct (C10_preview_always_100_steps
              dragging_game (Vector2.new 200 250) (Vector2.new 125 65)
              eq_refl eq_refl)
    as ((ps & Hlen & _ & Hdraw) & _).
  exists ps. split; [exact Hlen|].
  rewrite Hdraw. cbn [option_map]. f_equal.
  rewrite !lineTos_app, lineTos_map. reflexivity.
Defined.

(** ** More facts of binary64 arithmetic: signs, commutativity, symmetry *)

Module FloatAlgebra.
Local Open Scope Z_scope.

Section Generic.
Variables prec emax : Z.
Hypothesis prec_pos : 0 < prec.

(** What rounding can return carries the sign it was given. *)
Lemma binary_round_aux_shape (sx : bool) (m e : Z) (l : location) :
  match binary_round_aux prec emax sx m e l with
  | S754_nan => True
  | S754_zero s | S754_infinity s | S754_finite s _ _ => s = sx
  end.
Proof.
  unfold binary_round_aux.
  destruct (shr_fexp prec emax m e l) as [mrs' e'].
  destruct (shr_fexp prec emax _ e' loc_Exact) as [mrs'' e''].
  destruct (shr_m mrs''); try exact I; try reflexivity.
  destruct (e'' <=? emax - prec); reflexivity.
Qed.

Lemma binary_round_aux_opp (sx : bool) (m e : Z) (l : location) :
  binary_round_aux prec emax (negb sx) m e l
  = SFopp (binary_round_aux prec emax sx m e l).
Proof.
  unfold binary_round_aux.
  destruct (shr_fexp prec emax m e l) as [mrs' e'].
  destruct (shr_fexp prec emax _ e' loc_Exact) as [mrs'' e''].
  destruct (shr_m mrs''); try reflexivity.
  destruct (e'' <=? emax - prec); reflexivity.
Qed.

Lemma binary_round_nonzero (sx s : bool) (m : positive) (e : Z) :
  SpecFloat.emin prec emax <= e ->
  binary_round prec emax sx m e <> S754_zero s.
Proof.
  intros He. unfold binary_round.
  destruct (shl_align m e (fexp prec emax (Zpos (digits2_pos m) + e)))
    as [mz ez] eqn:Es.
  apply FloatFacts.binary_round_aux_nonzero; [exact prec_pos|].
  unfold shl_align in Es.
  destruct (fexp prec emax (Zpos (digits2_pos m) + e) - e) eqn:Ed;
    injection Es as <- <-; try assumption.
  unfold fexp. lia.
Qed.

(** Negating the mantissa negates the rounded number, zero apart. *)
Lemma binary_normalize_opp (m e : Z) :
  m <> 0 ->
  binary_normalize prec emax (- m) e false
  = SFopp (binary_normalize prec emax m e false).
Proof.
  intros Hm. unfold binary_normalize, binary_round.
  destruct m as [|m|m]; [congruence| |]; simpl;
    destruct (shl_align m e _) as [mz ez];
    [ change true with (negb false) | change false with (negb true) at 1 ];
    apply binary_round_aux_opp.
Qed.

Lemma SFadd_comm (x y : spec_float) :
  SFadd prec emax x y = SFadd prec emax y x.
Proof.
  destruct x as [[]|[]| |sx mx ex]; destruct y as [[]|[]| |sy my ey];
    try reflexivity.
  unfold SFadd. rewrite (Z.min_comm ey ex). f_equal. apply Z.add_comm.
Qed.

(** [y - x] is the opposite of [x - y], except that both are [+0] when
    the difference cancels. *)
Lemma SFsub_swap (x y : spec_float) :
  SFsub prec emax y x = SFopp (SFsub prec emax x y)
  \/ (SFsub prec emax x y = S754_zero false
      /\ SFsub prec emax y x = S754_zero false).
Proof.
  destruct x as [[]|[]| |sx mx ex]; destruct y as [[]|[]| |sy my ey];
    try (left; reflexivity); try (right; split; reflexivity);
    try (left; simpl; rewrite negb_involutive; reflexivity).
  unfold SFsub. rewrite (Z.min_comm ey ex).
  set (a := cond_Zopp sx (Zpos (fst (shl_align mx ex (Z.min ex ey))))).
  set (b := cond_Zopp sy (Zpos (fst (shl_align my ey (Z.min ex ey))))).
  destruct (Z.eq_dec (a - b) 0) as [E|E].
  - right. replace (b - a) with 0 by lia. rewrite E. split; reflexivity.
  - left. replace (b - a) with (- (a - b)) by lia.
    apply binary_normalize_opp. exact E.
Qed.

Lemma SFmul_opp_opp (x : spec_float) :
  SFmul prec emax (SFopp x) (SFopp x) = SFmul prec emax x x.
Proof.
  destruct x as [[]|[]| |[] m e]; reflexivity.
Qed.

End Generic.
End FloatAlgebra.

Module Float64Algebra.
Local Open Scope float_scope.

Lemma add_comm (x y : float) : x + y = y + x.
Proof.
  apply Prim2SF_inj. rewrite !add_spec. apply FloatAlgebra.SFadd_comm.
Qed.

(** The square of a difference does not depend on its direction. *)
Lemma sub_square_swap (x y : float) : (x - y) * (x - y) = (y - x) * (y - x).
Proof.
  apply Prim2SF_inj. rewrite !mul_spec, !sub_spec. unfold SF64mul, SF64sub.
  destruct (FloatAlgebra.SFsub_swap prec emax (Prim2SF x) (Prim2SF y))
    as [H | [H1 H2]].
  - rewrite H. symmetry. apply FloatAlgebra.SFmul_opp_opp.
  - rewrite H1, H2. reflexivity.
Qed.

(** A square root is [NaN], a zero, or positive. *)
Lemma sqrt_sign (x : float) :
  match Prim2SF (PrimFloat.sqrt x) with
  | S754_nan | S754_zero _ => True
  | S754_infinity s | S754_finite s _ _ => s = false
  end.
Proof.
  rewrite sqrt_spec. unfold SF64sqrt, SFsqrt.
  destruct (Prim2SF x) as [s|[]| |[] m e]; try exact I; try reflexivity.
  destruct (SFsqrt_core_binary prec emax (Zpos m) e) as [[mz ez] lz].
  pose proof (FloatAlgebra.binary_round_aux_shape prec emax false mz ez lz) as H.
  destruct (binary_round_aux prec emax false mz ez lz); auto.
Qed.

Lemma sqrt_not_negative (x : float) : (PrimFloat.sqrt x <? 0) = false.
Proof.
  rewrite ltb_spec. change (Prim2SF 0) with (S754_zero false).
  pose proof (sqrt_sign x) as H.
  destruct (Prim2SF (PrimFloat.sqrt x)) as [s|s| |s m e]; try reflexivity;
    subst s; reflexivity.
Qed.

(** Adding a positive number to a square root gives [NaN] or a positive
    number: never a zero, never a negative number. *)
Lemma sqrt_plus_positive (x c : float) :
  (0 <? c) = true ->
  match Prim2SF (PrimFloat.sqrt x + c) with
  | S754_nan => True
  | S754_zero _ => False
  | S754_infinity s | S754_finite s _ _ => s = false
  end.
Proof.
  intros Hc. rewrite ltb_spec in Hc. change (Prim2SF 0) with (S754_zero false) in Hc.
  rewrite add_spec. unfold SF64add.
  pose proof (sqrt_sign x) as Hd.
  pose proof (Prim2SF_valid (PrimFloat.sqrt x)) as Vd.
  pose proof (Prim2SF_valid c) as Vc.
  destruct (Prim2SF c) as [sc|[]| |[] mc ec]; try discriminate Hc.
  - destruct (Prim2SF (PrimFloat.sqrt x)) as [s|s| |s m e]; simpl; auto.
    subst s. reflexivity.
  - destruct (Prim2SF (PrimFloat.sqrt x)) as [s|s| |s m e]; simpl; auto.
    subst s.
    apply FloatFacts.valid_finite_emin in Vd, Vc.
    cbn [cond_Zopp Z.add].
    match goal with |- context [binary_normalize _ _ (Zpos ?p) ?e _] =>
      pose proof (fun s0 => FloatAlgebra.binary_round_nonzero prec emax eq_refl false s0 p e) as Hnz;
      unfold binary_normalize, binary_round in *;
      destruct (shl_align p e (fexp prec emax (Zpos (digits2_pos p) + e)))
        as [mz ez]
    end.
    pose proof (FloatAlgebra.binary_round_aux_shape prec emax false (Zpos mz) ez loc_Exact) as Hsh.
    destruct (binary_round_aux prec emax false (Zpos mz) ez loc_Exact);
      auto.
    eapply Hnz; [lia|reflexivity].
Qed.

Lemma sqrt_plus_positive_nonzero (x c : float) :
  (0 <? c) = true ->
  (PrimFloat.sqrt x + c =? 0) = false /\ (PrimFloat.sqrt x + c <? 0) = false.
Proof.
  intros Hc. pose proof (sqrt_plus_positive x c Hc) as H.
  rewrite FloatAxioms.eqb_spec, ltb_spec.
  change (Prim2SF 0) with (S754_zero false).
  destruct (Prim2SF (PrimFloat.sqrt x + c)) as [s|s| |s m e];
    try contradiction; try (split; reflexivity); subst s; split; reflexivity.
Qed.

(** A number that is not negative, divided by a positive one, is not
    negative. *)
Lemma div_sign (g c : float) :
  (g <? 0) = false ->
  match Prim2SF c with
  | S754_nan => True
  | S754_zero _ => False
  | S754_infinity s | S754_finite s _ _ => s = false
  end ->
  (g / c <? 0) = false.
Proof.
  rewrite !ltb_spec, div_spec. change (Prim2SF 0) with (S754_zero false).
  unfold SF64div, SFdiv.
  destruct (Prim2SF g) as [sg|[]| |[] mg eg]; try discriminate;
    intros _; destruct (Prim2SF c) as [sc|sc| |sc mc ec];
    try contradiction; try reflexivity; intros ->; try reflexivity.
  destruct (SFdiv_core_binary prec emax (Zpos mg) eg (Zpos mc) ec)
    as [[mz ez] lz].
  cbn [xorb].
  pose proof (FloatAlgebra.binary_round_aux_shape prec emax false mz ez lz) as H.
  destruct (binary_round_aux prec emax false mz ez lz) as [s|s| |s m e];
    try reflexivity; subst s; reflexivity.
Qed.

End Float64Algebra.

(** ** The counters: binary64 addition of 1 to an integer

    Read off [SFadd]: below [2^53] an integer is its own mantissa, shifted
    to 53 bits, and rounding the sum with 1 drops no bit. *)
Module Float64Counter.
Local Open Scope Z_scope.

Lemma digits2_pos_log2 (p : positive) :
  Zpos (digits2_pos p) = Z.log2 (Zpos p) + 1.
Proof.
  rewrite FloatFacts.digits2_pos_size.
  destruct p; cbn [Pos.size Z.log2]; lia.
Qed.

Lemma iter_xO (n p : positive) : Zpos (Pos.iter xO p n) = Zpos p * 2 ^ Zpos n.
Proof.
  induction n as [|n IH] using Pos.peano_ind.
  - cbn. lia.
  - rewrite Pos.iter_succ, Pos2Z.inj_succ, Z.pow_succ_r by lia.
    rewrite Pos2Z.inj_xO, IH. lia.
Qed.

Lemma shr_1_even (q : Z) :
  0 <= q ->
  shr_1 (Build_shr_record (q * 2) false false) = Build_shr_record q false false.
Proof.
  intros Hq. destruct q as [|q|q]; [reflexivity| |lia].
  replace (Zpos q * 2) with (Zpos q~0) by lia. reflexivity.
Qed.

Lemma mul_pow2_nonneg (q : Z) (k : positive) : 0 <= q -> 0 <= q * 2 ^ Zpos k.
Proof.
  intros Hq. apply Z.mul_nonneg_nonneg; [exact Hq|apply Z.pow_nonneg; lia].
Qed.

Lemma iter_shr_1_exact (k : positive) : forall q : Z,
  0 <= q ->
  SpecFloat.iter_pos shr_1 k (Build_shr_record (q * 2 ^ Zpos k) false false)
  = Build_shr_record q false false.
Proof.
  induction k as [k IH|k IH|]; intros q Hq; cbn [SpecFloat.iter_pos].
  - replace (q * 2 ^ Zpos k~1) with (((q * 2 ^ Zpos k) * 2 ^ Zpos k) * 2).
    + rewrite shr_1_even by (do 2 apply mul_pow2_nonneg; exact Hq).
      rewrite IH by (apply mul_pow2_nonneg; exact Hq).
      apply IH. exact Hq.
    + rewrite (Pos2Z.inj_xI k), Z.pow_add_r, Z.pow_mul_r by lia.
      change (2 ^ 2) with 4. rewrite Z.pow_1_r.
      replace 4 with (2 * 2) by reflexivity.
      rewrite Z.pow_mul_l. lia.
  - replace (q * 2 ^ Zpos k~0) with ((q * 2 ^ Zpos k) * 2 ^ Zpos k).
    + rewrite IH by (apply mul_pow2_nonneg; exact Hq).
      apply IH. exact Hq.
    + rewrite (Pos2Z.inj_xO k), Z.pow_mul_r by lia.
      change (2 ^ 2) with 4. replace 4 with (2 * 2) by reflexivity.
      rewrite Z.pow_mul_l. lia.
  - rewrite Z.pow_1_r. apply shr_1_even. exact Hq.
Qed.

Lemma fexp_53 (x : Z) : -1074 <= x -> fexp prec emax (53 + x) = x.
Proof. intros H. unfold fexp, SpecFloat.emin, prec, emax. lia. Qed.

Lemma shr_fexp_53 (q : positive) (e : Z) :
  Z.log2 (Zpos q) + 1 = 53 -> -1074 <= e ->
  shr_fexp prec emax (Zpos q) e loc_Exact
  = (Build_shr_record (Zpos q) false false, e).
Proof.
  intros Hq He. unfold shr_fexp. cbn [Zdigits2 shr_record_of_loc].
  rewrite digits2_pos_log2, Hq, fexp_53 by exact He.
  rewrite Z.sub_diag. reflexivity.
Qed.

(** Rounding changes nothing in a mantissa whose bits beyond the 53rd are
    all zero. *)
Lemma binary_round_aux_exact (sx : bool) (M q : positive) (e k : Z) :
  0 <= k ->
  Zpos M = Zpos q * 2 ^ k ->
  Z.log2 (Zpos q) + 1 = 53 ->
  -1074 <= e + k <= 971 ->
  binary_round_aux prec emax sx (Zpos M) e loc_Exact = S754_finite sx q (e + k).
Proof.
  intros Hk HM Hq He.
  assert (H1 : shr_fexp prec emax (Zpos M) e loc_Exact
               = (Build_shr_record (Zpos q) false false, e + k)).
  { unfold shr_fexp. cbn [Zdigits2 shr_record_of_loc].
    rewrite digits2_pos_log2, HM, Z.log2_mul_pow2 by lia.
    replace (k + Z.log2 (Zpos q) + 1 + e) with (53 + (e + k)) by lia.
    rewrite fexp_53 by lia.
    replace (e + k - e) with k by lia.
    destruct k as [|k|k]; [| |lia].
    - rewrite Z.pow_0_r, Z.mul_1_r, Z.add_0_r. reflexivity.
    - cbn [shr]. rewrite iter_shr_1_exact by lia. reflexivity. }
  unfold binary_round_aux. rewrite H1.
  cbn [shr_m loc_of_shr_record round_nearest_even].
  rewrite shr_fexp_53 by (try exact Hq; lia).
  cbn [shr_m].
  replace (e + k <=? emax - prec) with true; [reflexivity|].
  symmetry. apply Z.leb_le. unfold emax, prec. lia.
Qed.

(** An integer below [2^53] is a binary64 number: its mantissa is the
    integer, shifted to 53 bits. *)
Lemma binary_normalize_small (p : positive) :
  Zpos p < 2 ^ 53 ->
  exists m : positive,
    binary_normalize prec emax (Zpos p) 0 false
    = S754_finite false m (Z.log2 (Zpos p) - 52)
    /\ Zpos m = Zpos p * 2 ^ (52 - Z.log2 (Zpos p)).
Proof.
  intros Hp.
  assert (Hl : 0 <= Z.log2 (Zpos p) < 53).
  { split; [apply Z.log2_nonneg|]. apply Z.log2_lt_pow2; lia. }
  cbn [binary_normalize]. unfold binary_round.
  rewrite digits2_pos_log2.
  replace (fexp prec emax (Z.log2 (Zpos p) + 1 + 0)) with (Z.log2 (Zpos p) - 52)
    by (unfold fexp, SpecFloat.emin, prec, emax; lia).
  unfold shl_align.
  destruct (Z.log2 (Zpos p) - 52 - 0) as [|d|d] eqn:E; [| lia |].
  - exists p.
    rewrite (binary_round_aux_exact false p p 0 0) by (rewrite ?Z.pow_0_r; lia).
    replace (Z.log2 (Zpos p) - 52) with 0 by lia.
    replace (52 - Z.log2 (Zpos p)) with 0 by lia.
    rewrite Z.pow_0_r. split; [reflexivity|lia].
  - exists (Pos.iter xO p d).
    assert (Hm : Zpos (Pos.iter xO p d) = Zpos p * 2 ^ (52 - Z.log2 (Zpos p))).
    { rewrite iter_xO. f_equal. f_equal. lia. }
    rewrite (binary_round_aux_exact false _ (Pos.iter xO p d)
               (Z.log2 (Zpos p) - 52) 0).
    + rewrite Z.add_0_r. split; [reflexivity|exact Hm].
    + lia.
    + rewrite Z.pow_0_r. lia.
    + rewrite Hm, Z.log2_mul_pow2 by lia. lia.
    + lia.
Qed.

(** Adding the number 1 to such a number gives the next integer, also when
    that is [2^53]. *)
Lemma SFadd_one (p m : positive) :
  Zpos p < 2 ^ 53 ->
  Zpos m = Zpos p * 2 ^ (52 - Z.log2 (Zpos p)) ->
  exists (m' : positive) (e' : Z),
    SFadd prec emax (S754_finite false m (Z.log2 (Zpos p) - 52))
                    (S754_finite false 4503599627370496 (-52))
    = S754_finite false m' e'
    /\ JS.magnitude m' e' = Zpos p + 1.
Proof.
  intros Hp Hm.
  assert (Hl : 0 <= Z.log2 (Zpos p) < 53).
  { split; [apply Z.log2_nonneg|]. apply Z.log2_lt_pow2; lia. }
  cbn [SFadd]. rewrite Z.min_r by lia.
  assert (Ha : exists a : positive,
             fst (shl_align m (Z.log2 (Zpos p) - 52) (-52)) = a
             /\ Zpos a = Zpos p * 2 ^ 52).
  { unfold shl_align.
    destruct (-52 - (Z.log2 (Zpos p) - 52)) as [|d|d] eqn:E; [| lia |].
    - exists m. split; [reflexivity|]. rewrite Hm. do 2 f_equal. lia.
    - exists (Pos.iter xO m d). split; [reflexivity|].
      rewrite iter_xO, Hm, <- Z.mul_assoc, <- Z.pow_add_r by lia.
      do 2 f_equal. lia. }
  destruct Ha as (a & -> & Ha).
  change (fst (shl_align 4503599627370496 (-52) (-52))) with 4503599627370496%positive.
  cbn [cond_Zopp].
  change (Zpos a + 4503599627370496) with (Zpos (a + 4503599627370496)).
  set (S := (a + 4503599627370496)%positive).
  assert (HS : Zpos S = (Zpos p + 1) * 2 ^ 52).
  { unfold S. rewrite Pos2Z.inj_add, Ha. change (2 ^ 52) with 4503599627370496. lia. }
  assert (Hl' : 0 <= Z.log2 (Zpos p + 1) <= 53).
  { split; [apply Z.log2_nonneg|].
    pose proof (Z.log2_le_mono (Zpos p + 1) (2 ^ 53)) as H.
    rewrite Z.log2_pow2 in H by lia. apply H. lia. }
  cbn [binary_normalize]. unfold binary_round.
  rewrite digits2_pos_log2, HS, Z.log2_mul_pow2 by lia.
  replace (fexp prec emax (52 + Z.log2 (Zpos p + 1) + 1 + -52))
    with (Z.log2 (Zpos p + 1) - 52)
    by (unfold fexp, SpecFloat.emin, prec, emax; lia).
  assert (Hsh : shl_align S (-52) (Z.log2 (Zpos p + 1) - 52) = (S, -52)).
  { unfold shl_align.
    destruct (Z.log2 (Zpos p + 1) - 52 - -52) eqn:E; [reflexivity|reflexivity|lia]. }
  rewrite Hsh.
  destruct (Z.eq_dec (Z.log2 (Zpos p + 1)) 53) as [E53|N53].
  - assert (Hp1 : Zpos p + 1 = 2 ^ 53).
    { pose proof (Z.log2_spec (Zpos p + 1)) as H. rewrite E53 in H. lia. }
    exists 4503599627370496%positive, 1.
    rewrite (binary_round_aux_exact false S 4503599627370496 (-52) 53);
      [split; [reflexivity|] | lia | | reflexivity | lia].
    + unfold JS.magnitude. cbn. lia.
    + rewrite HS, Hp1. reflexivity.
  - set (l' := Z.log2 (Zpos p + 1)) in *.
    assert (Hq : 0 < (Zpos p + 1) * 2 ^ (52 - l')).
    { apply Z.mul_pos_pos; [lia|apply Z.pow_pos_nonneg; lia]. }
    destruct ((Zpos p + 1) * 2 ^ (52 - l')) as [|q|q] eqn:Eq; try lia.
    exists q, (-52 + l').
    rewrite (binary_round_aux_exact false S q (-52) l').
    + split; [reflexivity|]. unfold JS.magnitude.
      destruct (0 <=? -52 + l') eqn:Es.
      * apply Z.leb_le in Es. replace (-52 + l') with 0 by lia.
        replace (52 - l') with 0 in Eq by lia.
        rewrite Z.pow_0_r in *. lia.
      * apply Z.leb_gt in Es. rewrite <- Eq.
        replace (- (-52 + l')) with (52 - l') by lia.
        apply Z.div_mul. apply Z.pow_nonzero; lia.
    + lia.
    + rewrite HS, <- Eq, <- Z.mul_assoc, <- Z.pow_add_r by lia.
      do 2 f_equal. lia.
    + rewrite <- Eq, Z.log2_mul_pow2 by lia. unfold l'. lia.
    + lia.
Qed.

(** [n++] is exact below [2^53], and [2^53] is where it stops. *)
Lemma incr_exact (n : Z) : 0 <= n < 2 ^ 53 -> JS.incr n = n + 1.
Proof.
  intros Hn. destruct n as [|p|p]; [reflexivity| |lia].
  destruct (binary_normalize_small p) as (m & En & Hm); [lia|].
  destruct (SFadd_one p m) as (m' & e' & Ea & Hv); [lia|exact Hm|].
  assert (Hl : 0 <= Z.log2 (Zpos p) < 53).
  { split; [apply Z.log2_nonneg|]. apply Z.log2_lt_pow2; lia. }
  assert (Hvalid : SpecFloat.valid_binary prec emax
                     (S754_finite false m (Z.log2 (Zpos p) - 52)) = true).
  { cbn [SpecFloat.valid_binary]. unfold bounded, canonical_mantissa.
    rewrite digits2_pos_log2, Hm, Z.log2_mul_pow2 by lia.
    replace (52 - Z.log2 (Zpos p) + Z.log2 (Zpos p) + 1 + (Z.log2 (Zpos p) - 52))
      with (53 + (Z.log2 (Zpos p) - 52)) by lia.
    rewrite fexp_53 by lia. rewrite Z.eqb_refl. cbn [andb].
    apply Z.leb_le. unfold emax, prec. lia. }
  unfold JS.incr, JS.integer, JS.number.
  rewrite add_spec, En, (Prim2SF_SF2Prim _ Hvalid).
  change (Prim2SF 1) with (S754_finite false 4503599627370496 (-52)).
  unfold SF64add. rewrite Ea. cbn [cond_Zopp]. exact Hv.
Qed.

Lemma incr_saturated : JS.incr (2 ^ 53) = 2 ^ 53.
Proof. vm_compute. reflexivity. Qed.

End Float64Counter.

(** ** Every page: induction over the events *)

Lemma GAME_STATE_eqb_eq (a b : GAME_STATE) :
  GAME_STATE_eqb a b = true <-> a = b.
Proof. destruct a, b; simpl; split; congruence. Qed.

Lemma run_app (evs1 evs2 : list Game.Event) : forall g : Game.t,
  Game.run (evs1 ++ evs2) g = (g1 <- Game.run evs1 g ;; Game.run evs2 g1).
Proof.
  induction evs1 as [|ev evs1 IH]; intros g; cbn [Game.run app JS.bind].
  - reflexivity.
  - destruct (Game.handle ev g) as [g1|]; cbn [JS.bind]; [apply IH|reflexivity].
Qed.

Lemma reachable_step (ev : Game.Event) (g g' : Game.t) :
  Game.reachable g -> Game.handle ev g = Some g' -> Game.reachable g'.
Proof.
  intros (w & h & banner & evs & H) Hev.
  exists w, h, banner, (evs ++ [ev]).
  destruct (Game.constructor w h banner) as [g0|]; cbn [JS.bind] in *;
    [|discriminate].
  rewrite run_app, H. cbn [JS.bind Game.run]. rewrite Hev. reflexivity.
Qed.

Lemma reachable_run (evs : list Game.Event) : forall g g' : Game.t,
  Game.reachable g -> Game.run evs g = Some g' -> Game.reachable g'.
Proof.
  induction evs as [|ev evs IH]; intros g g' Hr; cbn [Game.run].
  - intros H. injection H as <-. exact Hr.
  - destruct (Game.handle ev g) as [g1|] eqn:E; cbn [JS.bind]; [|discriminate].
    apply IH. exact (reachable_step ev g g1 Hr E).
Qed.

(** A property the constructed game has and every event keeps holds of
    every page. *)
Lemma reachable_invariant (P : Game.t -> Prop) :
  (forall w h banner g0, Game.constructor w h banner = Some g0 -> P g0) ->
  (forall ev g g', drag_inv g -> P g -> Game.handle ev g = Some g' -> P g') ->
  forall g, Game.reachable g -> P g.
Proof.
  intros Hinit Hstep g (w & h & banner & evs & H).
  destruct (Game.constructor w h banner) as [g0|] eqn:E; cbn [JS.bind] in H;
    [|discriminate].
  assert (Hr0 : Game.reachable g0).
  { exists w, h, banner, []. rewrite E. reflexivity. }
  pose proof (Hinit w h banner g0 E) as H0.
  clear E. revert g0 Hr0 H0 H.
  induction evs as [|ev evs IH]; intros g0 Hr0 H0; cbn [Game.run].
  - intros H. injection H as <-. exact H0.
  - destruct (Game.handle ev g0) as [g1|] eqn:E; cbn [JS.bind]; [|discriminate].
    apply IH.
    + exact (reachable_step ev g0 g1 Hr0 E).
    + exact (Hstep ev g0 g1 (reachable_drag_inv g0 Hr0) H0 E).
Qed.

(** [initLevel] with a level the table has, and with one it lacks. *)
Lemma initLevel_installed (n : Z) (g : Game.t)
      (level : float -> float -> Game.LevelConfig) :
  Game.levels g n = Some level ->
  Game.initLevel n g
  = Some (installed n (level (Game.width (Game.canvas g))
                             (Game.height (Game.canvas g))) g).
Proof.
  intros E. unfold Game.initLevel. rewrite E, E. reflexivity.
Qed.

Lemma initLevel_fallback (n : Z) (g : Game.t)
      (level : float -> float -> Game.LevelConfig) :
  Game.levels g n = None -> Game.levels g 1%Z = Some level ->
  Game.initLevel n g
  = Some (installed 1 (level (Game.width (Game.canvas g))
                             (Game.height (Game.canvas g)))
                    (Game.set_currentLevel 1%Z g)).
Proof.
  intros E E1. unfold Game.initLevel. rewrite E.
  change (Game.levels (Game.set_currentLevel 1%Z g) 1%Z)
    with (Game.levels g 1%Z).
  rewrite E1. reflexivity.
Qed.

(** With the table of the constructor [initLevel] always succeeds. *)
Lemma initLevel_builtin (n : Z) (g : Game.t) :
  Game.levels g = Game.builtin_levels ->
  Game.initLevel n g
  = Some (match Game.builtin_levels n with
          | Some _ => installed n (builtin_config n g) g
          | None => installed 1 (builtin_config 1 g) (Game.set_currentLevel 1%Z g)
          end).
Proof.
  intros El. unfold builtin_config.
  destruct (Game.builtin_levels n) as [level|] eqn:E.
  - apply initLevel_installed. rewrite El. exact E.
  - assert (H1 : Game.levels g n = None) by (rewrite El; exact E).
    assert (H2 : Game.levels g 1%Z = Game.builtin_levels 1%Z)
      by (rewrite El; reflexivity).
    cbn [Game.builtin_levels] in H2.
    rewrite (initLevel_fallback n g _ H1 H2). reflexivity.
Qed.

(** A frame, when no drag can fail it. *)
Lemma handle_frame (ts : float) (g : Game.t) :
  drag_inv g ->
  Game.handle (Game.Frame ts) g
  = Some (let g1 := Game.update ((ts - Game.lastTime g) / 1000)
                                (Game.set_lastTime ts g) in
          Game.set_goal (Goal.draw (Game.goal g1)) g1).
Proof.
  intros Hinv. cbn [Game.handle].
  destruct (loop_some ts g Hinv) as [ops ->]. reflexivity.
Qed.

(** [update] on a flying game, test by test. *)
Lemma update_flying (dt : float) (g : Game.t) :
  Game.state g = FLYING ->
  Game.update dt g
  = let g0 := Game.set_ship
                (Ship.update (dt * 20) (Game.planets g)
                             (JS.incr (Game.frameCount g)) (Game.ship g))
                (Game.set_frameCount (JS.incr (Game.frameCount g)) g) in
    let g1 := if goalReached g0 then Game.gameWin g0 else g0 in
    let g2 := if planetHit g0 then Game.gameLoss "CRASHED!" g1 else g1 in
    if outOfBounds g0 then Game.gameLoss "LOST IN SPACE" g2 else g2.
Proof.
  intros Hs. unfold Game.update. cbv zeta.
  change (Game.state (Game.set_frameCount (JS.incr (Game.frameCount g)) g))
    with (Game.state g).
  rewrite Hs. cbn [GAME_STATE_eqb]. rewrite checkCollisions_eq. reflexivity.
Qed.

(** What [Ship.update] keeps, and what it does to the trail. *)
Lemma ship_update_trail (dt : float) (planets : list Planet.t) (frameCount : Z)
      (s : Ship.t) :
  let s' := Ship.update dt planets frameCount s in
  Ship.radius s' = Ship.radius s
  /\ Ship.color s' = Ship.color s
  /\ Ship.maxTrailLength s' = Ship.maxTrailLength s
  /\ Ship.trail s'
     = (if (Z.rem frameCount 5 =? 0)%Z then
          if (Ship.maxTrailLength s <? S (List.length (Ship.trail s)))%nat
          then tl (Ship.trail s ++ [Ship.pos s'])
          else Ship.trail s ++ [Ship.pos s']
        else Ship.trail s).
Proof.
  cbv zeta. unfold Ship.update. rewrite gravity_acceleration.
  unfold Ship.trailEffect.
  destruct (Z.rem frameCount 5 =? 0)%Z; [|repeat split].
  cbv zeta.
  cbn [Ship.trail Ship.set_trail Ship.maxTrailLength Ship.integrate
       Ship.set_pos Ship.set_vel Ship.set_acc Ship.pos Ship.vel Ship.acc
       Ship.radius Ship.color].
  rewrite length_app. cbn [List.length]. rewrite Nat.add_1_r.
  destruct (Ship.maxTrailLength s <? S (List.length (Ship.trail s)))%nat;
    repeat split; destruct (Ship.pos s); reflexivity.
Qed.

Lemma ship_update_trail_bound (dt : float) (planets : list Planet.t)
      (frameCount : Z) (s : Ship.t) :
  (List.length (Ship.trail s) <= Ship.maxTrailLength s)%nat ->
  (List.length (Ship.trail (Ship.update dt planets frameCount s))
   <= Ship.maxTrailLength s)%nat.
Proof.
  intros Hb.
  destruct (ship_update_trail dt planets frameCount s) as (_ & _ & _ & ->).
  destruct (Z.rem frameCount 5 =? 0)%Z; [|exact Hb].
  destruct (Ship.maxTrailLength s <? S (List.length (Ship.trail s)))%nat eqn:E.
  - destruct (Ship.trail s) as [|p t]; cbn [app tl List.length] in *.
    + lia.
    + rewrite length_app. cbn [List.length]. lia.
  - apply Nat.ltb_ge in E. rewrite length_app. cbn [List.length]. lia.
Qed.

(** A click on the retry button with the table of the constructor: the
    level it restarts or moves on to. *)
Lemma retryBtn_click_builtin (g : Game.t) :
  page_inv g ->
  let n := if won g then next_level (Game.currentLevel g) else Game.currentLevel g in
  exists g0 : Game.t,
    Game.retryBtn_click g = Some (installed n (builtin_config n g0) g0)
    /\ Game.canvas g0 = Game.canvas g
    /\ Game.levels g0 = Game.levels g
    /\ Game.currentLevel g0 = n
    /\ Game.isDragging g0 = Game.isDragging g
    /\ Game.dragStart g0 = Game.dragStart g
    /\ Game.dragCurrent g0 = Game.dragCurrent g.
Proof.
  intros (El & Hcl & Hst & Hh & Hb & He). cbv zeta.
  assert (Hn : Game.currentLevel g = 1%Z \/ Game.currentLevel g = 2%Z
               \/ Game.currentLevel g = 3%Z) by lia.
  unfold Game.retryBtn_click, won.
  destruct (GAME_STATE_eqb (Game.state g) ENDED) eqn:Es; cbn [negb orb andb].
  - assert (Hs : Game.state g = ENDED) by (apply GAME_STATE_eqb_eq; exact Es).
    destruct (String.eqb (Game.msg_innerText (Game.uiMessages g)) "COURSE CLEAR!")
      eqn:Em; cbn [negb].
    + (* a clean win: the listener does nothing, the handler moves on *)
      destruct (He Hs) as [(Hm & Hbtn) | ([Hm | Hm] & _)];
        [| rewrite Hm in Em; discriminate Em | rewrite Hm in Em; discriminate Em].
      cbn [JS.bind]. rewrite Hbtn. cbn [Game.btn_onclick].
      rewrite initLevel_builtin by exact El.
      cbn [Game.currentLevel Game.set_currentLevel]. unfold next_level.
      destruct Hn as [E | [E | E]]; rewrite E;
        [ change (JS.incr 1) with 2%Z | change (JS.incr 2) with 3%Z
        | change (JS.incr 3) with 4%Z ];
        cbn [Game.builtin_levels Z.add Pos.add Pos.succ];
        first [ eexists; split; [reflexivity|]
              | exists (Game.set_currentLevel 1%Z (Game.set_currentLevel 4%Z g));
                split; [reflexivity|] ];
        repeat split; assumption.
    + (* a loss: the listener restarts the level, and so does the handler *)
      rewrite initLevel_builtin by exact El. cbn [JS.bind].
      destruct Hn as [E | [E | E]]; rewrite E; cbn [Game.builtin_levels];
        cbn [Game.retryBtn installed Game.set_goal Game.set_planets Game.set_ship
             Game.set_retryBtn Game.btn_onclick];
        (rewrite initLevel_builtin by exact El);
        cbn [Game.currentLevel installed Game.set_goal Game.set_planets
             Game.set_ship Game.set_retryBtn Game.set_uiStage
             Game.set_uiMessages Game.set_state];
        rewrite E; cbn [Game.builtin_levels];
        (eexists; split; [reflexivity|]); repeat split; assumption.
  - rewrite initLevel_builtin by exact El. cbn [JS.bind].
    destruct Hn as [E | [E | E]]; rewrite E; cbn [Game.builtin_levels];
      cbn [Game.retryBtn installed Game.set_goal Game.set_planets Game.set_ship
           Game.set_retryBtn Game.btn_onclick];
      (rewrite initLevel_builtin by exact El);
      cbn [Game.currentLevel installed Game.set_goal Game.set_planets
           Game.set_ship Game.set_retryBtn Game.set_uiStage
           Game.set_uiMessages Game.set_state];
      rewrite E; cbn [Game.builtin_levels];
      (eexists; split; [reflexivity|]); repeat split; assumption.
Qed.

(** [page_inv] and [ship_inv] hold of every page. *)
Lemma installed_page_inv (n : Z) (config : Game.LevelConfig) (g : Game.t) :
  Game.levels g = Game.builtin_levels ->
  (1 <= n <= 3)%Z -> Game.currentLevel g = n ->
  page_inv (installed n config g).
Proof.
  intros El Hn Hc. unfold page_inv, installed. cbn.
  repeat split; try assumption; try lia; try congruence.
Qed.

Lemma handle_page_inv (ev : Game.Event) (g g' : Game.t) :
  drag_inv g -> page_inv g -> Game.handle ev g = Some g' -> page_inv g'.
Proof.
  intros Hdrag Hpage Hev.
  pose proof Hpage as (El & Hcl & Hst & Hh & Hb & He).
  destruct ev as [ts|rect e|rect e| | |w h].
  - rewrite handle_frame in Hev by exact Hdrag. cbv zeta in Hev.
    injection Hev as <-.
    destruct (Game.state g) eqn:Es.
    + rewrite update_not_flying by (cbn; congruence).
      unfold page_inv. cbn. rewrite Es in *. repeat split; auto; lia.
    + rewrite update_flying by exact Es. cbv zeta.
      assert (Hbtn : Game.retryBtn g = Game.mkButton "RETRY" Game.RetryLevel)
        by (apply Hb; discriminate).
      destruct (goalReached _), (planetHit _), (outOfBounds _);
        unfold page_inv; cbn; rewrite ?Es, ?Hbtn;
        repeat split; auto; try lia; try congruence;
        intros _; auto 6.
    + rewrite update_not_flying by (cbn; congruence).
      unfold page_inv. cbn. rewrite Es in *. repeat split; auto; lia.
  - cbn [Game.handle] in Hev. injection Hev as <-. unfold Game.onMouseDown.
    destruct (negb (GAME_STATE_eqb (Game.state g) IDLE)); exact Hpage.
  - cbn [Game.handle] in Hev. injection Hev as <-. unfold Game.onMouseMove.
    destruct (negb (Game.isDragging g)); exact Hpage.
  - cbn [Game.handle] in Hev. unfold Game.onMouseUp in Hev.
    destruct (Game.isDragging g) eqn:Ed; cbn [negb] in Hev.
    + destruct (Hdrag Ed) as (Hs & _ & _).
      cbn [Game.dragStart Game.dragCurrent Game.set_isDragging] in Hev.
      destruct (Game.dragStart g); [|discriminate].
      destruct (Game.dragCurrent g); [|discriminate].
      cbn [JS.bind] in Hev. injection Hev as <-.
      unfold page_inv. cbn. rewrite Hs in *.
      repeat split; auto; try lia; try discriminate.
      intros _. apply Hb. discriminate.
    + injection Hev as <-. exact Hpage.
  - cbn [Game.handle] in Hev.
    destruct (retryBtn_click_builtin g Hpage) as (g0 & E & _ & El0 & Hc0 & _).
    cbv zeta in E, Hc0. rewrite E in Hev. injection Hev as <-.
    apply installed_page_inv.
    + rewrite El0. exact El.
    + unfold next_level.
      destruct (won g); [|exact Hcl].
      assert (Hn : Game.currentLevel g = 1%Z \/ Game.currentLevel g = 2%Z
                   \/ Game.currentLevel g = 3%Z) by lia.
      destruct Hn as [-> | [-> | ->]]; cbn; lia.
    + exact Hc0.
  - cbn [Game.handle] in Hev. injection Hev as <-. exact Hpage.
Qed.

Lemma reachable_page_inv (g : Game.t) : Game.reachable g -> page_inv g.
Proof.
  apply reachable_invariant.
  - intros w h banner g0 E. unfold Game.constructor in E. cbv zeta in E.
    rewrite initLevel_builtin in E by reflexivity.
    cbn [JS.bind Game.currentLevel Game.builtin_levels] in E.
    injection E as <-. unfold page_inv. cbn.
    repeat split; try lia; try discriminate.
  - exact handle_page_inv.
Qed.

Lemma handle_ship_inv (ev : Game.Event) (g g' : Game.t) :
  drag_inv g -> page_inv g /\ ship_inv g ->
  Game.handle ev g = Some g' -> page_inv g' /\ ship_inv g'.
Proof.
  intros Hdrag (Hpage & Hship) Hev.
  split; [exact (handle_page_inv ev g g' Hdrag Hpage Hev)|].
  pose proof Hship as (Hr & Hc & Hm & Ht & Hi).
  destruct ev as [ts|rect e|rect e| | |w h].
  - rewrite handle_frame in Hev by exact Hdrag. cbv zeta in Hev.
    injection Hev as <-.
    destruct (Game.state g) eqn:Es.
    + rewrite update_not_flying by (cbn; congruence).
      unfold ship_inv. cbn. rewrite Es. repeat split; auto; apply Hi; reflexivity.
    + rewrite update_flying by exact Es. cbv zeta.
      match goal with |- context [Ship.update ?dt ?ps ?fc ?s] =>
        destruct (ship_update_trail dt ps fc s) as (H1 & H2 & H3 & _);
        pose proof (ship_update_trail_bound dt ps fc s) as H4
      end.
      cbv zeta in H1, H2, H3. cbn in H1, H2, H3, H4.
      rewrite Hm in H4. specialize (H4 Ht).
      destruct (goalReached _), (planetHit _), (outOfBounds _);
        unfold ship_inv; cbn; rewrite ?Es;
        (split; [congruence|]); (split; [congruence|]);
        (split; [congruence|]); (split; [exact H4|]);
        intros H; discriminate H.
    + rewrite update_not_flying by (cbn; congruence).
      unfold ship_inv. cbn. rewrite Es. repeat split; auto; discriminate.
  - cbn [Game.handle] in Hev. injection Hev as <-. unfold Game.onMouseDown.
    destruct (negb (GAME_STATE_eqb (Game.state g) IDLE)); exact Hship.
  - cbn [Game.handle] in Hev. injection Hev as <-. unfold Game.onMouseMove.
    destruct (negb (Game.isDragging g)); exact Hship.
  - cbn [Game.handle] in Hev. unfold Game.onMouseUp in Hev.
    destruct (Game.isDragging g) eqn:Ed; cbn [negb] in Hev.
    + cbn [Game.dragStart Game.dragCurrent Game.set_isDragging] in Hev.
      destruct (Game.dragStart g); [|discriminate].
      destruct (Game.dragCurrent g); [|discriminate].
      cbn [JS.bind] in Hev. injection Hev as <-.
      unfold ship_inv. cbn. repeat split; auto; discriminate.
    + injection Hev as <-. exact Hship.
  - cbn [Game.handle] in Hev.
    destruct (retryBtn_click_builtin g Hpage) as (g0 & E & _).
    cbv zeta in E. rewrite E in Hev. injection Hev as <-.
    unfold ship_inv. cbn. repeat split; lia.
  - cbn [Game.handle] in Hev. injection Hev as <-. exact Hship.
Qed.

Lemma reachable_ship_inv (g : Game.t) : Game.reachable g -> ship_inv g.
Proof.
  intros Hr.
  enough (H : page_inv g /\ ship_inv g) by apply H.
  revert g Hr. apply reachable_invariant.
  - intros w h banner g0 E. split.
    + apply reachable_page_inv. exists w, h, banner, []. rewrite E. reflexivity.
    + unfold Game.constructor in E. cbv zeta in E.
      rewrite initLevel_builtin in E by reflexivity.
      cbn [JS.bind Game.currentLevel Game.builtin_levels] in E.
      injection E as <-. unfold ship_inv. cbn. repeat split; lia.
  - exact handle_ship_inv.
Qed.

(** The games of the examples are pages. *)
Lemma dragging_game_reachable : Game.reachable dragging_game.
Proof. exists 300, 300, banner0, drag_events. vm_compute. reflexivity. Qed.

Lemma flying_game_reachable : Game.reachable flying_game.
Proof. exists 300, 300, banner0, flight_events. vm_compute. reflexivity. Qed.

Lemma ended_game_reachable : Game.reachable ended_game.
Proof. exists 300, 300, banner0, crash_events. vm_compute. reflexivity. Qed.

(** ** X1: the page agrees with the state *)

(** X1.  In every game a page can be in, the banner is shown exactly when
    the state is ENDED; outside ENDED the button reads RETRY and restarts the
    level; in ENDED the banner is one of the three messages in its colour,
    COURSE CLEAR! comes with the NEXT LEVEL button, and the label of the
    button always names what its handler does; the stage shown is the
    current level, which is 1, 2 or 3, and the level table is the one of the
    constructor. *)
Theorem X1_page_agrees_with_state :
  forall g : Game.t,
    Game.reachable g ->
    Game.msg_hidden (Game.uiMessages g)
    = negb (GAME_STATE_eqb (Game.state g) ENDED)
    /\ (Game.state g <> ENDED ->
        Game.retryBtn g = Game.mkButton "RETRY" Game.RetryLevel)
    /\ (Game.state g = ENDED ->
        (Game.uiMessages g = Game.mkMessages "COURSE CLEAR!" "#4cc9f0" false
         \/ Game.uiMessages g = Game.mkMessages "CRASHED!" "#ef233c" false
         \/ Game.uiMessages g = Game.mkMessages "LOST IN SPACE" "#ef233c" false)
        /\ (Game.msg_innerText (Game.uiMessages g) = "COURSE CLEAR!"%string ->
            Game.retryBtn g = Game.mkButton "NEXT LEVEL" Game.NextLevel))
    /\ (Game.retryBtn g = Game.mkButton "RETRY" Game.RetryLevel
        \/ Game.retryBtn g = Game.mkButton "NEXT LEVEL" Game.NextLevel)
    /\ Game.uiStage g = Game.currentLevel g
    /\ (1 <= Game.currentLevel g <= 3)%Z
    /\ Game.levels g = Game.builtin_levels.
Proof.
  intros g Hr.
  destruct (reachable_page_inv g Hr) as (El & Hcl & Hst & Hh & Hb & He).
  split; [exact Hh|]. split; [exact Hb|]. split; [|split; [|auto]].
  - intros Hs. destruct (He Hs) as [(Hm & Hbtn) | ([Hm | Hm] & _)];
      rewrite Hm; split; auto; intros H; discriminate H.
  - destruct (Game.state g) eqn:Es.
    + left. apply Hb. discriminate.
    + left. apply Hb. discriminate.
    + destruct (He eq_refl) as [(_ & Hbtn) | (_ & Hbtn)]; auto.
Qed.

(** X1 at the game that crashed inside the goal: the banner is shown and
    reads CRASHED!, the button reads NEXT LEVEL. *)
Lemma X1_page_witness :
  Game.reachable ended_game
  /\ Game.state ended_game = ENDED
  /\ Game.msg_hidden (Game.uiMessages ended_game) = false
  /\ Game.uiStage ended_game = Game.currentLevel ended_game
  /\ (Game.retryBtn ended_game = Game.mkButton "RETRY" Game.RetryLevel
      \/ Game.retryBtn ended_game = Game.mkButton "NEXT LEVEL" Game.NextLevel).
Proof.
  destruct (X1_page_agrees_with_state ended_game ended_game_reachable)
    as (Hh & _ & _ & Hb & Hst & _).
  split; [exact ended_game_reachable|]. split; [reflexivity|].
  split; [exact Hh|]. split; [exact Hst|exact Hb].
Defined.

(** ** X2: the ship of a page *)

(** X2.  In every game a page can be in, the ship has radius 8, its trail
    holds at most 20 points (the cap [maxTrailLength] stays 20), and while
    the state is IDLE the ship is at rest: velocity and acceleration
    [(0, 0)], trail empty. *)
Theorem X2_ship_of_a_page :
  forall g : Game.t,
    Game.reachable g ->
    Ship.radius (Game.ship g) = 8
    /\ Ship.maxTrailLength (Game.ship g) = 20%nat
    /\ (List.length (Ship.trail (Game.ship g)) <= 20)%nat
    /\ (Game.state g = IDLE ->
        Ship.vel (Game.ship g) = Vector2.new 0 0
        /\ Ship.acc (Game.ship g) = Vector2.new 0 0
        /\ Ship.trail (Game.ship g) = []).
Proof.
  intros g Hr.
  destruct (reachable_ship_inv g Hr) as (H1 & _ & H3 & H4 & H5).
  repeat split; try assumption; apply H5; assumption.
Qed.

(** X2 during the drag of [dragging_game], which is IDLE. *)
Lemma X2_ship_witness :
  Game.state dragging_game = IDLE
  /\ Ship.vel (Game.ship dragging_game) = Vector2.new 0 0
  /\ Ship.trail (Game.ship dragging_game) = []
  /\ (List.length (Ship.trail (Game.ship flying_game)) <= 20)%nat.
Proof.
  destruct (X2_ship_of_a_page dragging_game dragging_game_reachable)
    as (_ & _ & _ & Hi).
  destruct (Hi eq_refl) as (Hv & _ & Ht).
  destruct (X2_ship_of_a_page flying_game flying_game_reachable)
    as (_ & _ & Hl & _).
  split; [reflexivity|]. split; [exact Hv|]. split; [exact Ht|exact Hl].
Defined.

(** ** X3: the trail *)

(** X3.  [Ship.update] touches the trail only on frames whose count is a
    multiple of 5.  On such a frame the new position becomes the newest
    point of the trail; when the trail was below its cap nothing is
    dropped, and when it was at the cap the oldest point is.  A trail
    within its cap stays within it. *)
Theorem X3_trail_is_a_bounded_queue :
  forall (s : Ship.t) (dt : float) (planets : list Planet.t) (frameCount : Z),
    let s' := Ship.update dt planets frameCount s in
    ((Z.rem frameCount 5 =? 0)%Z = false -> Ship.trail s' = Ship.trail s)
    /\ ((Z.rem frameCount 5 =? 0)%Z = true ->
        ((List.length (Ship.trail s) < Ship.maxTrailLength s)%nat ->
         Ship.trail s' = Ship.trail s ++ [Ship.pos s'])
        /\ (forall oldest rest,
               Ship.trail s = oldest :: rest ->
               (Ship.maxTrailLength s <= List.length (Ship.trail s))%nat ->
               Ship.trail s' = rest ++ [Ship.pos s']))
    /\ ((List.length (Ship.trail s) <= Ship.maxTrailLength s)%nat ->
        (List.length (Ship.trail s') <= Ship.maxTrailLength s')%nat)
    /\ Ship.maxTrailLength s' = Ship.maxTrailLength s.
Proof.
  intros s dt planets frameCount s'.
  destruct (ship_update_trail dt planets frameCount s) as (_ & _ & Hm & Ht).
  cbv zeta in Hm, Ht. fold s' in Hm, Ht.
  split; [|split; [|split]].
  - intros E. rewrite Ht, E. reflexivity.
  - intros E. rewrite Ht, E. split.
    + intros Hlt.
      replace (Ship.maxTrailLength s <? S (List.length (Ship.trail s)))%nat
        with false; [reflexivity|].
      symmetry. apply Nat.ltb_ge. lia.
    + intros oldest rest Hq Hge.
      replace (Ship.maxTrailLength s <? S (List.length (Ship.trail s)))%nat
        with true by (symmetry; apply Nat.ltb_lt; lia).
      rewrite Hq. reflexivity.
  - intros Hb. rewrite Hm. apply ship_update_trail_bound. exact Hb.
  - exact Hm.
Qed.

(** X3 on a ship with a full trail of twenty points, at frame 5 and at
    frame 6. *)
Lemma X3_trail_witness :
  let full := repeat (Vector2.new 1 1) 20 in
  let s := Ship.set_trail full (Ship.constructor 100 200) in
  Ship.trail (Ship.update 1 [] 5%Z s) = tl full ++ [Vector2.new 100 200]
  /\ Ship.trail (Ship.update 1 [] 6%Z s) = full
  /\ (List.length (Ship.trail (Ship.update 1 [] 5%Z s)) <= 20)%nat.
Proof.
  cbv zeta.
  set (s := Ship.set_trail (repeat (Vector2.new 1 1) 20) (Ship.constructor 100 200)).
  destruct (X3_trail_is_a_bounded_queue s 1 [] 5%Z) as (_ & H5 & Hb & _).
  destruct (X3_trail_is_a_bounded_queue s 1 [] 6%Z) as (H6 & _).
  cbv zeta in H5, H6, Hb. split; [|split].
  - destruct (H5 eq_refl) as (_ & Hfull).
    rewrite (Hfull (Vector2.new 1 1) (repeat (Vector2.new 1 1) 19) eq_refl).
    + vm_compute. reflexivity.
    + vm_compute. lia.
  - exact (H6 eq_refl).
  - apply Hb. vm_compute. lia.
Defined.

(** ** X4: no event fails *)

(** X4.  In every game a page can be in, no event raises a [TypeError]:
    every handler returns a game, which is again a game of the page.  (The
    release of a drag finds both ends of the drag set, the preview too, and
    [initLevel] always finds a level.) *)
Theorem X4_no_event_throws :
  forall g : Game.t,
    Game.reachable g ->
    forall ev : Game.Event,
      exists g' : Game.t, Game.handle ev g = Some g' /\ Game.reachable g'.
Proof.
  intros g Hr ev.
  pose proof (reachable_drag_inv g Hr) as Hdrag.
  pose proof (reachable_page_inv g Hr) as Hpage.
  assert (H : exists g', Game.handle ev g = Some g').
  { destruct ev as [ts|rect e|rect e| | |w h].
    - rewrite handle_frame by exact Hdrag. eexists. reflexivity.
    - eexists. reflexivity.
    - eexists. reflexivity.
    - cbn [Game.handle]. unfold Game.onMouseUp.
      destruct (Game.isDragging g) eqn:Ed; cbn [negb].
      + destruct (Hdrag Ed) as (_ & Ha & Hb).
        cbn [Game.dragStart Game.dragCurrent Game.set_isDragging].
        destruct (Game.dragStart g); [|congruence].
        destruct (Game.dragCurrent g); [|congruence].
        cbn [JS.bind]. eexists. reflexivity.
      + eexists. reflexivity.
    - cbn [Game.handle].
      destruct (retryBtn_click_builtin g Hpage) as (g0 & E & _).
      cbv zeta in E. rewrite E. eexists. reflexivity.
    - eexists. reflexivity. }
  destruct H as (g' & E). exists g'. split; [exact E|].
  exact (reachable_step ev g g' Hr E).
Qed.

(** X4 at the release of the drag of [dragging_game]. *)
Lemma X4_no_throw_witness :
  exists g' : Game.t,
    Game.handle Game.MouseUp dragging_game = Some g' /\ Game.reachable g'.
Proof.
  exact (X4_no_event_throws dragging_game dragging_game_reachable Game.MouseUp).
Defined.

(** ** X5: the transitions of the state *)

(** X5.  In every game a page can be in, an event leaves the state as it
    is, except that a release can take IDLE to FLYING, a frame can take
    FLYING to ENDED, and a click on the retry button leads to IDLE from any
    state.  There is no other transition. *)
Theorem X5_state_transitions :
  forall (g g' : Game.t) (ev : Game.Event),
    Game.reachable g ->
    Game.handle ev g = Some g' ->
    Game.state g' = Game.state g
    \/ (Game.state g = IDLE /\ ev = Game.MouseUp /\ Game.state g' = FLYING)
    \/ (Game.state g = FLYING /\ (exists ts, ev = Game.Frame ts)
        /\ Game.state g' = ENDED)
    \/ (ev = Game.RetryClick /\ Game.state g' = IDLE).
Proof.
  intros g g' ev Hr Hev.
  pose proof (reachable_drag_inv g Hr) as Hdrag.
  destruct ev as [ts|rect e|rect e| | |w h].
  - rewrite handle_frame in Hev by exact Hdrag. cbv zeta in Hev.
    injection Hev as <-.
    destruct (Game.state g) eqn:Es.
    + left. rewrite update_not_flying by (cbn; congruence). cbn. congruence.
    + rewrite update_flying by exact Es. cbv zeta.
      destruct (goalReached _), (planetHit _), (outOfBounds _); cbn;
        first [ left; congruence
              | right; right; left; split; [reflexivity|];
                split; [exists ts|]; reflexivity ].
    + left. rewrite update_not_flying by (cbn; congruence). cbn. congruence.
  - left. cbn [Game.handle] in Hev. injection Hev as <-.
    unfold Game.onMouseDown.
    destruct (negb (GAME_STATE_eqb (Game.state g) IDLE)); reflexivity.
  - left. cbn [Game.handle] in Hev. injection Hev as <-.
    unfold Game.onMouseMove. destruct (negb (Game.isDragging g)); reflexivity.
  - cbn [Game.handle] in Hev. unfold Game.onMouseUp in Hev.
    destruct (Game.isDragging g) eqn:Ed; cbn [negb] in Hev.
    + destruct (Hdrag Ed) as (Hs & _ & _).
      cbn [Game.dragStart Game.dragCurrent Game.set_isDragging] in Hev.
      destruct (Game.dragStart g); [|discriminate].
      destruct (Game.dragCurrent g); [|discriminate].
      cbn [JS.bind] in Hev. injection Hev as <-.
      right. left. repeat split. exact Hs.
    + left. injection Hev as <-. reflexivity.
  - right. right. right. split; [reflexivity|].
    cbn [Game.handle] in Hev.
    destruct (retryBtn_click_builtin g (reachable_page_inv g Hr)) as (g0 & E & _).
    cbv zeta in E. rewrite E in Hev. injection Hev as <-. reflexivity.
  - left. cbn [Game.handle] in Hev. injection Hev as <-. reflexivity.
Qed.

(** X5 at the release of [dragging_game]. *)
Lemma X5_transitions_witness :
  Game.state launched_game = Game.state dragging_game
  \/ (Game.state dragging_game = IDLE /\ Game.MouseUp = Game.MouseUp
      /\ Game.state launched_game = FLYING)
  \/ (Game.state dragging_game = FLYING
      /\ (exists ts, Game.MouseUp = Game.Frame ts)
      /\ Game.state launched_game = ENDED)
  \/ (Game.MouseUp = Game.RetryClick /\ Game.state launched_game = IDLE).
Proof.
  apply (X5_state_transitions dragging_game launched_game Game.MouseUp
           dragging_game_reachable).
  vm_compute. reflexivity.
Defined.

Lemma won_game_reachable : Game.reachable won_game.
Proof. exists 800, 600, banner0, win_events. vm_compute. reflexivity. Qed.

(** ** X6: the retry button *)

(** X6.  In every game a page can be in, a click on the retry button
    succeeds and leads to IDLE with the banner hidden and the button reading
    RETRY.  After a win whose banner still reads COURSE CLEAR! the level is
    the next one, level 3 being followed by level 1; in every other case
    (a loss, a flight under way, an idle game) it is the current level
    again.  The ship, the planets and the goal are those of that level at
    the present size of the canvas. *)
Theorem X6_retry_button :
  forall g : Game.t,
    Game.reachable g ->
    exists (g' : Game.t) (level : float -> float -> Game.LevelConfig),
      Game.retryBtn_click g = Some g'
      /\ Game.state g' = IDLE
      /\ Game.currentLevel g'
         = (if won g
            then (if (Game.currentLevel g =? 3)%Z then 1 else Game.currentLevel g + 1)%Z
            else Game.currentLevel g)
      /\ Game.uiStage g' = Game.currentLevel g'
      /\ Game.msg_hidden (Game.uiMessages g') = true
      /\ Game.retryBtn g' = Game.mkButton "RETRY" Game.RetryLevel
      /\ Game.canvas g' = Game.canvas g
      /\ Game.builtin_levels (Game.currentLevel g') = Some level
      /\ (let config := level (Game.width (Game.canvas g))
                              (Game.height (Game.canvas g)) in
          Game.ship g' = Ship.constructor (Vector2.x (Game.cfg_ship config))
                                          (Vector2.y (Game.cfg_ship config))
          /\ Game.planets g' = Game.cfg_planets config
          /\ Game.goal g'
             = Goal.constructor (Vector2.x (Game.cfg_goal_pos config))
                                (Vector2.y (Game.cfg_goal_pos config))
                                (Game.cfg_goal_r config)).
Proof.
  intros g Hr. pose proof (reachable_page_inv g Hr) as Hpage.
  destruct (retryBtn_click_builtin g Hpage) as (g0 & E & Hc & _ & Hn & _).
  cbv zeta in E, Hn.
  destruct Hpage as (_ & Hcl & _).
  assert (Hcases : Game.currentLevel g = 1%Z \/ Game.currentLevel g = 2%Z
                   \/ Game.currentLevel g = 3%Z) by lia.
  rewrite E. unfold builtin_config. rewrite Hc.
  destruct (won g); destruct Hcases as [Ec | [Ec | Ec]];
    rewrite Ec in *; cbn [next_level Game.builtin_levels Z.add Pos.add Pos.succ Z.eqb Pos.eqb] in *;
    eexists; eexists; (split; [reflexivity|]); cbn; rewrite ?Hn;
    cbn [Game.builtin_levels]; repeat split;
    first [ reflexivity | assumption ].
Qed.

(** X6 after a clean win of level 1, and after the crash of [ended_game]. *)
Lemma X6_retry_witness :
  (exists g', Game.retryBtn_click won_game = Some g'
              /\ won won_game = true
              /\ Game.currentLevel won_game = 1%Z
              /\ Game.currentLevel g' = 2%Z /\ Game.state g' = IDLE)
  /\ (exists g', Game.retryBtn_click ended_game = Some g'
                 /\ won ended_game = false
                 /\ Game.currentLevel g' = 1%Z /\ Game.state g' = IDLE).
Proof.
  split.
  - destruct (X6_retry_button won_game won_game_reachable)
      as (g' & level & E & Hs & Hc & _).
    exists g'. repeat split; assumption.
  - destruct (X6_retry_button ended_game ended_game_reachable)
      as (g' & level & E & Hs & Hc & _).
    exists g'. repeat split; assumption.
Defined.

(** ** X7: an ended game stays ended *)

Lemma ended_step (g : Game.t) (ev : Game.Event) :
  Game.reachable g -> Game.state g = ENDED -> not_retry ev = true ->
  exists g' : Game.t,
    Game.handle ev g = Some g'
    /\ Game.state g' = ENDED
    /\ Game.ship g' = Game.ship g
    /\ Game.uiMessages g' = Game.uiMessages g
    /\ Game.retryBtn g' = Game.retryBtn g
    /\ Game.currentLevel g' = Game.currentLevel g
    /\ Game.planets g' = Game.planets g.
Proof.
  intros Hr Hs Hev. pose proof (reachable_drag_inv g Hr) as Hdrag.
  assert (Hni : Game.state g <> IDLE) by congruence.
  destruct ev as [ts|rect e|rect e| | |w h]; try discriminate Hev.
  - rewrite handle_frame by exact Hdrag. cbv zeta.
    rewrite update_not_flying by (cbn; congruence).
    eexists. split; [reflexivity|]. cbn. repeat split. exact Hs.
  - rewrite (mouse_ignored g Hdrag Hni (Game.MouseDown rect e) eq_refl).
    exists g. repeat split. exact Hs.
  - rewrite (mouse_ignored g Hdrag Hni (Game.MouseMove rect e) eq_refl).
    exists g. repeat split. exact Hs.
  - rewrite (mouse_ignored g Hdrag Hni Game.MouseUp eq_refl).
    exists g. repeat split. exact Hs.
  - eexists. split; [reflexivity|]. cbn. repeat split. exact Hs.
Qed.

(** X7.  Once a game of a page is ENDED, no sequence of frames, mouse
    events and resizes changes its state, its ship, its banner, its button,
    its level or its planets: only a click on the retry button does. *)
Theorem X7_ended_until_retry :
  forall (g : Game.t) (evs : list Game.Event),
    Game.reachable g ->
    Game.state g = ENDED ->
    forallb not_retry evs = true ->
    exists g' : Game.t,
      Game.run evs g = Some g'
      /\ Game.state g' = ENDED
      /\ Game.ship g' = Game.ship g
      /\ Game.uiMessages g' = Game.uiMessages g
      /\ Game.retryBtn g' = Game.retryBtn g
      /\ Game.currentLevel g' = Game.currentLevel g
      /\ Game.planets g' = Game.planets g.
Proof.
  intros g evs. revert g.
  induction evs as [|ev evs IH]; intros g Hr Hs Hall.
  - exists g. repeat split. exact Hs.
  - cbn [forallb] in Hall. apply andb_prop in Hall. destruct Hall as [Hev Hall].
    destruct (ended_step g ev Hr Hs Hev) as (g1 & E & Hs1 & H1 & H2 & H3 & H4 & H5).
    destruct (IH g1 (reachable_step ev g g1 Hr E) Hs1 Hall)
      as (g' & E' & Hs' & K1 & K2 & K3 & K4 & K5).
    exists g'. cbn [Game.run]. rewrite E. cbn [JS.bind].
    repeat split; congruence.
Qed.

(** X7 on [ended_game]: two frames, a drag and a resize later. *)
Lemma X7_ended_witness :
  exists g' : Game.t,
    Game.run [ Game.Frame 1144; Game.MouseDown rect0 (Game.mkMouse 10 10);
               Game.MouseMove rect0 (Game.mkMouse 50 50); Game.MouseUp;
               Game.Resize 640 480; Game.Frame 1160 ] ended_game
    = Some g'
    /\ Game.state g' = ENDED
    /\ Game.ship g' = Game.ship ended_game
    /\ Game.uiMessages g' = Game.uiMessages ended_game.
Proof.
  destruct (X7_ended_until_retry ended_game
              [ Game.Frame 1144; Game.MouseDown rect0 (Game.mkMouse 10 10);
                Game.MouseMove rect0 (Game.mkMouse 50 50); Game.MouseUp;
                Game.Resize 640 480; Game.Frame 1160 ]
              ended_game_reachable eq_refl eq_refl)
    as (g' & E & Hs & H1 & H2 & _).
  exists g'. repeat split; assumption.
Defined.

(** ** X8: the drag gesture *)

(** A drag under way from [p0], the mouse last seen at [q]. *)
Lemma drag_step (g : Game.t) (p0 q : Vector2.t) (ev : Game.Event) :
  Game.state g = IDLE -> Game.isDragging g = true ->
  Game.dragStart g = Some p0 -> Game.dragCurrent g = Some q ->
  during_drag ev = true ->
  exists g' : Game.t,
    Game.handle ev g = Some g'
    /\ Game.state g' = IDLE /\ Game.isDragging g' = true
    /\ Game.dragStart g' = Some p0
    /\ Game.dragCurrent g' = Some (last_move [ev] q)
    /\ Game.ship g' = Game.ship g /\ Game.planets g' = Game.planets g.
Proof.
  intros Hs Hd Ha Hb Hev.
  assert (Hdrag : drag_inv g).
  { intros _. rewrite Ha, Hb. repeat split; congruence. }
  destruct ev as [ts|rect e|rect e| | |w h]; try discriminate Hev.
  - rewrite handle_frame by exact Hdrag. cbv zeta.
    rewrite update_not_flying by (cbn; congruence).
    eexists. split; [reflexivity|]. cbn. repeat split; assumption.
  - cbn [Game.handle]. unfold Game.onMouseMove. rewrite Hd. cbn [negb].
    eexists. split; [reflexivity|]. cbn. repeat split; assumption.
  - eexists. split; [reflexivity|]. cbn. repeat split; assumption.
Qed.

Lemma drag_run (evs : list Game.Event) : forall (g : Game.t) (p0 q : Vector2.t),
  Game.state g = IDLE -> Game.isDragging g = true ->
  Game.dragStart g = Some p0 -> Game.dragCurrent g = Some q ->
  forallb during_drag evs = true ->
  exists g' : Game.t,
    Game.run evs g = Some g'
    /\ Game.state g' = IDLE /\ Game.isDragging g' = true
    /\ Game.dragStart g' = Some p0
    /\ Game.dragCurrent g' = Some (last_move evs q)
    /\ Game.ship g' = Game.ship g /\ Game.planets g' = Game.planets g.
Proof.
  induction evs as [|ev evs IH]; intros g p0 q Hs Hd Ha Hb Hall.
  - exists g. repeat split; assumption.
  - cbn [forallb] in Hall. apply andb_prop in Hall. destruct Hall as [Hev Hall].
    destruct (drag_step g p0 q ev Hs Hd Ha Hb Hev)
      as (g1 & E & Hs1 & Hd1 & Ha1 & Hb1 & Hship1 & Hpl1).
    destruct (IH g1 p0 (last_move [ev] q) Hs1 Hd1 Ha1 Hb1 Hall)
      as (g' & E' & Hs' & Hd' & Ha' & Hb' & Hship' & Hpl').
    exists g'. cbn [Game.run]. rewrite E. cbn [JS.bind].
    split; [exact E'|]. repeat split; try congruence.
    rewrite Hb'. f_equal. destruct ev; reflexivity.
Qed.

(** X8.  From an IDLE game, a press, then any moves, frames and resizes,
    then the release: the game is FLYING, the ship has not moved, and its
    velocity is the vector from the last position the mouse moved to (the
    press point when it never moved) back to the press point, times
    [0.1 * 3.0].  The positions in between and the point of the release
    itself play no part. *)
Theorem X8_launch_by_drag :
  forall (g : Game.t) (rect : Game.DOMRect) (e : Game.MouseEvent)
         (evs : list Game.Event),
    Game.state g = IDLE ->
    forallb during_drag evs = true ->
    let press := Game.getMousePos rect e in
    exists g' : Game.t,
      Game.run (Game.MouseDown rect e :: evs ++ [Game.MouseUp]) g = Some g'
      /\ Game.state g' = FLYING
      /\ Game.isDragging g' = false
      /\ Ship.vel (Game.ship g')
         = Vector2.mult (Vector2.sub press (last_move evs press)) (0.1 * 3.0)
      /\ Ship.pos (Game.ship g') = Ship.pos (Game.ship g)
      /\ Ship.trail (Game.ship g') = Ship.trail (Game.ship g)
      /\ Game.planets g' = Game.planets g.
Proof.
  intros g rect e evs Hs Hall press.
  cbn [Game.run Game.handle JS.bind]. rewrite run_app.
  assert (Hdown : Game.onMouseDown rect e g
                  = Game.set_dragCurrent (Some press)
                      (Game.set_dragStart (Some press)
                         (Game.set_isDragging true g))).
  { unfold Game.onMouseDown. rewrite Hs. reflexivity. }
  rewrite Hdown.
  destruct (drag_run evs
              (Game.set_dragCurrent (Some press)
                 (Game.set_dragStart (Some press) (Game.set_isDragging true g)))
              press press Hs eq_refl eq_refl eq_refl Hall)
    as (g1 & E & Hs1 & Hd1 & Ha1 & Hb1 & Hship1 & Hpl1).
  rewrite E. cbn [JS.bind Game.run Game.handle].
  unfold Game.onMouseUp. rewrite Hd1. cbn [negb].
  cbn [Game.dragStart Game.dragCurrent Game.set_isDragging].
  rewrite Ha1, Hb1. cbn [JS.bind].
  eexists. split; [reflexivity|]. cbn. rewrite Hship1, Hpl1. repeat split.
Qed.

(** X8 for a press at [(200, 250)], a move, a frame and a move to
    [(125, 65)]: the velocity is [(75, 185) * 0.30000000000000004]. *)
Lemma X8_launch_witness :
  exists g' : Game.t,
    Game.run [ Game.MouseDown rect0 (Game.mkMouse 200 250);
               Game.MouseMove rect0 (Game.mkMouse 150 100);
               Game.Frame 1016;
               Game.MouseMove rect0 (Game.mkMouse 125 65);
               Game.MouseUp ]
             (Game.set_state IDLE (flying_at (Vector2.new 100 600) []))
    = Some g'
    /\ Game.state g' = FLYING
    /\ Ship.vel (Game.ship g')
       = Vector2.mult (Vector2.new 75 185) (0.1 * 3.0).
Proof.
  destruct (X8_launch_by_drag
              (Game.set_state IDLE (flying_at (Vector2.new 100 600) []))
              rect0 (Game.mkMouse 200 250)
              [ Game.MouseMove rect0 (Game.mkMouse 150 100);
                Game.Frame 1016;
                Game.MouseMove rect0 (Game.mkMouse 125 65) ]
              eq_refl eq_refl)
    as (g' & E & Hs & _ & Hv & _).
  exists g'. split; [exact E|]. split; [exact Hs|].
  rewrite Hv. vm_compute. reflexivity.
Defined.

(** ** X9: at unit steps the flight follows the preview *)

(** Frames on a game that is not flying and not dragging move nothing. *)
Lemma frames_not_flying (tss : list float) : forall g : Game.t,
  Game.state g <> FLYING -> Game.isDragging g = false ->
  exists g' : Game.t,
    Game.run (map Game.Frame tss) g = Some g'
    /\ Game.state g' = Game.state g
    /\ Game.ship g' = Game.ship g.
Proof.
  induction tss as [|ts tss IH]; intros g Hs Hd.
  - exists g. repeat split.
  - assert (Hdrag : drag_inv g) by (intros H; congruence).
    cbn [map Game.run]. rewrite handle_frame by exact Hdrag. cbv zeta.
    rewrite update_not_flying by (cbn; exact Hs). cbn [JS.bind].
    match goal with |- context [Game.run _ ?h] =>
      destruct (IH h) as (g' & E & Hs' & Hship') end;
      [exact Hs | exact Hd |].
    exists g'. split; [exact E|]. split; [exact Hs'|exact Hship'].
Qed.

(** A frame of scaled delta 1 on a flying game is one [Ship.update] with
    [dt = 1], followed by the tests. *)
Lemma unit_frame (ts : float) (g : Game.t) :
  Game.state g = FLYING -> Game.isDragging g = false ->
  (ts - Game.lastTime g) / 1000 * 20 = 1 ->
  exists g' : Game.t,
    Game.handle (Game.Frame ts) g = Some g'
    /\ Game.ship g'
       = Ship.update 1 (Game.planets g) (JS.incr (Game.frameCount g)) (Game.ship g)
    /\ Game.planets g' = Game.planets g
    /\ Game.lastTime g' = ts
    /\ Game.isDragging g' = false
    /\ (Game.state g' = FLYING \/ Game.state g' = ENDED).
Proof.
  intros Hs Hd Hdt.
  assert (Hdrag : drag_inv g) by (intros H; congruence).
  rewrite handle_frame by exact Hdrag. cbv zeta.
  rewrite update_flying by exact Hs. cbv zeta.
  cbn [Game.lastTime Game.planets Game.frameCount Game.ship Game.set_lastTime].
  rewrite Hdt.
  eexists. split; [reflexivity|].
  destruct (goalReached _), (planetHit _), (outOfBounds _); cbn;
    rewrite ?Hs; repeat split; auto.
Qed.

(** Where [Ship.update] puts the ship depends on its position and velocity
    only. *)
Lemma update_same_motion (dt : float) (planets : list Planet.t) (f1 f2 : Z)
      (s1 s2 : Ship.t) :
  Ship.pos s1 = Ship.pos s2 -> Ship.vel s1 = Ship.vel s2 ->
  Ship.pos (Ship.update dt planets f1 s1) = Ship.pos (Ship.update dt planets f2 s2)
  /\ Ship.vel (Ship.update dt planets f1 s1)
     = Ship.vel (Ship.update dt planets f2 s2).
Proof.
  intros Hp Hv.
  destruct (update_pos_vel dt planets f1 s1) as (Hp1 & Hv1 & _).
  destruct (update_pos_vel dt planets f2 s2) as (Hp2 & Hv2 & _).
  cbv zeta in Hp1, Hv1, Hp2, Hv2.
  rewrite Hp1, Hv1, Hp2, Hv2, Hp, Hv. split; reflexivity.
Qed.

(** Unit frames on a flying game, frame by frame, against the positions
    of a live flight [s] that starts from the same position and velocity:
    up to some frame [j] the game is FLYING and the ship at the point of
    the frame; from [j] on the ship stays at the [j]-th point, and the
    game is ENDED, unless [j] is the last frame and the game still
    FLYING. *)
Lemma unit_frames_flight (tss : list float) :
  forall (g : Game.t) (n : nat) (f : Z) (s : Ship.t) (d : Vector2.t),
    Game.state g = FLYING -> Game.isDragging g = false ->
    unit_frames (Game.lastTime g) tss ->
    (List.length tss <= n)%nat ->
    Ship.pos (Game.ship g) = Ship.pos s ->
    Ship.vel (Game.ship g) = Ship.vel s ->
    let pts := Ship.pos s :: map Ship.pos (live n 1 (Game.planets g) f s) in
    exists j : nat,
      (j <= List.length tss)%nat
      /\ (forall i : nat, (i < j)%nat ->
          exists gi : Game.t,
            Game.run (map Game.Frame (firstn i tss)) g = Some gi
            /\ Game.state gi = FLYING
            /\ Ship.pos (Game.ship gi) = nth i pts d)
      /\ (forall i : nat, (j <= i <= List.length tss)%nat ->
          exists gi : Game.t,
            Game.run (map Game.Frame (firstn i tss)) g = Some gi
            /\ Ship.pos (Game.ship gi) = nth j pts d
            /\ (Game.state gi = ENDED
                \/ (Game.state gi = FLYING /\ i = j /\ j = List.length tss))).
Proof.
  induction tss as [|ts tss IH]; intros g n f s d Hs Hd Hu Hn Hp Hv pts.
  - exists 0%nat. split; [lia|]. split.
    + intros i Hi. lia.
    + intros i Hi. assert (i = 0%nat) by (cbn in Hi; lia). subst i.
      exists g. split; [reflexivity|]. split; [exact Hp|].
      right. repeat split. exact Hs.
  - destruct Hu as [Hdt Hu].
    destruct n as [|n]; [cbn in Hn; lia|].
    destruct (unit_frame ts g Hs Hd Hdt) as (g1 & E & Hship & Hpl & Hlt & Hd1 & Hs1).
    set (s1 := Ship.update 1 (Game.planets g) f s).
    destruct (update_same_motion 1 (Game.planets g) (JS.incr (Game.frameCount g)) f
                (Game.ship g) s Hp Hv) as (Hp1 & Hv1).
    rewrite <- Hship in Hp1, Hv1. fold s1 in Hp1, Hv1.
    assert (Hpts : forall k, nth (S k) pts d
                   = nth k (Ship.pos s1
                            :: map Ship.pos (live n 1 (Game.planets g1) (JS.incr f) s1)) d).
    { intros k. rewrite Hpl. reflexivity. }
    assert (Hstep : forall i, Game.run (map Game.Frame (firstn (S i) (ts :: tss))) g
                              = Game.run (map Game.Frame (firstn i tss)) g1).
    { intros i. cbn [firstn map Game.run]. rewrite E. reflexivity. }
    destruct Hs1 as [Hs1 | Hs1].
    + rewrite <- Hlt in Hu.
      destruct (IH g1 n (JS.incr f) s1 d Hs1 Hd1 Hu) as (j & Hj & Hfly & Hend);
        [cbn in Hn; lia | exact Hp1 | exact Hv1 |].
      exists (S j). split; [cbn; lia|]. split.
      * intros [|i] Hi.
        -- exists g. split; [reflexivity|]. split; [exact Hs|exact Hp].
        -- destruct (Hfly i) as (gi & Ei & Hsi & Hpi); [lia|].
           exists gi. rewrite Hstep, Hpts. repeat split; assumption.
      * intros [|i] Hi; [lia|].
        destruct (Hend i) as (gi & Ei & Hpi & Hsi); [cbn in Hi; lia|].
        exists gi. rewrite Hstep, Hpts. split; [exact Ei|]. split; [exact Hpi|].
        destruct Hsi as [Hsi | (Hsi & Hij & Hjn)]; [left; exact Hsi|].
        right. cbn [List.length]. repeat split; [exact Hsi|lia|lia].
    + exists 1%nat. split; [cbn; lia|]. split.
      * intros i Hi. assert (i = 0%nat) by lia. subst i.
        exists g. split; [reflexivity|]. split; [exact Hs|exact Hp].
      * intros [|i] Hi; [lia|].
        destruct (frames_not_flying (firstn i tss) g1) as (gi & Ei & Hsi & Hshi);
          [congruence | exact Hd1 |].
        exists gi. rewrite Hstep, Hpts. split; [exact Ei|]. split.
        -- rewrite Hshi. exact Hp1.
        -- left. congruence.
Qed.

(** Entities draw no line of the path. *)
Lemma lineTos_planets (planets : list Planet.t) :
  lineTos (map Game.DrawPlanet planets) = [].
Proof. induction planets as [|p planets IH]; [reflexivity|exact IH]. Qed.

(** X9.  Let a frame draw the preview of a drag (the game is IDLE and
    dragging), and let the mouse be released after that frame, before it
    moves again.  Let the scaled delta [(timestamp - lastTime) / 1000 * 20]
    of each frame that follows be exactly 1 (frames 50 ms apart), for at
    most 100 frames.  Then there is a frame [j] such that after each of
    the frames before [j] the game is FLYING and the ship is at the point
    of the drawn preview that has the number of the frame, and after frame
    [j] and after every later frame the ship is at the [j]-th point: there
    the game is ENDED, unless [j] is the last of the frames and the game is
    still FLYING.  So a flight ends on a point of the preview, the point
    of the frame that ended it, and the ship does not move after that. *)
Theorem X9_flight_follows_preview :
  forall (g0 : Game.t) (a b : Vector2.t) (ts0 : float)
         (timestamps : list float),
    Game.state g0 = IDLE ->
    Game.isDragging g0 = true ->
    Game.dragStart g0 = Some a ->
    Game.dragCurrent g0 = Some b ->
    unit_frames ts0 timestamps ->
    (List.length timestamps <= 100)%nat ->
    let p0 := Ship.pos (Game.ship g0) in
    exists (ops : list Game.CtxOp) (g1 g : Game.t) (ps : list Vector2.t)
           (j : nat),
      Game.loop ts0 g0 = Some (ops, g1)
      /\ lineTos ops = ps ++ [Vector2.sub p0 (Vector2.sub a b)]
      /\ List.length ps = 100%nat
      /\ Game.onMouseUp g1 = Some g
      /\ (j <= List.length timestamps)%nat
      /\ (forall i : nat, (i < j)%nat ->
          exists gi : Game.t,
            Game.run (map Game.Frame (firstn i timestamps)) g = Some gi
            /\ Game.state gi = FLYING
            /\ Ship.pos (Game.ship gi) = nth i (p0 :: ps) p0)
      /\ (forall i : nat, (j <= i <= List.length timestamps)%nat ->
          exists gi : Game.t,
            Game.run (map Game.Frame (firstn i timestamps)) g = Some gi
            /\ Ship.pos (Game.ship gi) = nth j (p0 :: ps) p0
            /\ (Game.state gi = ENDED
                \/ (Game.state gi = FLYING /\ i = j
                    /\ j = List.length timestamps))).
Proof.
  intros g0 a b ts0 tss Hs Hd Ha Hb Hu Hlen p0.
  set (h := Game.set_frameCount (JS.incr (Game.frameCount g0))
              (Game.set_lastTime ts0 g0)).
  set (g1 := Game.set_goal (Goal.draw (Game.goal h)) h).
  set (s0 := Ship.set_vel (launchVel a b) (Game.ship g0)).
  set (g := Game.set_state FLYING
              (Game.set_ship s0 (Game.set_isDragging false g1))).
  assert (Hps : List.length (map Ship.pos (live 100 1 (Game.planets g0) 0 s0))
                = 100%nat) by (rewrite length_map; apply live_length).
  remember (map Ship.pos (live 100 1 (Game.planets g0) 0 s0)) as ps eqn:Eps.
  assert (Etraj : option_map lineTos (Game.drawTrajectory g0)
                  = Some (ps ++ [Vector2.sub p0 (Vector2.sub a b)])).
  { unfold Game.drawTrajectory. rewrite Ha, Hb. cbn [JS.bind]. cbv zeta.
    unfold Game.predict. rewrite !vector_copy.
    pose proof (predict_live (Game.planets g0) 1 100 0 0 s0 (Vector2.new 0 0)
                  [ Game.BeginPath;
                    moveTo (Ship.pos (Game.ship g0));
                    Game.StrokeStyle "rgba(255, 255, 255, 0.5)";
                    Game.SetLineDash [5; 5] ]) as H.
    cbv zeta in H. destruct H as (Hc & _).
    unfold moveTo, s0, launchVel in *. cbn [Ship.pos Ship.vel Ship.set_vel] in Hc.
    rewrite Hc. cbn [option_map]. rewrite !lineTos_app, lineTos_map.
    rewrite Eps. reflexivity. }
  destruct (Game.drawTrajectory g0) as [traj|] eqn:Edraw; [|discriminate Etraj].
  cbn [option_map] in Etraj. injection Etraj as Etraj.
  assert (Eloop : Game.loop ts0 g0
                  = Some ([ Game.ClearRect 0 0 (Game.width (Game.canvas g0))
                                           (Game.height (Game.canvas g0)) ]
                          ++ traj
                          ++ [Game.DrawGoal (Game.goal g1)]
                          ++ map Game.DrawPlanet (Game.planets g0)
                          ++ [Game.DrawShip (Game.ship g0)], g1)).
  { unfold Game.loop. cbv zeta.
    rewrite update_not_flying by (cbn; congruence).
    cbn [Game.frameCount Game.set_lastTime]. fold h.
    unfold Game.draw. cbv zeta.
    change (Game.state h) with (Game.state g0).
    change (Game.isDragging h) with (Game.isDragging g0).
    change (Game.drawTrajectory h) with (Game.drawTrajectory g0).
    rewrite Hs, Hd, Edraw. cbn [GAME_STATE_eqb andb JS.bind].
    reflexivity. }
  assert (Eup : Game.onMouseUp g1 = Some g).
  { unfold Game.onMouseUp.
    change (Game.isDragging g1) with (Game.isDragging g0).
    rewrite Hd. cbn [negb].
    change (Game.dragStart (Game.set_isDragging false g1))
      with (Game.dragStart g0).
    change (Game.dragCurrent (Game.set_isDragging false g1))
      with (Game.dragCurrent g0).
    rewrite Ha, Hb. reflexivity. }
  destruct (unit_frames_flight tss g 100 0 s0 p0 eq_refl eq_refl Hu Hlen
              eq_refl eq_refl)
    as (j & Hj & Hfly & Hend).
  cbv zeta in Hfly, Hend.
  change (Game.planets g) with (Game.planets g0) in Hfly, Hend.
  change (Ship.pos s0) with p0 in Hfly, Hend.
  rewrite <- Eps in Hfly, Hend.
  eexists. exists g1, g, ps, j.
  split; [exact Eloop|]. split; [|split; [|split; [exact Eup|split; [exact Hj|split]]]].
  - rewrite !lineTos_app, lineTos_planets. cbn [lineTos app].
    rewrite app_nil_r. exact Etraj.
  - exact Hps.
  - exact Hfly.
  - exact Hend.
Qed.

(** X9 for the drag of [dragging_game]: a frame at 1050 ms draws the
    preview, the mouse is released, and four frames follow 50 ms apart.
    After two of them the game is FLYING with the ship at the second point
    of the preview; the third ends the game, and after the fourth the ship
    is still at the third point. *)
Lemma X9_flight_witness :
  exists (ops : list Game.CtxOp) (g1 g g2 g4 : Game.t) (ps : list Vector2.t),
    Game.loop 1050 dragging_game = Some (ops, g1)
    /\ lineTos ops
       = ps ++ [Vector2.sub (Ship.pos (Game.ship dragging_game))
                            (Vector2.new 75 185)]
    /\ Game.onMouseUp g1 = Some g
    /\ Game.run [Game.Frame 1100; Game.Frame 1150] g = Some g2
    /\ Game.state g2 = FLYING
    /\ nth_error ps 1 = Some (Ship.pos (Game.ship g2))
    /\ Game.run [Game.Frame 1100; Game.Frame 1150; Game.Frame 1200;
                 Game.Frame 1250] g = Some g4
    /\ Game.state g4 = ENDED
    /\ nth_error ps 2 = Some (Ship.pos (Game.ship g4)).
Proof.
  destruct (X9_flight_follows_preview
              dragging_game (Vector2.new 200 250) (Vector2.new 125 65)
              1050 [1100; 1150; 1200; 1250] eq_refl eq_refl eq_refl eq_refl)
    as (ops & g1 & g & ps & j & Eloop & Hdraw & Hlen & Eup & Hj & Hfly & Hend).
  - cbn. repeat split; vm_compute; reflexivity.
  - cbn. lia.
  - cbv zeta in Hdraw, Hfly, Hend.
    pose proof Eup as Eg. pose proof Eloop as El.
    vm_compute in Eloop. injection Eloop as Eops Eg1.
    rewrite <- Eg1 in Eup. vm_compute in Eup. injection Eup as Eg0.
    assert (E2 : exists g2, Game.run [Game.Frame 1100; Game.Frame 1150] g = Some g2
                            /\ Game.state g2 = FLYING).
    { rewrite <- Eg0. vm_compute. eexists. split; reflexivity. }
    assert (E3 : exists g3, Game.run [Game.Frame 1100; Game.Frame 1150;
                                      Game.Frame 1200] g = Some g3
                            /\ Game.state g3 = ENDED).
    { rewrite <- Eg0. vm_compute. eexists. split; reflexivity. }
    destruct E2 as (g2 & E2 & Hs2). destruct E3 as (g3 & E3 & Hs3).
    assert (Ej : j = 3%nat).
    { cbn [List.length] in Hj, Hend.
      destruct (Nat.le_gt_cases j 2) as [Hle | Hgt].
      - destruct (Hend 2%nat) as (gi & Ei & _ & Hsi); [lia|].
        cbn [firstn map] in Ei. rewrite E2 in Ei. injection Ei as <-.
        destruct Hsi as [Hsi | (_ & Hsi & Hsj)]; [congruence|lia].
      - destruct (Nat.eq_dec j 3) as [Ej | Nj]; [exact Ej|].
        destruct (Hfly 3%nat) as (gi & Ei & Hsi & _); [lia|].
        cbn [firstn map] in Ei. rewrite E3 in Ei. injection Ei as <-.
        congruence. }
    subst j.
    destruct (Hfly 2%nat) as (gi & Ei & _ & Hp2); [lia|].
    cbn [firstn map] in Ei. rewrite E2 in Ei. injection Ei as <-.
    destruct (Hend 4%nat) as (g4 & E4 & Hp4 & Hs4); [cbn; lia|].
    cbn [firstn map] in E4.
    exists ops, g1, g, g2, g4, ps.
    destruct ps as [|p1 [|p2 [|p3 ps]]]; try discriminate Hlen.
    cbn [nth] in Hp2, Hp4. cbn [nth_error].
    assert (Hs4' : Game.state g4 = ENDED).
    { destruct Hs4 as [Hs4 | (_ & Hs4 & _)]; [exact Hs4|lia]. }
    split; [exact El|]. split; [exact Hdraw|]. split; [exact Eg|].
    split; [exact E2|]. split; [exact Hs2|]. split; [congruence|].
    split; [exact E4|]. split; [exact Hs4'|congruence].
Defined.

(** ** X10: the softened force *)

(** X10.  Whatever the position and the planet, the distance [d] of the
    gravity loop is never negative, and its softened divisor [d + 5.0] is
    never zero and never negative: the division of line 53 never divides by
    zero.  A planet whose gravity is not negative has a strength that is not
    negative, so that its force never points away from it. *)
Theorem X10_softening_prevents_division_by_zero :
  forall (point : Vector2.t) (planet : Planet.t),
    let d := Vector2.mag (Vector2.sub (Planet.pos planet) point) in
    (d <? 0) = false
    /\ (d + 5.0 =? 0) = false
    /\ (d + 5.0 <? 0) = false
    /\ ((Planet.gravity planet <? 0) = false ->
        (Planet.gravity planet / (d + 5.0) <? 0) = false).
Proof.
  intros point planet d. unfold d, Vector2.mag.
  split; [apply Float64Algebra.sqrt_not_negative|].
  destruct (Float64Algebra.sqrt_plus_positive_nonzero
              (Vector2.x (Vector2.sub (Planet.pos planet) point)
               * Vector2.x (Vector2.sub (Planet.pos planet) point)
               + Vector2.y (Vector2.sub (Planet.pos planet) point)
                 * Vector2.y (Vector2.sub (Planet.pos planet) point))
              5.0 eq_refl) as (H1 & H2).
  split; [exact H1|]. split; [exact H2|].
  intros Hg. apply Float64Algebra.div_sign; [exact Hg|].
  apply Float64Algebra.sqrt_plus_positive. reflexivity.
Qed.

(** X10 for a ship at the very centre of a planet of gravity 5000: the
    divisor is 5 and the strength 1000. *)
Lemma X10_softening_witness :
  let planet := Planet.constructor 400 300 40 5000 300 in
  let d := Vector2.mag (Vector2.sub (Planet.pos planet) (Vector2.new 400 300)) in
  d = 0 /\ d + 5.0 = 5 /\ Planet.gravity planet / (d + 5.0) = 1000
  /\ (Planet.gravity planet / (d + 5.0) <? 0) = false.
Proof.
  cbv zeta.
  destruct (X10_softening_prevents_division_by_zero
              (Vector2.new 400 300) (Planet.constructor 400 300 40 5000 300))
    as (_ & _ & _ & H).
  cbv zeta in H.
  split; [vm_compute; reflexivity|]. split; [vm_compute; reflexivity|].
  split; [vm_compute; reflexivity|]. apply H. vm_compute. reflexivity.
Defined.

(** ** X11: distances are symmetric *)

(** X11.  [Vector2.dist] is symmetric and [Vector2.add] is commutative,
    bit for bit.  So the distance the gravity loop computes from the planet
    to the ship is the distance [checkCollisions] computes from the ship to
    the planet. *)
Theorem X11_distance_is_symmetric :
  forall a b : Vector2.t,
    Vector2.dist a b = Vector2.dist b a
    /\ Vector2.mag (Vector2.sub b a) = Vector2.dist a b
    /\ Vector2.add a b = Vector2.add b a.
Proof.
  intros a b.
  assert (H : Vector2.dist a b = Vector2.dist b a).
  { unfold Vector2.dist, Vector2.mag, Vector2.sub. cbn [Vector2.x Vector2.y].
    rewrite (Float64Algebra.sub_square_swap (Vector2.x a) (Vector2.x b)).
    rewrite (Float64Algebra.sub_square_swap (Vector2.y a) (Vector2.y b)).
    reflexivity. }
  split; [exact H|]. split; [symmetry; exact H|].
  unfold Vector2.add.
  rewrite (Float64Algebra.add_comm (Vector2.x a) (Vector2.x b)).
  rewrite (Float64Algebra.add_comm (Vector2.y a) (Vector2.y b)).
  reflexivity.
Qed.

(** ** X12: the last test that fires decides *)

(** X12.  For every game, [checkCollisions] leaves the ship, the planets,
    the goal and the canvas alone, and the outcome the page shows after it
    is that of the last of its three tests that fires: out of bounds before
    a planet hit, a planet hit before the goal; when none fires the game is
    unchanged.  A win leaves the NEXT LEVEL button even when a later test
    changes the banner.  Running it twice is running it once. *)
Theorem X12_last_test_decides :
  forall g : Game.t,
    outcome (Game.checkCollisions g)
    = (if outOfBounds g then OUT_OF_BOUNDS
       else if planetHit g then COLLISION
       else if goalReached g then GOAL_REACHED
       else outcome g)
    /\ Game.state (Game.checkCollisions g)
       = (if goalReached g || planetHit g || outOfBounds g
          then ENDED else Game.state g)
    /\ Game.retryBtn (Game.checkCollisions g)
       = (if goalReached g
          then Game.mkButton "NEXT LEVEL" Game.NextLevel
          else Game.retryBtn g)
    /\ (goalReached g || planetHit g || outOfBounds g = false ->
        Game.checkCollisions g = g)
    /\ Game.ship (Game.checkCollisions g) = Game.ship g
    /\ Game.planets (Game.checkCollisions g) = Game.planets g
    /\ Game.goal (Game.checkCollisions g) = Game.goal g
    /\ Game.canvas (Game.checkCollisions g) = Game.canvas g
    /\ Game.checkCollisions (Game.checkCollisions g) = Game.checkCollisions g.
Proof.
  intros g.
  assert (Hg : goalReached (Game.checkCollisions g) = goalReached g
               /\ planetHit (Game.checkCollisions g) = planetHit g
               /\ outOfBounds (Game.checkCollisions g) = outOfBounds g).
  { rewrite checkCollisions_eq. cbv zeta.
    destruct (goalReached g) eqn:E1, (planetHit g) eqn:E2,
             (outOfBounds g) eqn:E3; repeat split; assumption. }
  destruct Hg as (G1 & G2 & G3).
  rewrite (checkCollisions_eq (Game.checkCollisions g)). cbv zeta.
  rewrite G1, G2, G3. rewrite checkCollisions_eq. cbv zeta.
  destruct (goalReached g), (planetHit g), (outOfBounds g);
    cbn [orb]; repeat split; try discriminate.
Qed.

(** X12 for a ship within bounds, clear of the goal and of the planet. *)
Lemma X12_last_test_witness :
  let g := flying_at (Vector2.new 100 600)
                     [ Planet.constructor 500 350 40 5000 300 ] in
  Game.checkCollisions g = g.
Proof.
  cbv zeta.
  destruct (X12_last_test_decides
              (flying_at (Vector2.new 100 600)
                         [ Planet.constructor 500 350 40 5000 300 ]))
    as (_ & _ & _ & H & _).
  apply H. vm_compute. reflexivity.
Defined.

(** ** X13: the frame counter *)

Lemma handle_frameCount (ev : Game.Event) (g g' : Game.t) :
  Game.handle ev g = Some g' ->
  Game.frameCount g'
  = match ev with
    | Game.Frame _ => (JS.incr (Game.frameCount g))
    | _ => Game.frameCount g
    end
  /\ Game.lastTime g'
     = match ev with
       | Game.Frame ts => ts
       | _ => Game.lastTime g
       end.
Proof.
  destruct ev as [ts|rect e|rect e| | |w h]; cbn [Game.handle].
  - unfold Game.loop, Game.draw. cbv zeta.
    match goal with |- context [Game.update ?dt ?h] =>
      assert (Hu : Game.frameCount (Game.update dt h) = (JS.incr (Game.frameCount g))
                   /\ Game.lastTime (Game.update dt h) = ts);
      [| destruct Hu as (Hf & Hl); generalize dependent (Game.update dt h) ]
    end.
    { unfold Game.update. cbv zeta.
      match goal with |- context [if ?c then _ else _] => destruct c end;
        [rewrite checkCollisions_eq; cbv zeta;
         destruct (goalReached _), (planetHit _), (outOfBounds _) |];
        split; reflexivity. }
    intros g1 Hf Hl.
    destruct (GAME_STATE_eqb (Game.state g1) IDLE && Game.isDragging g1).
    + destruct (Game.drawTrajectory g1); cbn [JS.bind]; [|discriminate].
      intros H. injection H as <-. split; assumption.
    + cbn [JS.bind]. intros H. injection H as <-. split; assumption.
  - intros H. injection H as <-. unfold Game.onMouseDown.
    destruct (negb _); split; reflexivity.
  - intros H. injection H as <-. unfold Game.onMouseMove.
    destruct (negb _); split; reflexivity.
  - unfold Game.onMouseUp. destruct (negb _).
    + intros H. injection H as <-. split; reflexivity.
    + cbn [Game.dragStart Game.dragCurrent Game.set_isDragging].
      destruct (Game.dragStart g); [|discriminate].
      destruct (Game.dragCurrent g); [|discriminate].
      cbn [JS.bind]. intros H. injection H as <-. split; reflexivity.
  - assert (Hi : forall n h h', Game.initLevel n h = Some h' ->
                 Game.frameCount h' = Game.frameCount h
                 /\ Game.lastTime h' = Game.lastTime h).
    { intros n h h'. unfold Game.initLevel.
      destruct (Game.levels h n) as [level|] eqn:E.
      - rewrite E. cbn [JS.bind]. intros H. injection H as <-. split; reflexivity.
      - change (Game.levels (Game.set_currentLevel 1%Z h) 1%Z)
          with (Game.levels h 1%Z).
        destruct (Game.levels h 1%Z); cbn [JS.bind]; [|discriminate].
        intros H. injection H as <-. split; reflexivity. }
    unfold Game.retryBtn_click.
    match goal with |- context [if ?c then _ else _] => destruct c end.
    + destruct (Game.initLevel (Game.currentLevel g) g) as [g1|] eqn:E1;
        cbn [JS.bind]; [|discriminate].
      destruct (Hi _ _ _ E1) as (F1 & L1).
      destruct (Game.btn_onclick (Game.retryBtn g1)); intros H;
        destruct (Hi _ _ _ H) as (F2 & L2); cbn in F2, L2; split; congruence.
    + cbn [JS.bind].
      destruct (Game.btn_onclick (Game.retryBtn g)); intros H;
        destruct (Hi _ _ _ H) as (F2 & L2); cbn in F2, L2; split; congruence.
  - intros H. injection H as <-. split; reflexivity.
Qed.

(** Counting from an integer in [0, 2^53]: every [++] adds 1 until the
    counter is [2^53], and there it stays. *)
Lemma iter_incr (k : nat) (n : Z) :
  (0 <= n <= 2 ^ 53)%Z ->
  Nat.iter k JS.incr n = Z.min (n + Z.of_nat k) (2 ^ 53).
Proof.
  intros Hn. induction k as [|k IH].
  - cbn [Nat.iter nat_rect]. lia.
  - cbn [Nat.iter nat_rect]. fold (Nat.iter k JS.incr n). rewrite IH.
    destruct (Z_lt_le_dec (n + Z.of_nat k) (2 ^ 53)) as [Hlt | Hge].
    + rewrite Z.min_l by lia.
      rewrite Float64Counter.incr_exact by lia. lia.
    + rewrite Z.min_r by lia.
      rewrite Float64Counter.incr_saturated. lia.
Qed.

(** X13.  Over any run of events the frame counter is incremented once for
    every frame of the run, by the binary64 addition of [frameCount++], and
    by nothing else: restarting or changing the level never resets it.  So
    a counter that holds an integer between 0 and [2^53] grows by the
    number of frames of the run until it is [2^53], and stays there.
    [lastTime] is the timestamp of the last frame. *)
Theorem X13_frame_counter_counts_frames :
  forall (evs : list Game.Event) (g g' : Game.t),
    Game.run evs g = Some g' ->
    let frames :=
      List.length (filter (fun ev => match ev with
                                     | Game.Frame _ => true
                                     | _ => false
                                     end) evs) in
    Game.frameCount g' = Nat.iter frames JS.incr (Game.frameCount g)
    /\ ((0 <= Game.frameCount g <= 2 ^ 53)%Z ->
        Game.frameCount g'
        = Z.min (Game.frameCount g + Z.of_nat frames) (2 ^ 53))
    /\ Game.lastTime g'
       = fold_left (fun t ev => match ev with
                                | Game.Frame ts => ts
                                | _ => t
                                end) evs (Game.lastTime g).
Proof.
  intros evs g g' H frames.
  assert (Hrun : Game.frameCount g' = Nat.iter frames JS.incr (Game.frameCount g)
                 /\ Game.lastTime g'
                    = fold_left (fun t ev => match ev with
                                             | Game.Frame ts => ts
                                             | _ => t
                                             end) evs (Game.lastTime g)).
  { subst frames. revert g g' H.
    induction evs as [|ev evs IH]; intros g g'; cbn [Game.run].
    - intros H. injection H as <-. split; reflexivity.
    - destruct (Game.handle ev g) as [g1|] eqn:E; cbn [JS.bind]; [|discriminate].
      intros H. destruct (IH g1 g' H) as (Hf & Hl).
      destruct (handle_frameCount ev g g1 E) as (Hf1 & Hl1).
      rewrite Hf, Hl, Hf1, Hl1. cbn [filter fold_left].
      destruct ev; cbn [List.length]; split; try reflexivity.
      symmetry. apply Nat.iter_succ_r. }
  destruct Hrun as (Hf & Hl).
  split; [exact Hf|]. split; [|exact Hl].
  intros Hn. rewrite Hf. apply iter_incr. exact Hn.
Qed.

(** X13 on the events of the crash: nine frames, the last at 1128 ms, and
    a retry click in between would not have changed the count.  And a frame
    on a game whose counter is [2^53] leaves the counter there. *)
Lemma X13_frame_counter_witness :
  Game.frameCount ended_game = 9%Z
  /\ Game.lastTime ended_game = 1128
  /\ (exists g' : Game.t,
         Game.run [Game.Frame 1200]
                  (Game.set_frameCount 9007199254740992%Z ended_game) = Some g'
         /\ Game.frameCount g' = 9007199254740992%Z).
Proof.
  destruct (Game.constructor 300 300 banner0) as [g0|] eqn:E0;
    [|vm_compute in E0; discriminate E0].
  assert (E : Game.run crash_events g0 = Some ended_game).
  { vm_compute in E0. injection E0 as <-. vm_compute. reflexivity. }
  destruct (X13_frame_counter_counts_frames crash_events g0 ended_game E)
    as (_ & Hf & Hl).
  vm_compute in E0. injection E0 as <-.
  split; [rewrite Hf by (vm_compute; split; discriminate); reflexivity|].
  split; [exact Hl|].
  destruct (Game.run [Game.Frame 1200]
              (Game.set_frameCount 9007199254740992%Z ended_game))
    as [g'|] eqn:E'; [|vm_compute in E'; discriminate E'].
  exists g'. split; [reflexivity|].
  destruct (X13_frame_counter_counts_frames _ _ g' E') as (_ & Hf' & _).
  rewrite Hf' by (vm_compute; split; discriminate). reflexivity.
Defined.

(** ** X14: [initLevel] twice is [initLevel] once *)



